(** * MakingCosmetics scraper: a shallow embedding of [src/app.py]

    The development follows the class [MakingCosmeticsScraper]:
    the URL classifier [is_product_url], the Product-Variation client
    [call_product_variation_api], the five variant extraction
    strategies, the page extractor [scrape_product_details] and the
    crawler [scrape_all_products].

    What the Python code obtains from libraries is taken from a
    [World]: the HTTP session ([requests]), the parsed document
    together with the results of the fixed XPath queries ([lxml]),
    [json.loads], [urljoin] and [str()] of a non-string JSON value.
    Regular expressions ([re]), [float()] on strings, float formatting
    with [:.2f], string methods, dictionaries and sets are modelled
    here.

    Text: a Python [str] is modelled as a [string] whose characters are
    code points below 256; the character classes below are Python's on
    that range. *)

From Stdlib Require Import ZArith Ascii String List Bool Floats.SpecFloat.
From stdpp Require Import base tactics option list gmap strings.

Set Warnings "-register-all".

Local Open Scope Z_scope.
Local Open Scope list_scope.

(** ** Characters *)

Module Chars.

Definition code (c : ascii) : N := N_of_ascii c.

Definition in_range (lo hi : N) (c : ascii) : bool :=
  ((lo <=? code c) && (code c <=? hi))%N.

(** [\d] on code points below 256: only the ASCII digits are decimal. *)
Definition is_digit (c : ascii) : bool := in_range 48 57 c.

Definition is_upper (c : ascii) : bool := in_range 65 90 c.
Definition is_lower (c : ascii) : bool := in_range 97 122 c.

(** [\s] and [str.strip()]: Unicode white space below 256. *)
Definition is_space (c : ascii) : bool :=
  in_range 9 13 c || in_range 28 32 c
  || (code c =? 133)%N || (code c =? 160)%N.

(** [\w]: alphanumeric code points below 256, and the underscore. *)
Definition is_word (c : ascii) : bool :=
  is_digit c || is_upper c || is_lower c || (code c =? 95)%N
  || (code c =? 170)%N || in_range 178 179 c || (code c =? 181)%N
  || in_range 185 186 c || in_range 188 190 c
  || in_range 192 214 c || in_range 216 246 c || in_range 248 255 c.

(** ASCII lower-casing: the only folding that can make a code point
    below 256 meet an ASCII letter. *)
Definition lower (c : ascii) : ascii :=
  if is_upper c then ascii_of_N (code c + 32) else c.

Definition eqb_nocase (a b : ascii) : bool := Ascii.eqb (lower a) (lower b).

(** The double quote, which the patterns of the variation client use. *)
Definition dquote : ascii := ascii_of_N 34.

End Chars.

(** ** Regular expressions: the fragment of [re] the scraper uses

    A backtracking matcher in the style of [sre]: it returns the ways a
    pattern can match at a position in the order in which [re] would
    try them, so that the head of the list is [re]'s match. *)

Module Re.
Import Chars.

Inductive regex : Type :=
| Eps
| Cls (p : ascii -> bool)          (* one character of a class *)
| Cat (r1 r2 : regex)
| Alt (r1 r2 : regex)              (* ordered alternation *)
| Star (r : regex)                 (* greedy repetition *)
| LazyStar (r : regex)             (* non-greedy repetition *)
| Grp (r : regex)                  (* capturing group 1 *)
| WordB.                           (* \b *)

(** Derived forms. *)
Definition Plus (r : regex) : regex := Cat r (Star r).
Definition LazyPlus (r : regex) : regex := Cat r (LazyStar r).
Definition Opt (r : regex) : regex := Alt r Eps.
Definition Chr (c : ascii) : regex := Cls (Ascii.eqb c).
Definition ChrI (c : ascii) : regex := Cls (eqb_nocase c).
Definition NotChr (c : ascii) : regex := Cls (fun x => negb (Ascii.eqb c x)).
Definition AnyChar : regex := Cls (fun _ => true).        (* . under DOTALL *)
Definition Digit : regex := Cls is_digit.
Definition Space : regex := Cls is_space.

Fixpoint Seq (rs : list regex) : regex :=
  match rs with
  | [] => Eps
  | [r] => r
  | r :: rs' => Cat r (Seq rs')
  end.

Fixpoint Alts (rs : list regex) : regex :=
  match rs with
  | [] => Cls (fun _ => false)
  | [r] => r
  | r :: rs' => Alt r (Alts rs')
  end.

(** A literal, case-sensitive or under [re.IGNORECASE]. *)
Definition Lit (s : string) : regex := Seq (map Chr (list_ascii_of_string s)).
Definition LitI (s : string) : regex := Seq (map ChrI (list_ascii_of_string s)).

(** Matcher state: the character before the position (for [\b]), the
    text still to read, and what group 1 holds. *)
Record mstate : Type := MState {
  prev : option ascii;
  rest : list ascii;
  grp1 : option (list ascii)
}.

Definition word_before (st : mstate) : bool :=
  match prev st with Some c => is_word c | None => false end.
Definition word_after (st : mstate) : bool :=
  match rest st with c :: _ => is_word c | [] => false end.

(** What was read between [st] and a later state [st']. *)
Definition consumed (st st' : mstate) : list ascii :=
  firstn (length (rest st) - length (rest st')) (rest st).

Definition progress (st st' : mstate) : bool :=
  Nat.ltb (length (rest st')) (length (rest st)).

Fixpoint star_greedy (step : mstate -> list mstate) (n : nat) (st : mstate)
  : list mstate :=
  match n with
  | O => [st]
  | S n' =>
      flat_map (star_greedy step n') (List.filter (progress st) (step st))
      ++ [st]
  end.

Fixpoint star_lazy (step : mstate -> list mstate) (n : nat) (st : mstate)
  : list mstate :=
  match n with
  | O => [st]
  | S n' =>
      st :: flat_map (star_lazy step n') (List.filter (progress st) (step st))
  end.

Fixpoint run (r : regex) (st : mstate) : list mstate :=
  match r with
  | Eps => [st]
  | Cls p =>
      match rest st with
      | c :: t =>
          if p c then [MState (Some c) t (grp1 st)] else []
      | [] => []
      end
  | Cat r1 r2 => flat_map (run r2) (run r1 st)
  | Alt r1 r2 => run r1 st ++ run r2 st
  | Star r1 => star_greedy (run r1) (length (rest st)) st
  | LazyStar r1 => star_lazy (run r1) (length (rest st)) st
  | Grp r1 =>
      map (fun st' => MState (prev st') (rest st') (Some (consumed st st')))
          (run r1 st)
  | WordB => if xorb (word_before st) (word_after st) then [st] else []
  end.

(** A match object: where it starts, [group(0)] and [group(1)]. *)
Record rmatch : Type := RMatch {
  m_start : nat;
  group0 : list ascii;
  group1 : option (list ascii)
}.

(** The match starting exactly at the current position, if any. *)
Definition match_here (r : regex) (start : nat) (st : mstate) : option rmatch :=
  match run r st with
  | st' :: _ => Some (RMatch start (consumed st st') (grp1 st'))
  | [] => None
  end.

(** Leftmost match at or after the current position. *)
Fixpoint search_from (r : regex) (start : nat) (p : option ascii) (s : list ascii)
  : option rmatch :=
  match match_here r start (MState p s None) with
  | Some m => Some m
  | None =>
      match s with
      | [] => None
      | c :: t => search_from r (S start) (Some c) t
      end
  end.

(** [re.search(pattern, s)]. *)
Definition search (r : regex) (s : string) : option rmatch :=
  search_from r 0 None (list_ascii_of_string s).

Definition matches (r : regex) (s : string) : bool :=
  match search r s with Some _ => true | None => false end.

(** [m.group(1)] of a pattern with one group that took part in the
    match ([None] only for a group that did not). *)
Definition group1_str (m : rmatch) : option string :=
  string_of_list_ascii <$> group1 m.

Definition group0_str (m : rmatch) : string := string_of_list_ascii (group0 m).

(** [re.finditer]: successive non-overlapping matches, left to right.
    No pattern of the scraper matches the empty text; should one do
    so, the scan moves one character on, so that it ends. *)
Fixpoint finditer_from (fuel : nat) (r : regex) (start : nat)
         (p : option ascii) (s : list ascii) : list rmatch :=
  match fuel with
  | O => []
  | S fuel' =>
      match search_from r start p s with
      | None => []
      | Some m =>
          let skip := (m_start m - start + length (group0 m))%nat in
          let skip' := if Nat.eqb (length (group0 m)) 0 then S skip else skip in
          let p' := match last (firstn skip' s) with
                    | Some c => Some c
                    | None => p
                    end in
          m :: (if Nat.ltb (length s) skip' then []
                else finditer_from fuel' r (start + skip')%nat p' (skipn skip' s))
      end
  end.

Definition finditer (r : regex) (s : string) : list rmatch :=
  let l := list_ascii_of_string s in
  finditer_from (S (length l)) r 0 None l.

(** [re.findall] for a pattern without groups: the matched texts. *)
Definition findall0 (r : regex) (s : string) : list string :=
  map group0_str (finditer r s).

(** [re.findall] for a pattern with exactly one group: what the group
    holds in each match. *)
Definition findall1 (r : regex) (s : string) : list string :=
  map (fun m => default EmptyString (group1_str m)) (finditer r s).

End Re.

(** ** Python strings *)

Module PyStr.
Import Chars.

Definition of_list : list ascii -> string := string_of_list_ascii.
Definition to_list : string -> list ascii := list_ascii_of_string.

Fixpoint lstrip_l (s : list ascii) : list ascii :=
  match s with
  | c :: t => if is_space c then lstrip_l t else s
  | [] => []
  end.

(** [s.strip()] *)
Definition strip (s : string) : string :=
  of_list (rev (lstrip_l (rev (lstrip_l (to_list s))))).

(** [s.lower()], on the ASCII letters (see [Chars.lower]): the scraper
    only asks whether the result contains an ASCII word. *)
Definition lower (s : string) : string := of_list (map Chars.lower (to_list s)).

Fixpoint is_prefix (p s : list ascii) : bool :=
  match p, s with
  | [], _ => true
  | a :: p', b :: s' => Ascii.eqb a b && is_prefix p' s'
  | _ :: _, [] => false
  end.

Fixpoint contains_l (needle hay : list ascii) : bool :=
  is_prefix needle hay ||
  match hay with
  | [] => false
  | _ :: t => contains_l needle t
  end.

(** [needle in hay] for two strings. *)
Definition contains (needle hay : string) : bool :=
  contains_l (to_list needle) (to_list hay).

(** [s.replace(c, '')] for a single character [c]. *)
Definition remove_char (c : ascii) (s : string) : string :=
  of_list (List.filter (fun x => negb (Ascii.eqb c x)) (to_list s)).

(** [s.replace(old, new)] for a non-empty [old]: occurrences are
    replaced left to right without overlap.  [skip] counts the
    characters of an occurrence still to be dropped. *)
Fixpoint replace_l (old new : list ascii) (skip : nat) (s : list ascii)
  : list ascii :=
  match s with
  | [] => []
  | c :: t =>
      match skip with
      | S k => replace_l old new k t
      | O =>
          if is_prefix old s
          then new ++ replace_l old new (length old - 1) t
          else c :: replace_l old new 0 t
      end
  end.

Definition replace (old new s : string) : string :=
  of_list (replace_l (to_list old) (to_list new) 0 (to_list s)).

(** [sep.join(parts)] *)
Fixpoint join (sep : string) (parts : list string) : string :=
  match parts with
  | [] => EmptyString
  | [p] => p
  | p :: ps => (p ++ sep ++ join sep ps)%string
  end.

Definition is_empty (s : string) : bool :=
  match s with EmptyString => true | _ => false end.

(** Truth value of a string: non-empty. *)
Definition truthy (s : string) : bool := negb (is_empty s).

End PyStr.

(** [re.sub(pattern, repl, s)] with a literal replacement. *)
Module ReSub.
Import Re.

Fixpoint sub_from (ms : list rmatch) (pos : nat) (repl s : list ascii)
  : list ascii :=
  match ms with
  | [] => s
  | m :: ms' =>
      let upto := (m_start m - pos)%nat in
      let len := length (group0 m) in
      firstn upto s ++ repl
        ++ sub_from ms' (m_start m + len)%nat repl (skipn (upto + len) s)
  end.

Definition sub (r : regex) (repl s : string) : string :=
  PyStr.of_list
    (sub_from (finditer r s) 0 (PyStr.to_list repl) (PyStr.to_list s)).

End ReSub.

(** ** Python exceptions *)

Inductive exn : Type :=
| ValueError | TypeError | KeyError | AttributeError | OverflowError
| JSONDecodeError                    (* a subclass of ValueError *)
| RequestException.

Inductive result (A : Type) : Type :=
| Ok (a : A)
| Raise (e : exn).
Arguments Ok {A} a.
Arguments Raise {A} e.

Definition rbind {A B : Type} (x : result A) (k : A -> result B) : result B :=
  match x with
  | Ok a => k a
  | Raise e => Raise e
  end.

Notation "x <-! c ;; k" := (rbind c (fun x => k))
  (at level 100, c at next level, right associativity).

(** ** Python floats: IEEE 754 binary64, as [spec_float] *)

Module PyFloat.
Import Chars.

Definition prec : Z := 53.
Definition emax : Z := 1024.

Definition add : spec_float -> spec_float -> spec_float := SFadd prec emax.

(** The binary64 number nearest to [p / q] (ties to even): the
    quotient is taken with two bits more than the format holds, and
    the remainder tells on which side of the half-way point the exact
    value lies. *)
Definition of_ratio (neg : bool) (p q : positive) : spec_float :=
  let k := Z.max 0 (55 + Z.pos (digits2_pos q) - Z.pos (digits2_pos p)) in
  let num := Z.pos p * 2 ^ k in
  let m := num / Z.pos q in
  let r := num mod Z.pos q in
  let loc := if r =? 0 then loc_Exact
             else loc_Inexact (Z.compare (2 * r) (Z.pos q)) in
  binary_round_aux prec emax neg m (- k) loc.

(** The binary64 number nearest to [n * 10 ^ e10]. *)
Definition of_decimal (neg : bool) (n : N) (e10 : Z) : spec_float :=
  match n with
  | N0 => S754_zero neg
  | Npos p =>
      if 0 <=? e10
      then of_ratio neg (p * Z.to_pos (10 ^ e10)) 1
      else of_ratio neg p (Z.to_pos (10 ^ (- e10)))
  end.

(** [float(n)] for an [int]: OverflowError beyond the binary64 range. *)
Definition of_int (n : Z) : result spec_float :=
  match binary_normalize prec emax n 0 false with
  | S754_infinity _ => Raise OverflowError
  | f => Ok f
  end.

Definition digit_val (c : ascii) : N := (code c - 48)%N.

Definition digits_val (ds : list ascii) : N :=
  fold_left (fun acc c => (10 * acc + digit_val c)%N) ds 0%N.

Fixpoint span_digits (s : list ascii) : list ascii * list ascii :=
  match s with
  | c :: t =>
      if is_digit c
      then let '(ds, r) := span_digits t in (c :: ds, r)
      else ([], s)
  | [] => ([], [])
  end.

(** Underscores may only stand between two digits; they are dropped. *)
Fixpoint drop_underscores (before : option ascii) (s : list ascii)
  : option (list ascii) :=
  match s with
  | [] =>
      match before with
      | Some c => if Ascii.eqb c "_" then None else Some []
      | None => Some []
      end
  | c :: t =>
      if Ascii.eqb c "_" then
        match before with
        | Some b => if is_digit b then drop_underscores (Some c) t else None
        | None => None
        end
      else
        let after_underscore :=
          match before with
          | Some b => Ascii.eqb b "_"
          | None => false
          end in
        if after_underscore && negb (is_digit c) then None
        else cons c <$> drop_underscores (Some c) t
  end.

Definition eqb_word (w : string) (s : list ascii) : bool :=
  String.eqb (PyStr.of_list (map Chars.lower s)) w.

(** An optional sign in front of a numeral. *)
Definition split_sign (l : list ascii) : bool * list ascii :=
  match l with
  | c :: u =>
      if Ascii.eqb c "-" then (true, u)
      else if Ascii.eqb c "+" then (false, u)
      else (false, l)
  | [] => (false, [])
  end.

(** The optional exponent part: [e], an optional sign, digits. *)
Definition parse_exponent (s : list ascii) : option Z :=
  match s with
  | [] => Some 0
  | c :: t =>
      if eqb_nocase c "e" then
        let '(neg, t') := split_sign t in
        match span_digits t' with
        | (d :: ds, []) =>
            let v := Z.of_N (digits_val (d :: ds)) in
            Some (if neg then - v else v)
        | _ => None
        end
      else None
  end.

(** The digits after a point, and what follows them. *)
Definition fraction_part (s : list ascii) : list ascii * list ascii :=
  match s with
  | c :: u => if Ascii.eqb c "." then span_digits u else ([], s)
  | [] => ([], [])
  end.

(** The white space [float()] skips around a numeral: the white space
    of C (tab to carriage return, and the blank), and the code points
    above 127 that are Unicode white space, which it first turns into
    blanks.  U+001C to U+001F, which [str.strip] removes, are not
    skipped. *)
Definition is_float_space (c : ascii) : bool :=
  in_range 9 13 c || (code c =? 32)%N || (code c =? 133)%N || (code c =? 160)%N.

Fixpoint skip_space (s : list ascii) : list ascii :=
  match s with
  | c :: t => if is_float_space c then skip_space t else s
  | [] => []
  end.

Definition strip_space (l : list ascii) : list ascii :=
  rev (skip_space (rev (skip_space l))).

(** [float(s)] for a string: white space around it, an optional sign,
    then [inf], [infinity], [nan], or a decimal numeral with optional
    fraction and exponent; the result is correctly rounded. *)
Definition of_string (s : string) : result spec_float :=
  match drop_underscores None (strip_space (PyStr.to_list s)) with
  | None => Raise ValueError
  | Some l =>
      let '(neg, body) := split_sign l in
      if eqb_word "inf" body || eqb_word "infinity" body
      then Ok (S754_infinity neg)
      else if eqb_word "nan" body then Ok S754_nan
      else
        let '(ip, r1) := span_digits body in
        let '(fp, r2) := fraction_part r1 in
        match ip ++ fp with
        | [] => Raise ValueError
        | ds =>
            match parse_exponent r2 with
            | None => Raise ValueError
            | Some e =>
                Ok (of_decimal neg (digits_val ds) (e - Z.of_nat (length fp)))
            end
        end
  end.

Definition digit_char (d : N) : ascii := ascii_of_N (48 + d).

(** Decimal digits of [n], most significant first; [fuel] bounds the
    number of digits. *)
Fixpoint digits_of (fuel : nat) (n : N) (acc : list ascii) : list ascii :=
  match fuel with
  | O => acc
  | S fuel' =>
      let acc' := digit_char (n mod 10) :: acc in
      if (n <? 10)%N then acc' else digits_of fuel' (n / 10) acc'
  end.

Definition string_of_N (n : N) : string :=
  PyStr.of_list (digits_of (S (N.size_nat n)) n []).

(** The integer nearest to [m * 2 ^ e * 100], ties to even. *)
Definition to_cents (m : positive) (e : Z) : N :=
  let n := 100 * Z.pos m in
  if 0 <=? e then Z.to_N (n * 2 ^ e)
  else
    let d := 2 ^ (- e) in
    let q := n / d in
    let r := n mod d in
    Z.to_N (match Z.compare (2 * r) d with
            | Lt => q
            | Gt => q + 1
            | Eq => if Z.even q then q else q + 1
            end).

Definition two_digits (n : N) : string :=
  (string_of_N (n / 10) ++ string_of_N (n mod 10))%string.

Definition cents_to_string (c : N) : string :=
  (string_of_N (c / 100) ++ "." ++ two_digits (c mod 100))%string.

Definition sign_string (neg : bool) : string :=
  if neg then "-"%string else EmptyString.

(** [f'{x:.2f}'] *)
Definition format_2f (x : spec_float) : string :=
  match x with
  | S754_zero s => (sign_string s ++ "0.00")%string
  | S754_infinity s => (sign_string s ++ "inf")%string
  | S754_nan => "nan"%string
  | S754_finite s m e => (sign_string s ++ cents_to_string (to_cents m e))%string
  end.

(** Truth value of a float: non-zero. *)
Definition truthy (x : spec_float) : bool :=
  match x with
  | S754_zero _ => false
  | _ => true
  end.

End PyFloat.

(** ** Python values as [json.loads] produces them *)

Inductive json : Type :=
| JNull                               (* None *)
| JBool (b : bool)
| JInt (n : Z)
| JFloat (f : spec_float)
| JStr (s : string)
| JArr (l : list json)
| JObj (kv : list (string * json)).   (* a dict, in insertion order *)

Module Py.

(** Truth value, as [if v:] and [not v] take it. *)
Definition truthy (v : json) : bool :=
  match v with
  | JNull => false
  | JBool b => b
  | JInt n => negb (n =? 0)
  | JFloat f => PyFloat.truthy f
  | JStr s => PyStr.truthy s
  | JArr l => match l with [] => false | _ => true end
  | JObj kv => match kv with [] => false | _ => true end
  end.

(** The value a dict holds for a key: of several bindings of one key
    the last one, as [json.loads] keeps it. *)
Fixpoint obj_lookup (key : string) (kv : list (string * json)) : option json :=
  match kv with
  | [] => None
  | (k, v) :: kv' =>
      match obj_lookup key kv' with
      | Some v' => Some v'
      | None => if String.eqb k key then Some v else None
      end
  end.

Definition is_str (key : string) (v : json) : bool :=
  match v with
  | JStr s => String.eqb s key
  | _ => false
  end.

(** [key in v]: a key of a dict, an element of a list, a substring of
    a string; TypeError for a value that is not a container. *)
Definition contains (key : string) (v : json) : result bool :=
  match v with
  | JObj kv => Ok (bool_decide (is_Some (obj_lookup key kv)))
  | JArr l => Ok (existsb (is_str key) l)
  | JStr s => Ok (PyStr.contains key s)
  | _ => Raise TypeError
  end.

(** [v[key]] for a string key. *)
Definition getitem (v : json) (key : string) : result json :=
  match v with
  | JObj kv =>
      match obj_lookup key kv with
      | Some x => Ok x
      | None => Raise KeyError
      end
  | _ => Raise TypeError
  end.

(** [v.get(key)]: only a dict has the method. *)
Definition get (v : json) (key : string) : result json :=
  match v with
  | JObj kv => Ok (default JNull (obj_lookup key kv))
  | _ => Raise AttributeError
  end.

Fixpoint keys_once (seen : list string) (kv : list (string * json)) : list string :=
  match kv with
  | [] => []
  | (k, _) :: kv' =>
      if existsb (String.eqb k) seen then keys_once seen kv'
      else k :: keys_once (k :: seen) kv'
  end.

(** [for x in v]: the elements of a list, the keys of a dict, the
    characters of a string. *)
Definition iterate (v : json) : result (list json) :=
  match v with
  | JArr l => Ok l
  | JObj kv => Ok (map JStr (keys_once [] kv))
  | JStr s => Ok (map (fun c => JStr (String c EmptyString)) (PyStr.to_list s))
  | _ => Raise TypeError
  end.

(** [float(v)] *)
Definition to_float (v : json) : result spec_float :=
  match v with
  | JBool b => Ok (if b then PyFloat.of_decimal false 1 0 else S754_zero false)
  | JInt n => PyFloat.of_int n
  | JFloat f => Ok f
  | JStr s => PyFloat.of_string s
  | _ => Raise TypeError
  end.

(** [isinstance(v, (int, float))]; a bool is an int. *)
Definition is_number (v : json) : bool :=
  match v with
  | JBool _ | JInt _ | JFloat _ => true
  | _ => false
  end.

End Py.

(** ** The parsed document and the world outside

    A [page] holds, for an lxml tree, the result of each XPath query
    the scraper makes on it. *)

(** An [<option>] element. *)
Record option_el : Type := OptionEl {
  opt_text : option string;           (* option.text *)
  opt_value : option string;          (* option.get('value') *)
  opt_data_price : option string      (* option.get('data-price') *)
}.

(** A radio [<input>] with its first following or enclosing label. *)
Record radio_el : Type := RadioEl {
  radio_label : option string;        (* label.text_content(), if a label exists *)
  radio_data_price : option string;
  radio_data_price_diff : option string;
  radio_data_calcprice : option string
}.

Record table_el : Type := TableEl {
  table_headers : list string;        (* .//th//text() | .//td[1]//text() *)
  table_rows : list (list string)     (* .//td//text() of each .//tr[position()>1] *)
}.

(** An element with a text node, and the [.text] of the elements the
    proximity strategy looks at around it. *)
Record text_el : Type := TextEl {
  el_text : option string;
  el_following : list (option string); (* .//following-sibling::*[position()<=3]//*[text()] *)
  el_parent : list (option string)     (* .//parent::*//*[text()] *)
}.

Record page : Type := Page {
  (* //select[contains(@class, "select-Size")]//option
     | //select[contains(@name, "size")]//option *)
  size_select_options : list option_el;
  (* //select[contains(@name, "dwvar_")]//option *)
  dwvar_select_options : list option_el;
  (* //span[contains(@class, "price")]//text() | //div[contains(@class, "sales")]//text() *)
  price_texts : list string;
  (* //input[@type="radio" and (contains(@name, "size") or contains(@name, "option"))] *)
  radio_inputs : list radio_el;
  (* text_content() of the .//li | .//label of each option list *)
  option_lists : list (list string);
  (* //script[@type="application/ld+json"]//text() *)
  json_ld_texts : list string;
  (* //table *)
  tables : list table_el;
  (* //*[text()] *)
  text_elements : list text_el;
  (* the four name selectors, in order *)
  name_texts : list (list string);
  (* //text() *)
  all_texts : list string;
  (* //a/@href *)
  hrefs : list string
}.

Record response : Type := Response {
  status_ok : bool;                   (* raise_for_status() passes *)
  resp_text : string;                 (* response.text *)
  resp_json : option json;            (* response.json(), None when it raises *)
  resp_tree : option page             (* html.fromstring(response.content), None when it raises *)
}.

Record World : Type := {
  (* session.get(url, headers=...): None when a RequestException is raised *)
  session_get : string -> list (string * string) -> option response;
  (* json.loads: None for JSONDecodeError *)
  json_loads : string -> option json;
  (* urljoin(base, url): None when it raises ValueError *)
  urljoin : string -> string -> option string;
  (* str(v) for a value that is not a string *)
  py_repr : json -> string
}.

Definition py_str (w : World) (v : json) : string :=
  match v with
  | JStr s => s
  | _ => py_repr w v
  end.

(** ** The patterns of [src/app.py] *)

Module Patterns.
Import Chars Re.
Local Open Scope string_scope.
Local Open Scope char_scope.

Definition Upper : regex := Cls is_upper.                     (* [A-Z] *)
Definition UpperDigit : regex :=                              (* [A-Z0-9] *)
  Cls (fun c => is_upper c || is_digit c).
Definition DigitComma : regex :=                              (* [\d,] *)
  Cls (fun c => is_digit c || Ascii.eqb "," c).
Definition Digit2 : regex := Cat Digit Digit.                 (* \d{2} *)

(** [is_product_url]: the exclusions, searched under [re.IGNORECASE]:
    _ep_\d+\.html   Service-   Formulas   /search\?   consultation
    customization *)
Definition exclude_patterns : list regex :=
  [ Seq [LitI "_ep_"; Plus Digit; LitI ".html"];
    LitI "Service-";
    LitI "Formulas";
    LitI "/search?";
    LitI "consultation";
    LitI "customization" ].

(** [A-Z]{3,4}-[A-Z0-9]+-\d+\.html *)
Definition product_code : regex :=
  Seq [Upper; Upper; Upper; Opt Upper; Chr "-"; Plus UpperDigit; Chr "-";
       Plus Digit; Lit ".html"].

(** The product patterns, searched case-sensitively: the one above,
    and the same after a slash. *)
Definition product_patterns : list regex :=
  [ product_code; Cat (Chr "/") product_code ].

(** [\d,]+(?:\.\d{2})?   and   [\d,]+\.\d{2} *)
Definition amount_opt_cents : regex :=
  Cat (Plus DigitComma) (Opt (Cat (Chr ".") Digit2)).
Definition amount_cents : regex :=
  Seq [Plus DigitComma; Chr "."; Digit2].

(** ([\d,]+(?:\.\d{2})?) : a data-price attribute *)
Definition data_price_re : regex := Grp amount_opt_cents.
(** \$([\d,]+(?:\.\d{2})?) : a price in a text *)
Definition dollar_re : regex := Cat (Chr "$") (Grp amount_opt_cents).
(** \$([\d,]+\.\d{2}) : a price with cents *)
Definition dollar_cents_re : regex := Cat (Chr "$") (Grp amount_cents).
(** \(\+\s*\$([\d,]+\.\d{2})\) : a price delta in an option text *)
Definition delta_re : regex :=
  Seq [Chr "("; Chr "+"; Star Space; Chr "$"; Grp amount_cents; Chr ")"].
(** \[\+?\$([\d,]+(?:\.\d{2})?)\] : a bracketed price *)
Definition bracket_re : regex :=
  Seq [Chr "["; Opt (Chr "+"); Chr "$"; Grp amount_opt_cents; Chr "]"].
(** ([\d,]+\.\d{2}) : a price held as a string in inline JSON *)
Definition cents_re : regex := Grp amount_cents.

(** \b \d+ (?:\.\d+)? \s* (?:fl\s* )? (?:oz|g|ml|kg|lb|gram|liter|L) \b
    under [re.IGNORECASE] (the blanks are not part of the pattern) *)
Definition size_pattern : regex :=
  Seq [WordB; Plus Digit; Opt (Cat (Chr ".") (Plus Digit)); Star Space;
       Opt (Cat (LitI "fl") (Star Space));
       Alts [LitI "oz"; LitI "g"; LitI "ml"; LitI "kg"; LitI "lb";
             LitI "gram"; LitI "liter"; LitI "L"];
       WordB].

(** \s+ *)
Definition spaces_re : regex := Plus Space.

Definition Quoted (s : string) : regex := Seq [Chr dquote; Lit s; Chr dquote].
Definition QuotedI (s : string) : regex := Seq [Chr dquote; LitI s; Chr dquote].

(** q<key>q[^}]*qformattedq\s*:\s*q([^q]+)q   where q is the double
    quote *)
Definition formatted_after (key : string) : regex :=
  Seq [Quoted key; Star (NotChr "}"); Quoted "formatted"; Star Space;
       Chr ":"; Star Space; Chr dquote; Grp (Plus (NotChr dquote)); Chr dquote].

(** [call_product_variation_api]: the fall-back patterns, in order:
    the two above for price and sales, \$([\d,]+(?:\.\d{2})?), and
    qvalueq\s*:\s*([\d,]+(?:\.\d{2})?) *)
Definition price_patterns : list regex :=
  [ formatted_after "price";
    formatted_after "sales";
    dollar_re;
    Seq [Quoted "value"; Star Space; Chr ":"; Star Space; Grp amount_opt_cents] ].

(** [extract_variants_from_inline_json], under DOTALL and IGNORECASE:
    var\s+product\s*=\s*(\{.+?\});      window\.product\s*=\s*(\{.+?\});
    qvariantsq\s*:\s*(\[.+?\])             qoptionsq\s*:\s*(\[.+?\])
    where q is the double quote *)
Definition braces : regex := Grp (Seq [Chr "{"; LazyPlus AnyChar; Chr "}"]).
Definition brackets : regex := Grp (Seq [Chr "["; LazyPlus AnyChar; Chr "]"]).
Definition inline_patterns : list regex :=
  [ Seq [LitI "var"; Plus Space; LitI "product"; Star Space; Chr "=";
         Star Space; braces; Chr ";"];
    Seq [LitI "window.product"; Star Space; Chr "="; Star Space; braces; Chr ";"];
    Seq [QuotedI "variants"; Star Space; Chr ":"; Star Space; brackets];
    Seq [QuotedI "options"; Star Space; Chr ":"; Star Space; brackets] ].

(** The text-mining fall-back, under [re.IGNORECASE]:
    \b\d+\.?\d*\s*(<units>)\b for six families of units. *)
Definition bare_size (units : list regex) : regex :=
  Seq [WordB; Plus Digit; Opt (Chr "."); Star Digit; Star Space;
       Grp (Alts units); WordB].

Definition size_patterns : list regex :=
  [ bare_size [LitI "oz"; LitI "ounce"; LitI "ounces"];
    bare_size [LitI "g"; LitI "gram"; LitI "grams"];
    bare_size [LitI "ml"; LitI "milliliter"; LitI "milliliters"];
    bare_size [LitI "kg"; LitI "kilogram"; LitI "kilograms"];
    bare_size [LitI "lb"; LitI "pound"; LitI "pounds"];
    bare_size [Seq [LitI "fl"; Star Space; LitI "oz"];
               Seq [LitI "fluid"; Star Space; LitI "ounce"]] ].

End Patterns.

(** ** The scraper *)

Module Scraper.
Import Re Patterns.
Local Open Scope string_scope.

Definition base_url : string := "https://makingcosmetics.com".

(** *** [is_product_url] *)

Definition excluded (url : string) : bool :=
  existsb (fun pattern => matches pattern url) exclude_patterns.

Definition is_product_url (url : string) : bool :=
  if PyStr.is_empty url then false
  else if excluded url then false
  else existsb (fun pattern => matches pattern url) product_patterns.

(** [m.group(1)] as a string.  In every pattern searched below the
    group is part of each match. *)
Definition group1_of (m : rmatch) : string :=
  default EmptyString (group1_str m).

Definition dollars (x : spec_float) : string := "$" ++ PyFloat.format_2f x.

(** [float(s.replace(',', ''))] *)
Definition float_without_commas (s : string) : result spec_float :=
  PyFloat.of_string (PyStr.remove_char "," s).

(** *** [call_product_variation_api] *)

Definition api_headers : list (string * string) :=
  [ ("Accept", "application/json, text/html, */*");
    ("X-Requested-With", "XMLHttpRequest");
    ("Referer", base_url) ].

(** Lines 232-237: [product.price.sales.formatted] of the JSON body,
    when all four keys are there. *)
Definition formatted_sales_price (json_data : json) : result (option json) :=
  has_product <-! Py.contains "product" json_data;;
  if negb has_product then Ok None else
  product <-! Py.getitem json_data "product";;
  has_price <-! Py.contains "price" product;;
  if negb has_price then Ok None else
  price_data <-! Py.getitem product "price";;
  has_sales <-! Py.contains "sales" price_data;;
  if negb has_sales then Ok None else
  sales <-! Py.getitem price_data "sales";;
  has_formatted <-! Py.contains "formatted" sales;;
  if negb has_formatted then Ok None else
  formatted <-! Py.getitem sales "formatted";;
  Ok (Some formatted).

(** Lines 249-259: the first pattern that matches decides, unless its
    group holds no dollar sign and is not a number. *)
Fixpoint price_by_patterns (patterns : list regex) (text : string) : json :=
  match patterns with
  | [] => JNull
  | pattern :: patterns' =>
      match search pattern text with
      | Some m =>
          let price_str := group1_of m in
          if negb (PyStr.contains "$" price_str) then
            match float_without_commas price_str with
            | Ok price_val => JStr (dollars price_val)
            | Raise _ => price_by_patterns patterns' text
            end
          else JStr price_str
      | None => price_by_patterns patterns' text
      end
  end.

(** The value returned is a price string, whatever the JSON body holds
    as [formatted], or [JNull] for [None].  The error [response.json()]
    raises on a body that is not JSON is a [json.JSONDecodeError], which
    line 238 catches; any other error ends in the handlers of lines
    261-264. *)
Definition call_product_variation_api (w : World) (variation_url : string) : json :=
  match urljoin w base_url variation_url ≫= (λ absolute_url,
          session_get w absolute_url api_headers) with
  | None => JNull
  | Some response =>
      if negb (status_ok response) then JNull
      else if PyStr.is_empty (resp_text response) then JNull
      else
        let from_json :=
          match resp_json response with
          | None => Raise JSONDecodeError
          | Some json_data => formatted_sales_price json_data
          end in
        match from_json with
        | Ok (Some formatted) => formatted
        | Ok None | Raise JSONDecodeError | Raise KeyError =>
            price_by_patterns price_patterns (resp_text response)
        | Raise _ => JNull
        end
  end.

(** *** Variants, and the list a strategy appends them to *)

Record variant : Type := MkVariant {
  size : string;
  price : json;                     (* a price, or [JNull] for None *)
  source : string
}.

(** A strategy appends to its list [variants] and may raise; what it
    has appended stays when it does. *)
Definition M (A : Type) : Type := list variant -> list variant * result A.

Definition ret {A : Type} (a : A) : M A := fun vs => (vs, Ok a).

Definition bind {A B : Type} (m : M A) (k : A -> M B) : M B :=
  fun vs =>
    let '(vs', r) := m vs in
    match r with
    | Ok a => k a vs'
    | Raise e => (vs', Raise e)
    end.

Definition lift {A : Type} (r : result A) : M A := fun vs => (vs, r).

(** [variants.append(v)] *)
Definition append (v : variant) : M unit := fun vs => ((vs ++ [v])%list, Ok tt).

Notation "x <- c ;;; k" := (bind c (fun x => k))
  (at level 100, c at next level, right associativity).
Notation "c ;;; k" := (bind c (fun _ => k))
  (at level 100, right associativity).

(** [for x in xs: body] *)
Fixpoint for_each {A : Type} (body : A -> M unit) (xs : list A) : M unit :=
  match xs with
  | [] => ret tt
  | x :: xs' => body x ;;; for_each body xs'
  end.

(** [try: m  except json.JSONDecodeError: continue] *)
Definition except_json_decode (m : M unit) : M unit :=
  fun vs =>
    match m vs with
    | (vs', Raise JSONDecodeError) => (vs', Ok tt)
    | other => other
    end.

(** [try: m  except Exception: log], starting from the list [vs]. *)
Definition run_block (m : M unit) (vs : list variant) : list variant :=
  fst (m vs).

(** The size found in a text, as all strategies but the select
    options take it:
    [re.sub(r'\s+', ' ', size_matches[0].strip()) if size_matches else None] *)
Definition first_size (text : string) : option string :=
  match findall0 size_pattern text with
  | m :: _ => Some (ReSub.sub spaces_re " " (PyStr.strip m))
  | [] => None
  end.

(** [if size:] *)
Definition size_truthy (size : option string) : option string :=
  match size with
  | Some s => if PyStr.truthy s then Some s else None
  | None => None
  end.

(** Lines 335-339 and their copies: the price a match of a dollar
    pattern stands for. *)
Definition price_of_dollar_match (m : rmatch) : result json :=
  let price_str := PyStr.remove_char "," (group1_of m) in
  price_val <-! (if PyStr.contains "." price_str
                 then PyFloat.of_string price_str
                 else PyFloat.of_string (price_str ++ ".00"));;
  Ok (JStr (dollars price_val)).

(** Lines 319-322 and their copies: the price of a data attribute. *)
Definition price_of_attribute (data_price : string) (otherwise : json) : result json :=
  match search data_price_re data_price with
  | Some m =>
      price_val <-! float_without_commas (group1_of m);;
      Ok (JStr (dollars price_val))
  | None => Ok otherwise
  end.

(** Lines 569-570 and their copies: a price with cents in a text. *)
Definition price_with_cents (text : string) : result (option json) :=
  match search dollar_cents_re text with
  | Some m =>
      price_val <-! float_without_commas (group1_of m);;
      Ok (Some (JStr (dollars price_val)))
  | None => Ok None
  end.

Definition attr_truthy (a : option string) : bool :=
  match a with
  | Some s => PyStr.truthy s
  | None => false
  end.

(** [a or b] on attribute values *)
Definition attr_or (a b : option string) : option string :=
  if attr_truthy a then a else b.

(** *** [extract_variants_from_options] *)

(** Lines 277-285 *)
Fixpoint find_base_price (base_price_elem : list string) : result (option spec_float) :=
  match base_price_elem with
  | [] => Ok None
  | price_text :: more =>
      match search dollar_cents_re price_text with
      | Some price_match =>
          base_price <-! float_without_commas (group1_of price_match);;
          Ok (Some base_price)
      | None => find_base_price more
      end
  end.

Definition base_truthy (base_price : option spec_float) : bool :=
  match base_price with
  | Some x => PyFloat.truthy x
  | None => false
  end.

Definition placeholders : list string :=
  ["Choose Options"; "Select Option"; "Select Size"; ""].

Definition unit_words : list string := ["oz"; "ml"; "g"; "kg"; "lb"].

(** [variation_url and 'Product-Variation' in variation_url] *)
Definition is_variation_url (variation_url : option string) : bool :=
  match variation_url with
  | Some u => PyStr.truthy u && PyStr.contains "Product-Variation" u
  | None => false
  end.

(** Lines 292-301 *)
Definition option_size (option_text : string) : option string :=
  match findall0 size_pattern option_text with
  | _ :: _ => Some (PyStr.strip option_text)
  | [] =>
      if existsb (fun unit => PyStr.contains unit (PyStr.lower option_text)) unit_words
      then Some (PyStr.strip option_text)
      else None
  end.

(** Method 1, lines 309-311 *)
Definition price_method1 (w : World) (variation_url : option string) : json :=
  if is_variation_url variation_url
  then call_product_variation_api w (default "" variation_url)
  else JNull.

(** Method 2, lines 316-322 *)
Definition price_method2 (option : option_el) (option_price : json) : result json :=
  if negb (Py.truthy option_price) then
    match opt_data_price option with
    | Some data_price =>
        if PyStr.truthy data_price
        then price_of_attribute data_price option_price
        else Ok option_price
    | None => Ok option_price
    end
  else Ok option_price.

(** Method 3, lines 325-331 *)
Definition price_method3 (base_price : option spec_float) (option_text : string)
           (option_price : json) : result json :=
  if negb (Py.truthy option_price) && base_truthy base_price then
    match base_price with
    | Some base =>
        match search delta_re option_text with
        | Some delta_match =>
            delta <-! float_without_commas (group1_of delta_match);;
            Ok (JStr (dollars (PyFloat.add base delta)))
        | None =>
            if negb (PyStr.contains "(" option_text)
            then Ok (JStr (dollars base))
            else Ok option_price
        end
    | None => Ok option_price
    end
  else Ok option_price.

(** Method 4, lines 334-339 *)
Definition price_method4 (option_text : string) (option_price : json) : result json :=
  if negb (Py.truthy option_price) then
    match search dollar_re option_text with
    | Some price_match => price_of_dollar_match price_match
    | None => Ok option_price
    end
  else Ok option_price.

(** Lines 287-346: one round of the loop over the options. *)
Definition select_option (w : World) (base_price : option spec_float)
           (option : option_el) : M unit :=
  let option_text := PyStr.strip (default "" (opt_text option)) in
  if PyStr.is_empty option_text || existsb (String.eqb option_text) placeholders
  then ret tt
  else
    match size_truthy (option_size option_text) with
    | None => ret tt
    | Some size =>
        let variation_url := opt_value option in
        let option_price := price_method1 w variation_url in
        option_price <- lift (price_method2 option option_price);;;
        option_price <- lift (price_method3 base_price option_text option_price);;;
        option_price <- lift (price_method4 option_text option_price);;;
        append (MkVariant size option_price
                  (if is_variation_url variation_url
                   then "dynamic_api" else "option_data"))
    end.

(** Lines 271-349 *)
Definition select_options (w : World) (tree : page) : M unit :=
  let options :=
    match size_select_options tree with
    | [] => dwvar_select_options tree
    | found => found
    end in
  base_price <- lift (find_base_price (price_texts tree));;;
  for_each (select_option w base_price) options.

(** Lines 355-388: one radio input. *)
Definition radio_option (radio : radio_el) : M unit :=
  match radio_label radio with
  | None => ret tt
  | Some content =>
      let label_text := PyStr.strip content in
      let size := first_size label_text in
      let price := JNull in
      let data_price :=
        attr_or (radio_data_price radio)
          (attr_or (radio_data_price_diff radio) (radio_data_calcprice radio)) in
      price <- lift (if attr_truthy data_price
                     then price_of_attribute (default "" data_price) price
                     else Ok price);;;
      price <- lift (if negb (Py.truthy price) then
                       match search dollar_re label_text with
                       | Some price_match => price_of_dollar_match price_match
                       | None => Ok price
                       end
                     else Ok price);;;
      match size_truthy size with
      | Some size => append (MkVariant size price "radio_option")
      | None => ret tt
      end
  end.

(** Lines 394-424: one entry of an option list. *)
Definition list_option (content : string) : M unit :=
  let li_text := PyStr.strip content in
  let size := first_size li_text in
  let price := JNull in
  price <- lift (match search dollar_re li_text with
                 | Some price_match => price_of_dollar_match price_match
                 | None => Ok price
                 end);;;
  price <- lift (if negb (Py.truthy price) then
                   match search bracket_re li_text with
                   | Some bracket_match => price_of_dollar_match bracket_match
                   | None => Ok price
                   end
                 else Ok price);;;
  match size_truthy size with
  | Some size => append (MkVariant size price "ul_option")
  | None => ret tt
  end.

(** Lines 352-427 *)
Definition radio_and_list_options (tree : page) : M unit :=
  for_each radio_option (radio_inputs tree) ;;;
  for_each (for_each list_option) (option_lists tree).

Definition extract_variants_from_options (w : World) (tree : page) : list variant :=
  let variants := [] in
  let variants := run_block (select_options w tree) variants in
  let variants := run_block (radio_and_list_options tree) variants in
  variants.

(** *** [extract_variants_from_json_ld] *)

(** [json.loads(text)] *)
Definition loads (w : World) (text : string) : result json :=
  match json_loads w text with
  | Some v => Ok v
  | None => Raise JSONDecodeError
  end.

(** [v if isinstance(v, list) else [v]] *)
Definition as_list (v : json) : list json :=
  match v with
  | JArr l => l
  | other => [other]
  end.

(** Lines 450-457: the first of the fields that holds a size.
    [re.findall] raises TypeError on a value that is not a string. *)
Fixpoint offer_size (offer : json) (fields : list string) : result (option string) :=
  match fields with
  | [] => Ok None
  | field :: more =>
      present <-! Py.contains field offer;;
      if present then
        value <-! Py.getitem offer field;;
        match value with
        | JStr text =>
            match first_size text with
            | Some size => Ok (Some size)
            | None => offer_size offer more
            end
        | _ => Raise TypeError
        end
      else offer_size offer more
  end.

(** Lines 448-466 *)
Definition json_ld_offer (offer : json) : M unit :=
  size <- lift (offer_size offer ["description"; "name"; "sku"]);;;
  price <- lift (Py.get offer "price");;;
  match size_truthy size with
  | Some size =>
      if Py.truthy price then
        price_val <- lift (Py.to_float price);;;
        append (MkVariant size (JStr (dollars price_val)) "json_ld")
      else ret tt
  | None => ret tt
  end.

(** Lines 442-466 *)
Definition json_ld_item (item : json) : M unit :=
  type <- lift (Py.get item "@type");;;
  if Py.is_str "Product" type then
    has_offers <- lift (Py.contains "offers" item);;;
    if has_offers then
      offers <- lift (Py.getitem item "offers");;;
      for_each json_ld_offer (as_list offers)
    else ret tt
  else ret tt.

(** Lines 437-468 *)
Definition json_ld_script (w : World) (script_content : string) : M unit :=
  except_json_decode
    (json_data <- lift (loads w script_content);;;
     for_each json_ld_item (as_list json_data)).

Definition extract_variants_from_json_ld (w : World) (tree : page) : list variant :=
  run_block (for_each (json_ld_script w) (json_ld_texts tree)) [].

(** *** [extract_variants_from_inline_json] *)

(** Lines 508-514; the field is passed through [str()]. *)
Fixpoint variant_size (w : World) (variant_data : json) (fields : list string)
  : result (option string) :=
  match fields with
  | [] => Ok None
  | field :: more =>
      present <-! Py.contains field variant_data;;
      if present then
        value <-! Py.getitem variant_data field;;
        match first_size (py_str w value) with
        | Some size => Ok (Some size)
        | None => variant_size w variant_data more
        end
      else variant_size w variant_data more
  end.

(** Lines 517-527 *)
Fixpoint variant_price (variant_data : json) (fields : list string) : result json :=
  match fields with
  | [] => Ok JNull
  | field :: more =>
      present <-! Py.contains field variant_data;;
      if present then
        price_val <-! Py.getitem variant_data field;;
        if Py.is_number price_val then
          x <-! Py.to_float price_val;;
          Ok (JStr (dollars x))
        else
          match price_val with
          | JStr text =>
              match search cents_re text with
              | Some price_match =>
                  x <-! float_without_commas (group1_of price_match);;
                  Ok (JStr (dollars x))
              | None => variant_price variant_data more
              end
          | _ => variant_price variant_data more
          end
      else variant_price variant_data more
  end.

(** Lines 503-535 *)
Definition inline_variant (w : World) (variant_data : json) : M unit :=
  size <- lift (variant_size w variant_data
                  ["title"; "name"; "option1"; "option2"; "size"]);;;
  price <- lift (variant_price variant_data ["price"; "price_min"; "price_max"]);;;
  match size_truthy size with
  | Some size =>
      if Py.truthy price
      then append (MkVariant size price "inline_json")
      else ret tt
  | None => ret tt
  end.

(** Lines 494-501: where the variants are; [None] stands for the
    [continue] of the last branch. *)
Definition variants_data_of (json_data : json) : result (option json) :=
  match json_data with
  | JArr _ => Ok (Some json_data)
  | _ =>
      has_variants <-! Py.contains "variants" json_data;;
      if has_variants then
        v <-! Py.getitem json_data "variants";; Ok (Some v)
      else
        has_options <-! Py.contains "options" json_data;;
        if has_options then
          v <-! Py.getitem json_data "options";; Ok (Some v)
        else Ok None
  end.

(** Lines 490-538 *)
Definition inline_match (w : World) (text : string) : M unit :=
  except_json_decode
    (json_data <- lift (loads w text);;;
     variants_data <- lift (variants_data_of json_data);;;
     match variants_data with
     | Some data =>
         entries <- lift (Py.iterate data);;;
         for_each (inline_variant w) entries
     | None => ret tt
     end).

Definition extract_variants_from_inline_json (w : World) (response_text : string)
  : list variant :=
  run_block
    (for_each (fun pattern =>
                 for_each (inline_match w) (findall1 pattern response_text))
              inline_patterns)
    [].

(** *** [extract_variants_from_tables] *)

(** Lines 558-578 *)
Definition table_row (cells : list string) : M unit :=
  match cells with
  | cell0 :: cell1 :: _ =>
      let size_text := PyStr.strip cell0 in
      let price_text := PyStr.strip cell1 in
      let size := first_size size_text in
      price <- lift (price_with_cents price_text);;;
      match size_truthy size, price with
      | Some size, Some price => append (MkVariant size price "table")
      | _, _ => ret tt
      end
  | _ => ret tt
  end.

(** Lines 552-578 *)
Definition table (t : table_el) : M unit :=
  let header_text := PyStr.lower (PyStr.join " " (table_headers t)) in
  if PyStr.contains "size" header_text && PyStr.contains "price" header_text
  then for_each table_row (table_rows t)
  else ret tt.

Definition extract_variants_from_tables (tree : page) : list variant :=
  run_block (for_each table (tables tree)) [].

(** *** [extract_variants_from_proximity] *)

(** Lines 607-612: the first price among the elements around. *)
Fixpoint nearby_price (search_elements : list (option string)) : result (option json) :=
  match search_elements with
  | [] => Ok None
  | search_elem :: more =>
      found <-! price_with_cents (default "" search_elem);;
      match found with
      | Some price => Ok (Some price)
      | None => nearby_price more
      end
  end.

(** Lines 592-621: the scan stops at the first element that gives a
    size and a price. *)
Fixpoint proximity_scan (elements : list text_el) : M unit :=
  match elements with
  | [] => ret tt
  | element :: more =>
      let text := default "" (el_text element) in
      match first_size text with
      | Some size =>
          let search_elements :=
            (el_following element ++ firstn 10 (el_parent element))%list in
          price <- lift (nearby_price search_elements);;;
          match size_truthy (Some size), price with
          | Some size, Some price => append (MkVariant size price "proximity")
          | _, _ => proximity_scan more
          end
      | None => proximity_scan more
      end
  end.

Definition extract_variants_from_proximity (tree : page) : list variant :=
  run_block (proximity_scan (text_elements tree)) [].

(** *** [scrape_product_details] *)

Record product : Type := Product {
  name : string;
  sizes : list string;
  prices : gmap string json;
  price_info : string;
  price_sources : list string
}.

Inductive strategy : Type :=
| Options | JsonLd | InlineJson | Tables | Proximity.

(** Lines 651-655: the first selector that finds text gives the name. *)
Fixpoint find_name (found : list (list string)) : string :=
  match found with
  | [] => ""
  | names :: more =>
      match names with
      | [] => find_name more
      | _ => PyStr.join " " (List.filter PyStr.truthy (map PyStr.strip names))
      end
  end.

Definition is_nil {A : Type} (l : list A) : bool :=
  match l with [] => true | _ => false end.

Definition mem (s : string) (l : list string) : bool :=
  existsb (String.eqb s) l.

(** Lines 657-682: the strategies in their order of priority; each
    one after the first is called only while [all_variants] is empty.
    The first component lists the strategies that were called. *)
Definition collect_variants (w : World) (response : response) (tree : page)
  : list strategy * list variant :=
  let called := [Options] in
  let all_variants := extract_variants_from_options w tree in
  let '(called, all_variants) :=
    if is_nil all_variants
    then ((called ++ [JsonLd])%list,
          (all_variants ++ extract_variants_from_json_ld w tree)%list)
    else (called, all_variants) in
  let '(called, all_variants) :=
    if is_nil all_variants
    then ((called ++ [InlineJson])%list,
          (all_variants
             ++ extract_variants_from_inline_json w (resp_text response))%list)
    else (called, all_variants) in
  let '(called, all_variants) :=
    if is_nil all_variants
    then ((called ++ [Tables])%list,
          (all_variants ++ extract_variants_from_tables tree)%list)
    else (called, all_variants) in
  let '(called, all_variants) :=
    if is_nil all_variants
    then ((called ++ [Proximity])%list,
          (all_variants ++ extract_variants_from_proximity tree)%list)
    else (called, all_variants) in
  (called, all_variants).

(** Lines 686-692: what one variant does to [product['sizes']],
    [product['prices']] and [sources_used]. *)
Definition add_size (sizes : list string) (v : variant) : list string :=
  if PyStr.truthy (size v) && negb (mem (size v) sizes)
  then (sizes ++ [size v])%list
  else sizes.

Definition add_price (prices : gmap string json) (v : variant) : gmap string json :=
  if Py.truthy (price v) then <[size v := price v]> prices else prices.

Definition add_source (sources_used : gset string) (v : variant) : gset string :=
  if Py.truthy (price v) then {[source v]} ∪ sources_used else sources_used.

Definition consolidate_sizes (all_variants : list variant) : list string :=
  fold_left add_size all_variants [].
Definition consolidate_prices (all_variants : list variant) : gmap string json :=
  fold_left add_price all_variants ∅.
Definition consolidate_sources (all_variants : list variant) : gset string :=
  fold_left add_source all_variants ∅.

(** The values of a set as a list: Python fixes no order, the model
    takes the one of [elements]. *)
Definition list_of_set (s : gset string) : list string := elements s.

Definition as_string (v : json) : option string :=
  match v with
  | JStr s => Some s
  | _ => None
  end.

(** Lines 697-699.  [set(...)] raises TypeError on a list or a dict,
    [join] on any value that is not a string. *)
Definition make_price_info (prices : gmap string json) : result string :=
  if bool_decide (prices = ∅) then Ok ""
  else
    match mapM as_string (snd <$> map_to_list prices) with
    | Some price_values =>
        Ok (PyStr.join " | " (list_of_set (list_to_set price_values)))
    | None => Raise TypeError
    end.

(** Lines 713-717: the sizes one pattern finds in the text. *)
Definition mine_pattern (all_text_content : string) (sizes : list string)
           (pattern : regex) : list string :=
  fold_left
    (fun sizes m =>
       let size_text := group0_str m in
       if PyStr.truthy size_text && negb (mem size_text sizes)
       then (sizes ++ [PyStr.strip size_text])%list
       else sizes)
    (finditer pattern all_text_content) sizes.

(** Lines 702-717 *)
Definition text_mining (tree : page) : list string :=
  let all_text_content := PyStr.join " " (all_texts tree) in
  fold_left (mine_pattern all_text_content) size_patterns [].

(** A product together with what was done to build it. *)
Record extraction : Type := Extraction {
  ex_product : product;
  ex_called : list strategy;        (* the strategies that were called *)
  ex_fallback : bool                (* whether the text was mined *)
}.

(** Lines 635-721, for a page that was fetched and parsed. *)
Definition extract (w : World) (response : response) (tree : page)
  : result extraction :=
  let name := find_name (name_texts tree) in
  let '(called, all_variants) := collect_variants w response tree in
  let sizes := consolidate_sizes all_variants in
  let prices := consolidate_prices all_variants in
  let price_sources := list_of_set (consolidate_sources all_variants) in
  price_info <-! make_price_info prices;;
  let fallback := is_nil sizes in
  let sizes := if fallback then text_mining tree else sizes in
  Ok (Extraction (Product name sizes prices price_info price_sources)
                 called fallback).

(** [session.get(url); raise_for_status(); html.fromstring(content)] *)
Definition fetch (w : World) (url : string) : option (response * page) :=
  response ← session_get w url [];
  if status_ok response
  then tree ← resp_tree response; Some (response, tree)
  else None.

Definition scrape_with_trace (w : World) (product_url : string) : option extraction :=
  match fetch w product_url with
  | Some (response, tree) =>
      match extract w response tree with
      | Ok e => Some e
      | Raise _ => None
      end
  | None => None
  end.

(** The product, or [None]. *)
Definition scrape_product_details (w : World) (product_url : string) : option product :=
  ex_product <$> scrape_with_trace w product_url.

(** *** [get_all_product_links] *)

Definition list_page_url : string :=
  "https://makingcosmetics.com/Ingredients-A-Z_ep_1.html?lang=default".

(** Lines 170-175; the loop ends when [urljoin] raises. *)
Fixpoint add_links (w : World) (all_links : list string) (product_links : gset string)
  : gset string :=
  match all_links with
  | [] => product_links
  | link :: more =>
      if PyStr.truthy link && is_product_url link then
        let normalized_link := PyStr.replace "?lang=default" "" link in
        match urljoin w base_url normalized_link with
        | Some full_url => add_links w more ({[full_url]} ∪ product_links)
        | None => product_links
        end
      else add_links w more product_links
  end.

Definition get_all_product_links (w : World) : list string :=
  match fetch w list_page_url with
  | Some (_, tree) => list_of_set (add_links w (hrefs tree) ∅)
  | None => []
  end.

(** *** [scrape_all_products] *)

(** The scraper object: of its attributes only [self.products]
    changes. *)
Record scraper : Type := Scraper { products : list product }.

(** [MakingCosmeticsScraper()] *)
Definition new_scraper : scraper := Scraper [].

(** Lines 740-741 *)
Definition apply_limit (limit : option Z) (product_links : list string) : list string :=
  match limit with
  | Some n => if (0 <? n)%Z then take (Z.to_nat n) product_links else product_links
  | None => product_links
  end.

(** Lines 747-751: one round of the loop. *)
Definition visit (w : World) (self : scraper) (product_url : string) : scraper :=
  match scrape_product_details w product_url with
  | Some product =>
      if PyStr.truthy (name product)
      then Scraper (products self ++ [product])%list
      else self
  | None => self
  end.

(** The scraper after the call and the list returned, which is
    [self.products] itself. *)
Definition scrape_all_products (w : World) (self : scraper) (limit : option Z)
  : scraper * list product :=
  let product_links := get_all_product_links w in
  let product_links := apply_limit limit product_links in
  let self := fold_left (visit w) product_links self in
  (self, products self).

End Scraper.

(** ** Notions the statements below are phrased with *)

Module Spec.
Import Re Patterns Scraper.
Local Open Scope string_scope.

Section Effects.
Context {A : Type}.
Variable P : variant -> Prop.

(** [m] keeps [P] true of every variant of the list. *)
Definition preserves (m : M A) : Prop :=
  forall vs, Forall P vs -> Forall P (fst (m vs)).

(** What [m] returns, when it does not raise, satisfies [Q]. *)
Definition returns (Q : A -> Prop) (m : M A) : Prop :=
  forall vs a, snd (m vs) = Ok a -> Q a.
End Effects.

(** The variant has a size, as [if size:] tests it. *)
Definition has_size (v : variant) : Prop := PyStr.truthy (size v) = true.

(** The variant carries a price, as [if variant['price']:] tests it. *)
Definition has_price (v : variant) : bool := Py.truthy (price v).

(** The five strategies, each run on its own. *)
Definition run_strategy (w : World) (response : response) (tree : page)
           (s : strategy) : list variant :=
  match s with
  | Options => extract_variants_from_options w tree
  | JsonLd => extract_variants_from_json_ld w tree
  | InlineJson => extract_variants_from_inline_json w (resp_text response)
  | Tables => extract_variants_from_tables tree
  | Proximity => extract_variants_from_proximity tree
  end.

Definition all_strategies : list strategy :=
  [Options; JsonLd; InlineJson; Tables; Proximity].

(** Whether the text-mining fall-back runs on a fetched page: it does
    not when the extractor raises before reaching it. *)
Definition fallback_runs (w : World) (response : response) (tree : page) : bool :=
  match extract w response tree with
  | Ok e => ex_fallback e
  | Raise _ => false
  end.

(** The distinct elements of a list, in the order in which each is seen
    first. *)
Fixpoint first_seen (l : list string) : list string :=
  match l with
  | [] => []
  | x :: l' => x :: List.filter (fun y => negb (String.eqb x y)) (first_seen l')
  end.

(** The sizes of the variants that have one, in the order of the list. *)
Definition sizes_of (vs : list variant) : list string :=
  List.filter PyStr.truthy (map size vs).

(** What the crawler keeps of a URL: the product, when there is one and
    it has a name. *)
Definition kept (w : World) (url : string) : option product :=
  match scrape_product_details w url with
  | Some p => if PyStr.truthy (name p) then Some p else None
  | None => None
  end.

(** The URLs one call of the crawler visits, in order. *)
Definition visited (w : World) (limit : option Z) : list string :=
  apply_limit limit (get_all_product_links w).

(** A price in the form the specification gives: a dollar sign, at
    least one digit, a point and exactly two digits. *)
Definition is_dollar_amount (s : string) : bool :=
  match PyStr.to_list s with
  | "$"%char :: amount =>
      let '(whole, fraction) := PyFloat.span_digits amount in
      negb (is_nil whole)
      && match fraction with
         | ["."%char; d1; d2] => Chars.is_digit d1 && Chars.is_digit d2
         | _ => false
         end
  | _ => false
  end.

(** A float that is zero or positive, and finite. *)
Definition nonneg_finite (x : spec_float) : bool :=
  match x with
  | S754_zero false | S754_finite false _ _ => true
  | _ => false
  end.

(** *** What a pattern matches, stated without the matcher

    [Matches r p u t]: the pattern [r] matches the text [u] when the
    character before it is [p] (none at the start of the string) and
    the text after it is [t].  The context only matters for [\b].
    A repetition is made of non-empty rounds. *)

Definition last_of (p : option ascii) (u : list ascii) : option ascii :=
  match last u with
  | Some c => Some c
  | None => p
  end.

Definition is_word_opt (c : option ascii) : bool :=
  match c with
  | Some c => Chars.is_word c
  | None => false
  end.

Inductive Matches : regex -> option ascii -> list ascii -> list ascii -> Prop :=
| M_Eps p t : Matches Eps p [] t
| M_Cls f c p t : f c = true -> Matches (Cls f) p [c] t
| M_Cat r1 r2 p u1 u2 t :
    Matches r1 p u1 (u2 ++ t) ->
    Matches r2 (last_of p u1) u2 t ->
    Matches (Cat r1 r2) p (u1 ++ u2) t
| M_AltL r1 r2 p u t : Matches r1 p u t -> Matches (Alt r1 r2) p u t
| M_AltR r1 r2 p u t : Matches r2 p u t -> Matches (Alt r1 r2) p u t
| M_StarNil r p t : Matches (Star r) p [] t
| M_StarCons r p u1 u2 t :
    u1 <> [] ->
    Matches r p u1 (u2 ++ t) ->
    Matches (Star r) (last_of p u1) u2 t ->
    Matches (Star r) p (u1 ++ u2) t
| M_LazyNil r p t : Matches (LazyStar r) p [] t
| M_LazyCons r p u1 u2 t :
    u1 <> [] ->
    Matches r p u1 (u2 ++ t) ->
    Matches (LazyStar r) (last_of p u1) u2 t ->
    Matches (LazyStar r) p (u1 ++ u2) t
| M_Grp r p u t : Matches r p u t -> Matches (Grp r) p u t
| M_WordB p t :
    xorb (is_word_opt p) (is_word_opt (head t)) = true ->
    Matches WordB p [] t.

(** The pattern matches somewhere in the string. *)
Definition found_in (r : regex) (s : string) : Prop :=
  exists pre u post,
    PyStr.to_list s = (pre ++ u ++ post)%list
    /\ Matches r (last_of None pre) u post.

(** Each way [step] finds from a state is a match of [r]: it reads a
    text [u] that [r] matches there. *)
Definition sound_step (step : mstate -> list mstate) (r : regex) : Prop :=
  forall st st', In st' (step st) ->
    exists u, rest st = (u ++ rest st')%list
              /\ prev st' = last_of (prev st) u
              /\ Matches r (prev st) u (rest st').

(** *** Product codes, in the words of the specification

    Three or four upper-case letters, a hyphen, an alphanumeric code
    (upper-case letters and digits), a hyphen, digits, and the
    extension, which [extension] recognises. *)
Definition all_of (f : ascii -> bool) (l : list ascii) : Prop :=
  Forall (fun c => f c = true) l.

Definition product_code_text (extension : list ascii -> Prop) (u : list ascii) : Prop :=
  exists letters code digits ext,
    u = (letters ++ "-"%char :: code ++ "-"%char :: digits ++ ext)%list
    /\ (length letters = 3%nat \/ length letters = 4%nat)
    /\ all_of Chars.is_upper letters
    /\ code <> [] /\ all_of (fun c => Chars.is_upper c || Chars.is_digit c) code
    /\ digits <> [] /\ all_of Chars.is_digit digits
    /\ extension ext.

(** The extension [.html], as written and in any case. *)
Definition html_exact (ext : list ascii) : Prop := ext = PyStr.to_list ".html".
Definition html_any_case (ext : list ascii) : Prop :=
  map Chars.lower ext = PyStr.to_list ".html".

(** The URL contains a product code. *)
Definition contains_product_code (extension : list ascii -> Prop) (url : string) : Prop :=
  exists pre u post,
    PyStr.to_list url = (pre ++ u ++ post)%list /\ product_code_text extension u.

(** *** Excluded URLs, in the words of the specification

    A paginated listing [_ep_<digits>.html], or one of the words
    Service-, Formulas, /search?, consultation, customization, in any
    case. *)
Definition same_nocase (l : list ascii) (s : string) : Prop :=
  map Chars.lower l = map Chars.lower (PyStr.to_list s).

Definition exclusion_text (u : list ascii) : Prop :=
  (exists a digits b,
      u = (a ++ digits ++ b)%list
      /\ same_nocase a "_ep_"
      /\ digits <> [] /\ all_of Chars.is_digit digits
      /\ same_nocase b ".html")
  \/ same_nocase u "Service-"
  \/ same_nocase u "Formulas"
  \/ same_nocase u "/search?"
  \/ same_nocase u "consultation"
  \/ same_nocase u "customization".

Definition contains_exclusion (url : string) : Prop :=
  exists pre u post,
    PyStr.to_list url = (pre ++ u ++ post)%list /\ exclusion_text u.

(** The classifier as the specification words it: exclusion first, then
    the product code with a case-insensitive extension. *)
Definition classifier_as_specified : Prop :=
  forall url,
    (contains_exclusion url -> is_product_url url = false)
    /\ (~ contains_exclusion url ->
        (is_product_url url = true <-> contains_product_code html_any_case url)).

(** *** Amounts *)

(** The characters of a captured amount, and those left once the commas
    are removed. *)
Definition amount_char (c : ascii) : bool :=
  Chars.is_digit c || Ascii.eqb "," c || Ascii.eqb "." c.

Definition plain_char (c : ascii) : bool :=
  Chars.is_digit c || Ascii.eqb "." c.

(** A float that is zero, positive, or plus infinity. *)
Definition nonneg_or_inf (x : spec_float) : Prop :=
  nonneg_finite x = true \/ x = S754_infinity false.

(** The patterns of the capturing groups of a pattern. *)
Fixpoint groups (r : regex) : list regex :=
  match r with
  | Grp r' => r' :: groups r'
  | Cat r1 r2 | Alt r1 r2 => groups r1 ++ groups r2
  | Star r' | LazyStar r' => groups r'
  | Eps | Cls _ | WordB => []
  end.

(** Group 1 holds [new] after a match that started with [old] in it:
    it was left alone, or it holds a text that a group matched. *)
Definition captured (gs : list regex) (old new : option (list ascii)) : Prop :=
  new = old
  \/ exists g u p t, In g gs /\ new = Some u /\ Matches g p u t.

(** Each way [step] finds leaves in group 1 what was there, or a text
    one of the groups [gs] matched. *)
Definition capturing_step (step : mstate -> list mstate) (gs : list regex) : Prop :=
  forall st st', In st' (step st) -> captured gs (grp1 st) (grp1 st').

End Spec.

(** ** Concrete pages and worlds *)

Module Examples.
Import Scraper.
Local Open Scope string_scope.

(** A page on which no XPath query finds anything. *)
Definition blank_page : page := Page [] [] [] [] [] [] [] [] [] [] [].

(** A world in which [url] answers with [response] and every other
    request fails; no text parses as JSON. *)
Definition serving (url : string) (response : response) : World :=
  {| session_get := fun u _ => if String.eqb u url then Some response else None;
     json_loads := fun _ => None;
     urljoin := fun base u => Some (base ++ u);
     py_repr := fun _ => "" |}.

Definition page_url : string := "https://makingcosmetics.com/ABC-DEF-01.html".

(** One select option with a price delta, a base price of $10.00. *)
Definition delta_option : option_el :=
  OptionEl (Some "1.0floz / 30ml (+$2.50)") None None.

Definition delta_page : page :=
  Page [delta_option] [] ["$10.00"] [] [] [] [] [] [["Argan Oil"]] [] [].

Definition delta_response : response := Response true "" None (Some delta_page).

Definition delta_world : World := serving page_url delta_response.

(** No strategy finds a variant; the text names two sizes. *)
Definition text_page : page :=
  Page [] [] [] [] [] [] [] [] [["Shea Butter"]] ["Available in 50g and 100g"] [].

Definition text_response : response := Response true "" None (Some text_page).

Definition text_world : World := serving page_url text_response.

(** One select option that names a size and no price; the page shows
    no price either. *)
Definition unpriced_page : page :=
  Page [OptionEl (Some "30ml") None None] [] [] [] [] [] [] []
       [["Jojoba Oil"]] [] [].

Definition unpriced_response : response := Response true "" None (Some unpriced_page).

Definition unpriced_world : World := serving page_url unpriced_response.

(** A world given by the responses of some URLs; every other request
    fails. *)
Fixpoint lookup_url (site : list (string * response)) (u : string) : option response :=
  match site with
  | [] => None
  | (url, r) :: site' => if String.eqb u url then Some r else lookup_url site' u
  end.

Definition site_world (site : list (string * response)) : World :=
  {| session_get := fun u _ => lookup_url site u;
     json_loads := fun _ => None;
     urljoin := fun base u => Some (base ++ u);
     py_repr := fun _ => "" |}.

(** A listing with two product links and a link that is none. *)
Definition listing_page : page :=
  Page [] [] [] [] [] [] [] [] [] []
       ["/ABC-DEF-01.html?lang=default"; "/Formulas/index.html"; "/XYZ-Q1-02.html"].

Definition other_url : string := "https://makingcosmetics.com/XYZ-Q1-02.html".

(** The listing and one of its two products can be fetched; the other
    request fails. *)
Definition catalog_world : World :=
  site_world [ (list_page_url, Response true "" None (Some listing_page));
               (page_url, delta_response) ].

(** The text of [delta_option], and the float 10.0. *)
Definition delta_text : string := "1.0floz / 30ml (+$2.50)".

Definition ten_dollars : spec_float := S754_finite false 5629499534213120 (-49).

(** What the options strategy makes of [delta_option]. *)
Definition delta_variant : variant :=
  MkVariant delta_text (JStr "$12.50") "option_data".

Definition quoted (s : string) : string :=
  String Chars.dquote s ++ String Chars.dquote "".

(** The JSON text
    {qproductq: {qpriceq: {qsalesq: {qformattedq: q$1,234.50q}}}}
    where q is the double quote, and the value [json.loads] gives for it. *)
Definition variation_body : string :=
  "{" ++ quoted "product" ++ ": {" ++ quoted "price" ++ ": {" ++ quoted "sales"
      ++ ": {" ++ quoted "formatted" ++ ": " ++ quoted "$1,234.50" ++ "}}}}".

Definition variation_json : json :=
  JObj [("product",
         JObj [("price",
                JObj [("sales", JObj [("formatted", JStr "$1,234.50")])])])].

Definition variation_path : string := "/Product-Variation?pid=ABC-DEF-01&size=30ml".

(** A page whose only option refers to the variation API. *)
Definition variation_page : page :=
  Page [OptionEl (Some "30ml") (Some variation_path) None] [] [] [] [] [] [] []
       [["Argan Oil"]] [] [].

(** The page and the variation API can be fetched; the API answers
    with [body], which [response.json()] reads as [parsed]. *)
Definition api_world (body : string) (parsed : option json) : World :=
  {| session_get := fun u _ =>
       if String.eqb u page_url
       then Some (Response true "" None (Some variation_page))
       else if String.eqb u (base_url ++ variation_path)
            then Some (Response true body parsed None)
            else None;
     json_loads := fun _ => None;
     urljoin := fun base u => Some (base ++ u);
     py_repr := fun _ => "" |}.

Definition variation_world : World := api_world variation_body (Some variation_json).

End Examples.

(** ** The service around the scraper

    The functions of [src/app.py] that the HTTP routes call, on the
    module-level dictionary [scraping_status], which is passed in and
    out.  Of the background route [scrape_async] the answer without
    waiting is modelled, and the task it queues, which is a run of
    [run_scrape]; its waiting loop depends on the clock and on the
    scheduling of the event loop and is left out. *)

Module Service.
Import Scraper.
Local Open Scope string_scope.

(** What a run reads from outside: [round(time.time() - start_ts, 2)]
    of line 57, [datetime.now().strftime(...)] of line 66, and [str(e)]
    of an exception. *)
Record Runtime : Type := {
  duration : spec_float;
  now : string;
  exn_str : exn -> string
}.

(** Lines 49-54 *)
Record formatted_product : Type := FormattedProduct {
  fp_name : string;
  fp_sizes : list string;
  fp_price_info : string;
  fp_prices : gmap string json
}.

Record statistics : Type := Statistics {
  products_with_sizes : nat;
  products_with_prices : nat
}.

(** Lines 58-69: the dictionary [result]. *)
Record payload : Type := Payload {
  success : bool;
  total_products : nat;
  payload_products : list formatted_product;
  payload_statistics : statistics;
  scraped_at : string;
  duration_sec : spec_float;
  payload_status : string
}.

(** [scraping_status['last_result']]: the dictionary of lines 71-76 or
    the one of line 85. *)
Inductive summary : Type :=
| Completed (total : nat) (at_time : string) (status : string) (seconds : spec_float)
| Failed.

(** Lines 21-27 *)
Record scraping_status : Type := Status {
  is_running : bool;
  last_run : option string;
  last_result : option summary;
  last_full_result : option payload;
  error : option string
}.

Definition initial_status : scraping_status := Status false None None None None.

Definition format_product (product : product) : formatted_product :=
  FormattedProduct (name product) (sizes product) (price_info product)
                   (prices product).

(** [p.get('sizes')] as a condition *)
Definition has_sizes (p : product) : bool := negb (is_nil (sizes p)).

(** [p.get('price_info') or p.get('prices')] as a condition *)
Definition has_prices (p : product) : bool :=
  PyStr.truthy (price_info p) || negb (bool_decide (prices p = ∅)).

(** Lines 47-69 *)
Definition make_result (rt : Runtime) (products : list product) : payload :=
  let formatted_products := map format_product products in
  Payload true (length formatted_products) formatted_products
          (Statistics (length (List.filter has_sizes products))
                      (length (List.filter has_prices products)))
          (now rt) (duration rt) "completed".

(** Lines 38-39: the status once a run has begun; it keeps
    [is_running] set until the run ends (line 88). *)
Definition started (status : scraping_status) : scraping_status :=
  Status true (last_run status) (last_result status)
         (last_full_result status) None.

(** [run_scrape], lines 37-88, around any crawl: [crawl] stands for
    lines 43-44 and gives the list of products or the exception
    raised. *)
Definition run_scrape_with (crawl : option Z -> result (list product))
           (rt : Runtime) (limit : option Z) (status : scraping_status)
  : scraping_status * result payload :=
  let status := started status in
  let '(status, outcome) :=
    match crawl limit with
    | Ok products =>
        let result := make_result rt products in
        (Status (is_running status)
                (Some (scraped_at result))
                (Some (Completed (total_products result) (scraped_at result)
                                 (payload_status result) (duration_sec result)))
                (Some result)
                (error status),
         Ok result)
    | Raise e =>
        (Status (is_running status) (last_run status) (Some Failed)
                (last_full_result status)
                (Some ("Scraping failed: " ++ exn_str rt e)),
         Raise e)
    end in
  (Status false (last_run status) (last_result status)
          (last_full_result status) (error status),
   outcome).

(** Line 88: the end of a run. *)
Definition finished (status : scraping_status) : scraping_status :=
  Status false (last_run status) (last_result status)
         (last_full_result status) (error status).

(** The statuses that another request can read while [run_scrape] is
    at work: the status after each assignment of lines 38-39, and then
    of lines 70-77 or of lines 83-84, in this order; line 88 comes
    after the last of them. *)
Definition run_scrape_states (crawl : option Z -> result (list product))
           (rt : Runtime) (limit : option Z) (status : scraping_status)
  : list scraping_status :=
  let s38 := Status true (last_run status) (last_result status)
                    (last_full_result status) (error status) in
  let s39 := started status in
  s38 :: s39 ::
  match crawl limit with
  | Ok products =>
      let result := make_result rt products in
      let s70 := Status (is_running s39) (last_run s39)
                        (Some (Completed (total_products result) (scraped_at result)
                                         (payload_status result) (duration_sec result)))
                        (last_full_result s39) (error s39) in
      let s76 := Status (is_running s70) (last_run s70) (last_result s70)
                        (Some result) (error s70) in
      let s77 := Status (is_running s76) (Some (scraped_at result))
                        (last_result s76) (last_full_result s76) (error s76) in
      [s70; s76; s77]
  | Raise e =>
      let s83 := Status (is_running s39) (last_run s39) (last_result s39)
                        (last_full_result s39)
                        (Some ("Scraping failed: " ++ exn_str rt e)) in
      let s84 := Status (is_running s83) (last_run s83) (Some Failed)
                        (last_full_result s83) (error s83) in
      [s83; s84]
  end.

(** Lines 43-44 with the scraper of this file: a new scraper crawls
    the site; it raises nothing. *)
Definition crawl_site (w : World) (limit : option Z) : result (list product) :=
  Ok (snd (scrape_all_products w new_scraper limit)).

Definition run_scrape (w : World) (rt : Runtime) (limit : option Z)
           (status : scraping_status) : scraping_status * result payload :=
  run_scrape_with (crawl_site w) rt limit status.

(** What a route answers: a value, an HTTP error, or the exception
    that escapes it. *)
Inductive reply (A : Type) : Type :=
| Answer (a : A)
| HttpError (status_code : Z) (detail : string)
| Escapes (e : exn).
Arguments Answer {A} a.
Arguments HttpError {A} status_code detail.
Arguments Escapes {A} e.

(** Lines 774-778 *)
Definition scrape_sync_with (crawl : option Z -> result (list product))
           (rt : Runtime) (limit : option Z) (status : scraping_status)
  : scraping_status * reply payload :=
  if is_running status
  then (status, HttpError 409 "Scraping is already in progress")
  else
    let '(status, outcome) := run_scrape_with crawl rt limit status in
    (status, match outcome with
             | Ok result => Answer result
             | Raise e => Escapes e
             end).

Definition scrape_sync (w : World) (rt : Runtime) (limit : option Z)
           (status : scraping_status) : scraping_status * reply payload :=
  scrape_sync_with (crawl_site w) rt limit status.

(** [scrape_async] with [wait] false, lines 112-133: the answer, and
    whether [run_scrape] was queued as a background task. *)
Inductive async_answer : Type :=
| Running
| Accepted.

Definition scrape_async_no_wait (status : scraping_status) : async_answer * bool :=
  if is_running status then (Running, false) else (Accepted, true).

(** Lines 137-143 *)
Record status_view : Type := StatusView {
  view_is_running : bool;
  view_last_run : option string;
  view_last_result : option summary;
  view_error : option string
}.

Definition status (st : scraping_status) : status_view :=
  StatusView (is_running st) (last_run st) (last_result st) (error st).

(** Lines 92-100 *)
Record health : Type := Health {
  health_status : string;
  health_timestamp : string;
  health_is_running : bool;
  health_last_run : option string
}.

Definition health_check (rt : Runtime) (st : scraping_status) : health :=
  Health "healthy" (now rt) (is_running st) (last_run st).

End Service.

(** ** Further notions, for the properties beyond the specification *)

Module Notions.
Import Re Patterns Scraper Service Spec.
Local Open Scope string_scope.

(** The tags a strategy writes into the field [source] of its variants
    (lines 345, 387, 423, 465, 533, 577 and 620). *)
Definition tags_of (s : strategy) : list string :=
  match s with
  | Options => ["dynamic_api"; "option_data"; "radio_option"; "ul_option"]
  | JsonLd => ["json_ld"]
  | InlineJson => ["inline_json"]
  | Tables => ["table"]
  | Proximity => ["proximity"]
  end.

Definition tagged (s : strategy) (v : variant) : Prop :=
  In (source v) (tags_of s).

Definition priced (v : variant) : Prop := has_price v = true.

(** The computation looks at the list it is given only to append to
    it: what it appends and what it returns are the same from any list. *)
Definition appends {A : Type} (m : M A) : Prop :=
  forall vs, m vs = ((vs ++ fst (m []))%list, snd (m [])).

(** A text that neither starts nor ends with white space, and is not
    empty: [strip] leaves it as it is. *)
Definition trimmed (u : list ascii) : Prop :=
  (exists c u', u = c :: u' /\ Chars.is_space c = false)
  /\ (exists d u', u = (u' ++ [d])%list /\ Chars.is_space d = false).

(** Every text the pattern matches ends with a character that is not
    white space. *)
Definition ends_well (r : regex) : Prop :=
  forall p u t, Matches r p u t ->
    exists d u', u = (u' ++ [d])%list /\ Chars.is_space d = false.

(** The characters at the front of a text that satisfy [f], and the
    text behind them. *)
Fixpoint leading (f : ascii -> bool) (l : list ascii) : list ascii :=
  match l with
  | c :: t => if f c then c :: leading f t else []
  | [] => []
  end.

Fixpoint behind (f : ascii -> bool) (l : list ascii) : list ascii :=
  match l with
  | c :: t => if f c then behind f t else l
  | [] => []
  end.

Definition not_space (c : ascii) : bool := negb (Chars.is_space c).

(** Each run of white space replaced by one blank.  [in_space] tells
    whether the character before was white space. *)
Fixpoint collapse (in_space : bool) (l : list ascii) : list ascii :=
  match l with
  | [] => []
  | c :: t =>
      if Chars.is_space c
      then if in_space then collapse true t else " "%char :: collapse true t
      else c :: collapse false t
  end.

Definition starts_plain (l : list ascii) : bool :=
  match l with
  | d :: _ => negb (Chars.is_space d)
  | [] => true
  end.

(** The only white space in the text is the blank, and no two of them
    are neighbours. *)
Fixpoint single_spaced (l : list ascii) : bool :=
  match l with
  | [] => true
  | c :: t =>
      (if Chars.is_space c then Ascii.eqb c " " && starts_plain t else true)
      && single_spaced t
  end.

(** A size in normal form: not empty, no white space at either end,
    single blanks inside. *)
Definition normal_size (s : string) : Prop :=
  trimmed (PyStr.to_list s) /\ single_spaced (PyStr.to_list s) = true.

(** The text [u] occurs in [text] as it is. *)
Definition occurs_in (u text : string) : Prop :=
  exists pre post,
    PyStr.to_list text = (pre ++ PyStr.to_list u ++ post)%list.

(** What the text-mining fall-back may return for [text]: a text that
    occurs in it and that one of the six size patterns matches. *)
Definition mined_from (text size : string) : Prop :=
  occurs_in size text
  /\ exists r p t, In r size_patterns /\ Matches r p (PyStr.to_list size) t.

(** A JSON value that is no container: a number, a boolean or null.
    The operator [in] raises TypeError on it. *)
Definition scalar (v : json) : bool :=
  match v with
  | JNull | JBool _ | JInt _ | JFloat _ => true
  | JStr _ | JArr _ | JObj _ => false
  end.

(** What changes the status: a call of the synchronous route, or the
    run of a task that the background route queued.  Each comes with
    the crawl it makes, what it reads from outside, and its limit. *)
Inductive event : Type :=
| SyncCall (crawl : option Z -> result (list product)) (rt : Runtime)
           (limit : option Z)
| BackgroundRun (crawl : option Z -> result (list product)) (rt : Runtime)
                (limit : option Z).

Definition serve (st : scraping_status) (e : event) : scraping_status :=
  match e with
  | SyncCall crawl rt limit => fst (scrape_sync_with crawl rt limit st)
  | BackgroundRun crawl rt limit => fst (run_scrape_with crawl rt limit st)
  end.

(** The status after the events [events], each one ending before the
    next begins, from the start of the process. *)
Definition after (events : list event) : scraping_status :=
  fold_left serve events initial_status.

(** What the status records agrees with itself. *)
Definition consistent (st : scraping_status) : Prop :=
  is_running st = false
  /\ match last_full_result st with
     | Some result =>
         last_run st = Some (scraped_at result)
         /\ total_products result = length (payload_products result)
     | None => last_run st = None
     end
  /\ match last_result st with
     | Some (Completed total at_time status seconds) =>
         error st = None
         /\ exists result,
              last_full_result st = Some result
              /\ total = total_products result
              /\ at_time = scraped_at result
              /\ seconds = duration_sec result
     | Some Failed => is_Some (error st)
     | None => error st = None /\ last_full_result st = None
     end.

(** *** Prices *)

(** A price, or none. *)
Definition string_or_none (v : json) : Prop :=
  v = JNull \/ exists s, v = JStr s.

(** The text of a formatted amount: a dollar sign, digits, a point and
    two digits; or [$inf] for an amount beyond the range of a float. *)
Definition amount_text (s : string) : Prop :=
  is_dollar_amount s = true \/ s = "$inf".

(** A price made by formatting an amount that was read from digits,
    commas and a point. *)
Definition formatted_amount (v : json) : Prop :=
  exists x, v = JStr (dollars x) /\ nonneg_or_inf x.

(** A price made by formatting any float. *)
Definition formatted_float (v : json) : Prop :=
  exists x, v = JStr (dollars x).

Definition amount_or_none (v : json) : Prop :=
  v = JNull \/ formatted_amount v.

(** The variation API answers the request for [variation_url] with
    [response]: a response without an HTTP error and with a body that
    is not empty (lines 219-229). *)
Definition answers (w : World) (variation_url : string) (response : response) : Prop :=
  exists absolute_url,
    urljoin w base_url variation_url = Some absolute_url
    /\ session_get w absolute_url api_headers = Some response
    /\ status_ok response = true
    /\ PyStr.is_empty (resp_text response) = false.

(** What the variation client returns for [variation_url] when it
    returns a price: the field [product.price.sales.formatted] of the
    JSON body of the answer, as it is (line 237); the text one of its
    patterns captured in the body, as it is when it holds a dollar sign
    (line 259); or that text read as a number and formatted (lines
    255-256). *)
Inductive client_price (w : World) (variation_url : string) : json -> Prop :=
| formatted_field response json_data v :
    answers w variation_url response ->
    resp_json response = Some json_data ->
    formatted_sales_price json_data = Ok (Some v) ->
    client_price w variation_url v
| captured_text response pattern m :
    answers w variation_url response ->
    In pattern price_patterns ->
    search pattern (resp_text response) = Some m ->
    PyStr.contains "$" (group1_of m) = true ->
    client_price w variation_url (JStr (group1_of m))
| captured_number response pattern m x :
    answers w variation_url response ->
    In pattern price_patterns ->
    search pattern (resp_text response) = Some m ->
    PyStr.contains "$" (group1_of m) = false ->
    float_without_commas (group1_of m) = Ok x ->
    client_price w variation_url (JStr (dollars x)).

(** The select options the options strategy reads (lines 273-275). *)
Definition select_options_of (tree : page) : list option_el :=
  match size_select_options tree with
  | [] => dwvar_select_options tree
  | found => found
  end.

(** The price of the variant is what the variation client returned for
    the URL of a select option of the page. *)
Definition from_client (w : World) (tree : page) (v : variant) : Prop :=
  source v = "dynamic_api"
  /\ exists option variation_url,
       In option (select_options_of tree)
       /\ opt_value option = Some variation_url
       /\ is_variation_url (Some variation_url) = true
       /\ client_price w variation_url (price v).

(** Where the price of a variant comes from: there is none; or the
    variation client returned it; or, in a variant of the JSON
    strategies, a float was formatted; or an amount was formatted. *)
Definition price_kind (w : World) (tree : page) (v : variant) : Prop :=
  price v = JNull
  \/ from_client w tree v
  \/ (In (source v) ["json_ld"; "inline_json"] /\ formatted_float (price v))
  \/ formatted_amount (price v).

(** What the four methods of a select option make of a price. *)
Definition option_price_kind (w : World) (option : option_el) (p : json) : Prop :=
  p = JNull
  \/ (exists variation_url,
        opt_value option = Some variation_url
        /\ is_variation_url (Some variation_url) = true
        /\ client_price w variation_url p)
  \/ formatted_amount p.

(** The tags of the strategies that take a price from an amount in a
    text or an attribute only. *)
Definition plain_tags : list string :=
  ["option_data"; "radio_option"; "ul_option"; "table"; "proximity"].


End Notions.

(** ** Further pages and worlds *)

Module Cases.
Import Scraper Examples.
Local Open Scope string_scope.

(** A page whose only source of variants is a table of sizes and
    prices. *)
Definition table_page : page :=
  Page [] [] [] [] [] []
       [TableEl ["Size"; "Price"] [["30ml"; "$12.50"]; ["100 ml"; "$30.00"]]]
       [] [["Argan Oil"]] [] [].

Definition table_response : response := Response true "" None (Some table_page).

Definition table_world : World := serving page_url table_response.

(** A JSON-LD block that describes a product with one offer, and the
    value [json.loads] gives for it; the text [7], which is JSON but no
    object; and a text that is no JSON. *)
Definition offer_text : string := "{product with one offer}".

Definition offer_json : json :=
  JObj [("@type", JStr "Product");
        ("offers", JObj [("name", JStr "30 ml"); ("price", JStr "12.5")])].

Definition ld_world : World :=
  {| session_get := fun _ _ => None;
     json_loads := fun text =>
       if String.eqb text offer_text then Some offer_json
       else if String.eqb text "7" then Some (JInt 7)
       else None;
     urljoin := fun base u => Some (base ++ u);
     py_repr := fun _ => "" |}.

Definition ld_page (scripts : list string) : page :=
  Page [] [] [] [] [] scripts [] [] [] [] [].

(** A body of the variation API whose [product] is a number: the JSON
    text {qproductq: 5, qvalueq: 12.50} where q is the double quote. *)
Definition flat_body : string :=
  "{" ++ quoted "product" ++ ": 5, " ++ quoted "value" ++ ": 12.50}".

Definition flat_json : json :=
  JObj [("product", JInt 5);
        ("value", JFloat (S754_finite false 7036874417766400 (-49)))].

Definition flat_world : World := api_world flat_body (Some flat_json).

(** Two select options of the same size with different prices. *)
Definition repeat_page : page :=
  Page [OptionEl (Some "30ml") None (Some "10.00");
        OptionEl (Some "30ml") None (Some "12.00")]
       [] [] [] [] [] [] [] [["Argan Oil"]] [] [].

Definition repeat_response : response := Response true "" None (Some repeat_page).

Definition repeat_world : World := serving page_url repeat_response.



(** A run that finds no product, at a fixed time. *)
Definition empty_crawl (limit : option Z) : result (list product) := Ok [].

Definition fixed_runtime : Service.Runtime :=
  {| Service.duration := S754_zero false;
     Service.now := "2024-01-01 00:00:00";
     Service.exn_str := fun _ => "" |}.


End Cases.

(** ** Properties *)

Module Facts.
Import Re Patterns Scraper Spec.
Local Open Scope string_scope.

(** *** Invariants of the variant list *)

Section Invariants.
Variable P : variant -> Prop.

Lemma preserves_ret {A : Type} (a : A) : preserves P (ret a).
Proof. intros vs H. exact H. Qed.

Lemma preserves_lift {A : Type} (r : result A) : preserves P (lift r).
Proof. intros vs H. exact H. Qed.

Lemma preserves_append (v : variant) : P v -> preserves P (append v).
Proof.
  intros Hv vs H. cbn. apply Forall_app. split; [exact H|].
  constructor; [exact Hv | constructor].
Qed.

Lemma preserves_bind {A B : Type} (Q : A -> Prop) (m : M A) (k : A -> M B) :
  preserves P m -> returns Q m -> (forall a, Q a -> preserves P (k a)) ->
  preserves P (bind m k).
Proof.
  intros Hm HQ Hk vs H. unfold bind.
  specialize (Hm vs H). specialize (HQ vs).
  destruct (m vs) as [vs' [a | e]]; cbn in *; [|exact Hm].
  apply (Hk a); [apply HQ; reflexivity | exact Hm].
Qed.

Lemma preserves_seq {A B : Type} (m : M A) (k : A -> M B) :
  preserves P m -> (forall a, preserves P (k a)) -> preserves P (bind m k).
Proof.
  intros Hm Hk. apply (preserves_bind (fun _ => True)); auto.
  intros vs a _. exact I.
Qed.

Lemma preserves_lift_bind {A B : Type} (r : result A) (k : A -> M B) :
  (forall a, r = Ok a -> preserves P (k a)) -> preserves P (bind (lift r) k).
Proof.
  intros Hk. apply (preserves_bind (fun a => r = Ok a)).
  - apply preserves_lift.
  - intros vs a H. exact H.
  - exact Hk.
Qed.

Lemma preserves_for_each {A : Type} (body : A -> M unit) (xs : list A) :
  (forall x, preserves P (body x)) -> preserves P (for_each body xs).
Proof.
  intros Hbody. induction xs as [|x xs IH]; cbn.
  - apply preserves_ret.
  - apply preserves_seq; [apply Hbody | intros _; exact IH].
Qed.

Lemma preserves_except (m : M unit) :
  preserves P m -> preserves P (except_json_decode m).
Proof.
  intros Hm vs H. unfold except_json_decode. specialize (Hm vs H).
  destruct (m vs) as [vs' [a | []]]; exact Hm.
Qed.

Lemma run_block_preserves (m : M unit) (vs : list variant) :
  preserves P m -> Forall P vs -> Forall P (run_block m vs).
Proof. intros Hm H. apply Hm, H. Qed.
End Invariants.

Lemma size_truthy_Some (x : option string) (s : string) :
  size_truthy x = Some s -> PyStr.truthy s = true.
Proof.
  destruct x as [t|]; cbn; [|discriminate].
  destruct (PyStr.truthy t) eqn:E; [|discriminate].
  intros [= <-]. exact E.
Qed.

(** One step of a proof that a strategy keeps an invariant: follow
    the structure of the code. *)
Ltac keep_step :=
  lazymatch goal with
  | |- preserves _ (ret _) => apply preserves_ret
  | |- preserves _ (lift _) => apply preserves_lift
  | |- preserves _ (append _) => apply preserves_append
  | |- preserves _ (for_each _ _) => apply preserves_for_each; intros ?
  | |- preserves _ (except_json_decode _) => apply preserves_except
  | |- preserves _ (bind (lift _) _) => apply preserves_lift_bind; intros ? ?
  | |- preserves _ (bind _ _) => apply preserves_seq; [|intros ?]
  | |- preserves _ (match ?x with _ => _ end) => destruct x eqn:?
  end.

Ltac keep := repeat keep_step.

Ltac size_ok :=
  lazymatch goal with
  | H : size_truthy _ = Some ?s |- has_size (MkVariant ?s _ _) =>
      exact (size_truthy_Some _ _ H)
  end.

(** Every strategy only appends variants that have a size. *)

Lemma select_options_sized (w : World) (tree : page) :
  preserves has_size (select_options w tree).
Proof. unfold select_options, select_option. keep; size_ok. Qed.

Lemma radio_and_list_options_sized (tree : page) :
  preserves has_size (radio_and_list_options tree).
Proof.
  unfold radio_and_list_options, radio_option, list_option. keep; size_ok.
Qed.

Lemma options_sized (w : World) (tree : page) :
  Forall has_size (extract_variants_from_options w tree).
Proof.
  unfold extract_variants_from_options.
  apply run_block_preserves; [apply radio_and_list_options_sized|].
  apply run_block_preserves; [apply select_options_sized | constructor].
Qed.

Lemma json_ld_sized (w : World) (tree : page) :
  Forall has_size (extract_variants_from_json_ld w tree).
Proof.
  unfold extract_variants_from_json_ld.
  apply run_block_preserves; [|constructor].
  unfold json_ld_script, json_ld_item, json_ld_offer. keep; size_ok.
Qed.

Lemma inline_json_sized (w : World) (text : string) :
  Forall has_size (extract_variants_from_inline_json w text).
Proof.
  unfold extract_variants_from_inline_json.
  apply run_block_preserves; [|constructor].
  unfold inline_match, inline_variant. keep; size_ok.
Qed.

Lemma tables_sized (tree : page) :
  Forall has_size (extract_variants_from_tables tree).
Proof.
  unfold extract_variants_from_tables.
  apply run_block_preserves; [|constructor].
  unfold table, table_row. keep; size_ok.
Qed.

Lemma proximity_scan_sized (elements : list text_el) :
  preserves has_size (proximity_scan elements).
Proof.
  induction elements as [|element more IH]; cbn [proximity_scan].
  - apply preserves_ret.
  - keep; try exact IH. size_ok.
Qed.

Lemma proximity_sized (tree : page) :
  Forall has_size (extract_variants_from_proximity tree).
Proof.
  unfold extract_variants_from_proximity.
  apply run_block_preserves; [apply proximity_scan_sized | constructor].
Qed.

Lemma strategies_sized (w : World) (response : response) (tree : page)
      (s : strategy) :
  Forall has_size (run_strategy w response tree s).
Proof.
  destruct s; cbn.
  - apply options_sized.
  - apply json_ld_sized.
  - apply inline_json_sized.
  - apply tables_sized.
  - apply proximity_sized.
Qed.

(** *** The chain of strategies *)

Lemma is_nil_true {A : Type} (l : list A) : is_nil l = true <-> l = [].
Proof. destruct l; cbn; split; congruence. Qed.

Lemma collect_variants_options (w : World) (response : response) (tree : page) :
  extract_variants_from_options w tree <> [] ->
  collect_variants w response tree
  = ([Options], extract_variants_from_options w tree).
Proof.
  intros H. unfold collect_variants.
  destruct (extract_variants_from_options w tree); [congruence | reflexivity].
Qed.

Lemma collect_variants_empty (w : World) (response : response) (tree : page) :
  snd (collect_variants w response tree) = []
  <-> Forall (fun s => run_strategy w response tree s = []) all_strategies.
Proof.
  unfold collect_variants, all_strategies. rewrite !Forall_cons. cbn [run_strategy].
  destruct (extract_variants_from_options w tree); cbn;
    [|split; [discriminate | intros [? _]; discriminate]].
  destruct (extract_variants_from_json_ld w tree); cbn;
    [|split; [discriminate | intros (_ & ? & _); discriminate]].
  destruct (extract_variants_from_inline_json w (resp_text response)); cbn;
    [|split; [discriminate | intros (_ & _ & ? & _); discriminate]].
  destruct (extract_variants_from_tables tree); cbn;
    [|split; [discriminate | intros (_ & _ & _ & ? & _); discriminate]].
  destruct (extract_variants_from_proximity tree); cbn;
    [|split; [discriminate | intros (_ & _ & _ & _ & ? & _); discriminate]].
  split; [intros _; repeat split; constructor | reflexivity].
Qed.

Lemma collect_variants_sized (w : World) (response : response) (tree : page) :
  Forall has_size (snd (collect_variants w response tree)).
Proof.
  pose proof (strategies_sized w response tree) as H.
  pose proof (H Options) as H1. pose proof (H JsonLd) as H2.
  pose proof (H InlineJson) as H3. pose proof (H Tables) as H4.
  pose proof (H Proximity) as H5. cbn [run_strategy] in *.
  unfold collect_variants.
  destruct (extract_variants_from_options w tree); cbn; [|exact H1].
  destruct (extract_variants_from_json_ld w tree); cbn; [|exact H2].
  destruct (extract_variants_from_inline_json w (resp_text response)); cbn;
    [|exact H3].
  destruct (extract_variants_from_tables tree); cbn; [|exact H4].
  exact H5.
Qed.

(** *** Consolidation: sizes *)

Lemma add_size_prefix (vs : list variant) (acc : list string) :
  exists more, fold_left add_size vs acc = (acc ++ more)%list.
Proof.
  revert acc. induction vs as [|v vs IH]; intros acc; cbn.
  - exists []. symmetry. apply app_nil_r.
  - destruct (IH (add_size acc v)) as [more Hmore]. rewrite Hmore.
    unfold add_size.
    destruct (PyStr.truthy (size v) && negb (mem (size v) acc)).
    + exists ([size v] ++ more)%list. rewrite <- app_assoc. reflexivity.
    + exists more. reflexivity.
Qed.

Lemma consolidate_sizes_nil (vs : list variant) :
  Forall has_size vs -> is_nil (consolidate_sizes vs) = is_nil vs.
Proof.
  destruct vs as [|v vs]; [reflexivity|].
  intros H. apply Forall_cons in H as [Hv _].
  unfold consolidate_sizes. cbn [fold_left is_nil].
  unfold add_size at 2. unfold has_size in Hv. rewrite Hv. cbn.
  destruct (add_size_prefix vs [size v]) as [more ->]. reflexivity.
Qed.

Lemma make_price_info_empty : make_price_info ∅ = Ok "".
Proof. reflexivity. Qed.

Lemma extract_Ok (w : World) (response : response) (tree : page) (e : extraction) :
  extract w response tree = Ok e ->
  let all_variants := snd (collect_variants w response tree) in
  ex_called e = fst (collect_variants w response tree)
  /\ ex_fallback e = is_nil all_variants
  /\ name (ex_product e) = find_name (name_texts tree)
  /\ sizes (ex_product e)
     = (if is_nil all_variants then text_mining tree
        else consolidate_sizes all_variants)
  /\ prices (ex_product e) = consolidate_prices all_variants
  /\ make_price_info (consolidate_prices all_variants)
     = Ok (price_info (ex_product e))
  /\ price_sources (ex_product e)
     = list_of_set (consolidate_sources all_variants).
Proof.
  unfold extract.
  pose proof (collect_variants_sized w response tree) as Hsized.
  destruct (collect_variants w response tree) as [called all_variants].
  cbn [fst snd] in *.
  destruct (make_price_info (consolidate_prices all_variants)) as [info|];
    cbn; [|discriminate].
  intros [= <-]. cbn. rewrite (consolidate_sizes_nil _ Hsized).
  repeat split; reflexivity.
Qed.

Lemma fallback_runs_nil (w : World) (response : response) (tree : page) :
  fallback_runs w response tree = is_nil (snd (collect_variants w response tree)).
Proof.
  unfold fallback_runs.
  destruct (extract w response tree) as [e|] eqn:E.
  - apply extract_Ok in E. apply E.
  - unfold extract in E.
    destruct (collect_variants w response tree) as [called [|v vs]];
      cbn in *; [discriminate | reflexivity].
Qed.

Lemma scrape_product_details_Some (w : World) (url : string) (p : product) :
  scrape_product_details w url = Some p ->
  exists response tree e,
    fetch w url = Some (response, tree)
    /\ extract w response tree = Ok e /\ ex_product e = p.
Proof.
  unfold scrape_product_details, scrape_with_trace.
  destruct (fetch w url) as [[response tree]|]; [|discriminate].
  destruct (extract w response tree) as [e|] eqn:E; [|discriminate].
  intros [= <-]. exists response, tree, e. repeat split; assumption.
Qed.

(** *** The text-mining fall-back *)

(** C6: the text-mining fall-back runs on a page exactly when each of
    the five strategies returns an empty list for it, and a product
    built with it has no price at all: an empty [prices] mapping and
    an empty [price_info]. *)
Theorem fallback_iff_no_variant (w : World) (response : response) (tree : page) :
  (fallback_runs w response tree = true
   <-> Forall (fun s => run_strategy w response tree s = []) all_strategies)
  /\ (forall e, extract w response tree = Ok e -> ex_fallback e = true ->
      prices (ex_product e) = ∅ /\ price_info (ex_product e) = "").
Proof.
  split.
  - rewrite fallback_runs_nil, is_nil_true. apply collect_variants_empty.
  - intros e He Hfb.
    apply extract_Ok in He as (_ & Hf & _ & _ & Hp & Hi & _).
    rewrite Hf in Hfb. apply is_nil_true in Hfb. rewrite Hfb in Hp, Hi.
    split; [exact Hp|].
    cbn in Hi. injection Hi as <-. reflexivity.
Qed.

Lemma fallback_iff_no_variant_witness :
  fallback_runs Examples.text_world Examples.text_response Examples.text_page = true
  /\ forall e,
      extract Examples.text_world Examples.text_response Examples.text_page = Ok e ->
      ex_fallback e = true ->
      prices (ex_product e) = ∅ /\ price_info (ex_product e) = "".
Proof.
  pose proof (fallback_iff_no_variant
                Examples.text_world Examples.text_response Examples.text_page)
    as [Hiff Hprices].
  split; [|exact Hprices].
  apply Hiff. vm_compute. repeat constructor.
Defined.

(** *** Consolidation: order of the sizes, last price *)

Lemma mem_true (s : string) (l : list string) : mem s l = true <-> In s l.
Proof.
  unfold mem. rewrite existsb_exists. split.
  - intros (x & Hx & Heq). apply String.eqb_eq in Heq. subst. exact Hx.
  - intros H. exists s. split; [exact H | apply String.eqb_refl].
Qed.

Lemma mem_app (s : string) (l1 l2 : list string) :
  mem s (l1 ++ l2) = mem s l1 || mem s l2.
Proof. unfold mem. apply existsb_app. Qed.

Lemma filter_twice {A : Type} (f g : A -> bool) (l : list A) :
  List.filter f (List.filter g l) = List.filter (fun x => g x && f x) l.
Proof.
  induction l as [|x l IH]; cbn; [reflexivity|].
  destruct (g x); cbn; [destruct (f x)|]; rewrite IH; reflexivity.
Qed.

Lemma fold_add_size (vs : list variant) (acc : list string) :
  fold_left add_size vs acc
  = (acc ++ List.filter (fun s => negb (mem s acc)) (first_seen (sizes_of vs)))%list.
Proof.
  revert acc. induction vs as [|v vs IH]; intros acc; cbn.
  - symmetry. apply app_nil_r.
  - rewrite IH. unfold add_size, sizes_of. cbn [map List.filter].
    fold (sizes_of vs).
    destruct (PyStr.truthy (size v)) eqn:Ht; cbn [andb]; [|reflexivity].
    cbn [first_seen List.filter].
    destruct (mem (size v) acc) eqn:Hm; cbn [negb].
    + f_equal. rewrite filter_twice. apply List.filter_ext_in.
      intros x _. destruct (String.eqb_spec (size v) x) as [<-|]; cbn;
        [rewrite Hm|]; reflexivity.
    + rewrite <- app_assoc. cbn. do 2 f_equal.
      rewrite filter_twice. apply List.filter_ext_in.
      intros x _. rewrite mem_app. cbn. rewrite orb_false_r.
      rewrite negb_orb, (String.eqb_sym x), andb_comm. reflexivity.
Qed.

Lemma consolidate_sizes_first_seen (vs : list variant) :
  consolidate_sizes vs = first_seen (sizes_of vs).
Proof.
  unfold consolidate_sizes. rewrite fold_add_size. cbn [app].
  generalize (first_seen (sizes_of vs)). intros l.
  induction l as [|x l IH]; [reflexivity|].
  cbn [List.filter mem existsb negb]. f_equal. exact IH.
Qed.

Lemma first_seen_In (l : list string) (s : string) :
  In s (first_seen l) <-> In s l.
Proof.
  induction l as [|x l IH]; cbn; [tauto|].
  rewrite List.filter_In, IH, negb_true_iff, String.eqb_neq.
  destruct (String.eqb_spec x s); tauto.
Qed.

Lemma first_seen_NoDup (l : list string) : List.NoDup (first_seen l).
Proof.
  induction l as [|x l IH]; cbn; constructor.
  - rewrite List.filter_In, String.eqb_refl. cbn. intros [_ ?].
    discriminate.
  - apply List.NoDup_filter. exact IH.
Qed.

Lemma fold_add_price_other (vs : list variant) (m : gmap string json) (k : string) :
  Forall (fun v => size v = k -> has_price v = false) vs ->
  fold_left add_price vs m !! k = m !! k.
Proof.
  revert m. induction vs as [|v vs IH]; intros m H; cbn; [reflexivity|].
  apply Forall_cons in H as [Hv H]. rewrite (IH _ H).
  unfold add_price. unfold has_price in Hv.
  destruct (Py.truthy (price v)) eqn:Hp; [|reflexivity].
  apply lookup_insert_ne. intros Heq. specialize (Hv Heq). discriminate.
Qed.

Lemma consolidate_prices_last (before after : list variant) (v : variant) :
  has_price v = true ->
  Forall (fun v' => size v' = size v -> has_price v' = false) after ->
  consolidate_prices (before ++ v :: after) !! size v = Some (price v).
Proof.
  intros Hv Hafter. unfold consolidate_prices.
  rewrite fold_left_app. cbn [fold_left].
  rewrite (fold_add_price_other _ _ _ Hafter).
  unfold add_price. unfold has_price in Hv. rewrite Hv.
  apply lookup_insert_eq.
Qed.

(** *** The sources of the prices *)

Lemma fold_add_source (vs : list variant) (acc : gset string) (tag : string) :
  tag ∈ fold_left add_source vs acc
  <-> tag ∈ acc \/ exists v, In v vs /\ has_price v = true /\ source v = tag.
Proof.
  revert acc. induction vs as [|v vs IH]; intros acc; cbn.
  - split; [auto | intros [H | (v & [] & _)]; exact H].
  - rewrite IH. unfold add_source, has_price.
    destruct (Py.truthy (price v)) eqn:Hp.
    + rewrite elem_of_union, elem_of_singleton. split.
      * intros [[-> | H] | (v' & Hin & H)]; eauto 6.
      * intros [H | (v' & [<- | Hin] & Hv & Hs)]; eauto 6.
    + split.
      * intros [H | (v' & Hin & H)]; eauto 6.
      * intros [H | (v' & [<- | Hin] & Hv & Hs)]; eauto 6. congruence.
Qed.

(** C8, as the code has it: the source tags listed in [price_sources]
    are those of the variants that carry a price, each tag once; a
    variant without price adds its size but not its tag. *)
Theorem price_sources_of_priced_variants
        (w : World) (response : response) (tree : page) (e : extraction) :
  extract w response tree = Ok e ->
  List.NoDup (price_sources (ex_product e))
  /\ forall tag,
      In tag (price_sources (ex_product e))
      <-> exists v, In v (snd (collect_variants w response tree))
                    /\ has_price v = true /\ source v = tag.
Proof.
  intros He. apply extract_Ok in He as (_ & _ & _ & _ & _ & _ & Hsrc).
  rewrite Hsrc. unfold list_of_set. split.
  - apply NoDup_ListNoDup, NoDup_elements.
  - intros tag. rewrite <- list_elem_of_In, elem_of_elements.
    unfold consolidate_sources. rewrite fold_add_source.
    split; [intros [H | H]; [|exact H] | auto].
    apply not_elem_of_empty in H. destruct H.
Qed.

Lemma price_sources_of_priced_variants_witness :
  exists e,
    extract Examples.delta_world Examples.delta_response Examples.delta_page = Ok e
    /\ List.NoDup (price_sources (ex_product e))
    /\ forall tag,
        In tag (price_sources (ex_product e))
        <-> exists v,
            In v (snd (collect_variants Examples.delta_world
                                        Examples.delta_response Examples.delta_page))
            /\ has_price v = true /\ source v = tag.
Proof.
  eexists. split; [vm_compute; reflexivity|].
  apply (price_sources_of_priced_variants
           Examples.delta_world Examples.delta_response Examples.delta_page).
  vm_compute. reflexivity.
Defined.

(** C8 fails as stated: the variant of the option 30ml puts its size
    into [sizes], and its tag is not in [price_sources]. *)
Lemma price_sources_miss_unpriced_variant :
  exists p,
    scrape_product_details Examples.unpriced_world Examples.page_url = Some p
    /\ extract_variants_from_options Examples.unpriced_world Examples.unpriced_page
       = [MkVariant "30ml" JNull "option_data"]
    /\ sizes p = ["30ml"]
    /\ ~ In "option_data" (price_sources p).
Proof.
  eexists. split; [vm_compute; reflexivity|].
  split; [vm_compute; reflexivity|].
  split; [reflexivity|].
  cbn. tauto.
Qed.

(** *** The crawler *)

Lemma kept_visit (w : World) (self : scraper) (url : string) :
  products (visit w self url)
  = (products self ++ option_list (kept w url))%list.
Proof.
  unfold visit, kept.
  destruct (scrape_product_details w url) as [p|]; cbn;
    [destruct (PyStr.truthy (name p)); cbn|];
    try reflexivity; symmetry; apply app_nil_r.
Qed.

Lemma fold_visit (w : World) (links : list string) (self : scraper) :
  products (fold_left (visit w) links self)
  = (products self ++ omap (kept w) links)%list.
Proof.
  revert self. induction links as [|url links IH]; intros self; cbn.
  - symmetry. apply app_nil_r.
  - rewrite IH, kept_visit.
    destruct (kept w url); cbn; rewrite <- app_assoc; reflexivity.
Qed.

Lemma omap_skip {A B : Type} (f : A -> option B) (x : A) (l : list A) :
  f x = None -> omap f (x :: l) = omap f l.
Proof. intros H. cbn. rewrite H. reflexivity. Qed.

Lemma scrape_all_products_returns (w : World) (self : scraper) (limit : option Z) :
  snd (scrape_all_products w self limit)
  = (products self ++ omap (kept w) (visited w limit))%list.
Proof. unfold scrape_all_products, visited. cbn. apply fold_visit. Qed.

Lemma fetch_fails_not_kept (w : World) (url : string) :
  fetch w url = None -> kept w url = None.
Proof.
  intros H. unfold kept, scrape_product_details, scrape_with_trace.
  rewrite H. reflexivity.
Qed.

Lemma timeout_fetch_fails (w : World) (url : string) :
  session_get w url [] = None -> fetch w url = None.
Proof. intros H. unfold fetch. rewrite H. reflexivity. Qed.

(** C9: a URL of the list whose fetch fails, or whose product has an
    empty name, leaves nothing in the sequence returned; the crawl goes
    on, and returns what it kept of the other URLs in the order of its
    visits.  The function is total: nothing is raised. *)
Theorem failed_url_is_skipped
        (w : World) (self : scraper) (limit : option Z)
        (before after : list string) (url : string) :
  visited w limit = (before ++ url :: after)%list ->
  session_get w url [] = None
  \/ fetch w url = None
  \/ (exists p, scrape_product_details w url = Some p /\ name p = "") ->
  kept w url = None
  /\ snd (scrape_all_products w self limit)
     = (products self ++ omap (kept w) before ++ omap (kept w) after)%list.
Proof.
  intros Hlinks Hfail.
  assert (Hkept : kept w url = None).
  { destruct Hfail as [H | [H | (p & Hp & Hname)]].
    - apply fetch_fails_not_kept, timeout_fetch_fails, H.
    - apply fetch_fails_not_kept, H.
    - unfold kept. rewrite Hp, Hname. reflexivity. }
  split; [exact Hkept|].
  rewrite scrape_all_products_returns, Hlinks, omap_app.
  rewrite (omap_skip _ _ _ Hkept). reflexivity.
Qed.

Lemma failed_url_is_skipped_witness :
  kept Examples.catalog_world Examples.other_url = None
  /\ snd (scrape_all_products Examples.catalog_world new_scraper None)
     = (products new_scraper
        ++ omap (kept Examples.catalog_world) [Examples.page_url]
        ++ omap (kept Examples.catalog_world) [])%list.
Proof.
  apply (failed_url_is_skipped Examples.catalog_world new_scraper None
           [Examples.page_url] [] Examples.other_url).
  - vm_compute. reflexivity.
  - left. reflexivity.
Defined.

(** C10, as the code has it: the sequence returned is [self.products],
    which holds what the scraper had accumulated before the call,
    followed by the products kept during the call; it stays on the
    scraper for the next call.  On a new scraper, as [run_scrape]
    creates one for each run, it holds the products of the call alone. *)
Theorem crawl_result_accumulates (w : World) (self : scraper) (limit : option Z) :
  snd (scrape_all_products w self limit)
  = (products self ++ omap (kept w) (visited w limit))%list
  /\ products (fst (scrape_all_products w self limit))
     = snd (scrape_all_products w self limit)
  /\ snd (scrape_all_products w new_scraper limit) = omap (kept w) (visited w limit).
Proof.
  split; [apply scrape_all_products_returns|].
  split; [reflexivity|].
  rewrite scrape_all_products_returns. reflexivity.
Qed.

(** C10 fails as stated: a second call on the same scraper returns the
    product of the first call together with its own. *)
Lemma second_crawl_returns_earlier_products :
  let self1 := fst (scrape_all_products Examples.catalog_world new_scraper None) in
  let second := snd (scrape_all_products Examples.catalog_world self1 None) in
  length (omap (kept Examples.catalog_world)
               (visited Examples.catalog_world None)) = 1%nat
  /\ length second = 2%nat
  /\ second <> omap (kept Examples.catalog_world)
                    (visited Examples.catalog_world None).
Proof.
  cbv zeta. split; [vm_compute; reflexivity|].
  split; [vm_compute; reflexivity|].
  intros H. apply (f_equal length) in H. vm_compute in H. discriminate.
Qed.

(** *** One option with a price delta *)

Lemma select_option_delta (w : World) (value : option string) (vs : list variant) :
  is_variation_url value = false ->
  select_option w (Some Examples.ten_dollars)
                (OptionEl (Some Examples.delta_text) value None) vs
  = ((vs ++ [Examples.delta_variant])%list, Ok tt).
Proof.
  intros Hvalue. unfold select_option.
  cbn [opt_text opt_value opt_data_price]. cbv zeta.
  assert (E1 : PyStr.strip (default "" (Some Examples.delta_text))
               = Examples.delta_text) by (vm_compute; reflexivity).
  assert (E2 : PyStr.is_empty Examples.delta_text
               || existsb (String.eqb Examples.delta_text) placeholders = false)
    by (vm_compute; reflexivity).
  assert (E3 : size_truthy (option_size Examples.delta_text)
               = Some Examples.delta_text) by (vm_compute; reflexivity).
  assert (E4 : price_method2 (OptionEl (Some Examples.delta_text) value None) JNull
               = Ok JNull) by reflexivity.
  assert (E5 : price_method3 (Some Examples.ten_dollars) Examples.delta_text JNull
               = Ok (JStr "$12.50")) by (vm_compute; reflexivity).
  assert (E6 : price_method4 Examples.delta_text (JStr "$12.50")
               = Ok (JStr "$12.50")) by (vm_compute; reflexivity).
  rewrite E1, E2, E3. unfold price_method1. rewrite Hvalue.
  unfold bind, lift. rewrite E4, E5, E6. reflexivity.
Qed.

Lemma options_of_delta_page (w : World) (tree : page) (value : option string) :
  size_select_options tree = [OptionEl (Some Examples.delta_text) value None] ->
  is_variation_url value = false ->
  find_base_price (price_texts tree) = Ok (Some Examples.ten_dollars) ->
  radio_inputs tree = [] ->
  option_lists tree = [] ->
  extract_variants_from_options w tree = [Examples.delta_variant].
Proof.
  intros Hopts Hvalue Hbase Hradio Hlists.
  unfold extract_variants_from_options, select_options, radio_and_list_options.
  rewrite Hopts, Hbase, Hradio, Hlists.
  unfold run_block, bind, lift. cbn [for_each].
  unfold bind. rewrite (select_option_delta w value [] Hvalue). reflexivity.
Qed.

(** C2, as the code has it: the size of an option is its full text, so
    the page with the single option [1.0floz / 30ml (+$2.50)], a base
    price of $10.00, no data-price and no Product-Variation value gives
    a product whose only size is that full text, priced $12.50, from
    the source option_data. *)
Theorem delta_option_product
        (w : World) (url : string) (response : response) (tree : page)
        (value : option string) :
  fetch w url = Some (response, tree) ->
  size_select_options tree = [OptionEl (Some Examples.delta_text) value None] ->
  is_variation_url value = false ->
  find_base_price (price_texts tree) = Ok (Some Examples.ten_dollars) ->
  radio_inputs tree = [] ->
  option_lists tree = [] ->
  exists p,
    scrape_product_details w url = Some p
    /\ sizes p = ["1.0floz / 30ml (+$2.50)"]
    /\ prices p = {[ "1.0floz / 30ml (+$2.50)" := JStr "$12.50" ]}
    /\ price_sources p = ["option_data"].
Proof.
  intros Hfetch Hopts Hvalue Hbase Hradio Hlists.
  pose proof (options_of_delta_page w tree value Hopts Hvalue Hbase Hradio Hlists)
    as Hvariants.
  assert (Hcoll : collect_variants w response tree
                  = ([Options], [Examples.delta_variant])).
  { rewrite <- Hvariants. apply collect_variants_options.
    rewrite Hvariants. discriminate. }
  assert (Es : consolidate_sizes [Examples.delta_variant]
               = ["1.0floz / 30ml (+$2.50)"]) by (vm_compute; reflexivity).
  assert (Ep : consolidate_prices [Examples.delta_variant]
               = {[ "1.0floz / 30ml (+$2.50)" := JStr "$12.50" ]})
    by (vm_compute; reflexivity).
  assert (Ei : make_price_info {[ "1.0floz / 30ml (+$2.50)" := JStr "$12.50" ]}
               = Ok "$12.50") by (vm_compute; reflexivity).
  assert (Esrc : list_of_set (consolidate_sources [Examples.delta_variant])
                 = ["option_data"]) by (vm_compute; reflexivity).
  unfold scrape_product_details, scrape_with_trace. rewrite Hfetch.
  unfold extract. rewrite Hcoll, Es, Ep, Ei, Esrc. cbn.
  eexists. split; [reflexivity|]. cbn. repeat split; reflexivity.
Qed.

Lemma delta_option_product_witness :
  exists p,
    scrape_product_details Examples.delta_world Examples.page_url = Some p
    /\ sizes p = ["1.0floz / 30ml (+$2.50)"]
    /\ prices p = {[ "1.0floz / 30ml (+$2.50)" := JStr "$12.50" ]}
    /\ price_sources p = ["option_data"].
Proof.
  apply (delta_option_product Examples.delta_world Examples.page_url
           Examples.delta_response Examples.delta_page None).
  - reflexivity.
  - reflexivity.
  - reflexivity.
  - vm_compute. reflexivity.
  - reflexivity.
  - reflexivity.
Defined.

(** C2 fails as stated: on that page the size is not [1.0floz / 30ml],
    and no price is held under that key. *)
Lemma delta_option_size_is_full_text :
  exists p,
    scrape_product_details Examples.delta_world Examples.page_url = Some p
    /\ sizes p <> ["1.0floz / 30ml"]
    /\ prices p !! "1.0floz / 30ml" = None
    /\ prices p <> {[ "1.0floz / 30ml" := JStr "$12.50" ]}.
Proof.
  eexists. split; [vm_compute; reflexivity|].
  split; [cbn; discriminate|].
  split; [vm_compute; reflexivity|].
  cbn. intros H. apply (f_equal (fun m => m !! "1.0floz / 30ml")) in H.
  vm_compute in H. discriminate.
Qed.

(** *** The form of a formatted price *)

Lemma to_list_app (s1 s2 : string) :
  PyStr.to_list (s1 ++ s2) = (PyStr.to_list s1 ++ PyStr.to_list s2)%list.
Proof.
  unfold PyStr.to_list.
  induction s1 as [|c s1 IH]; [reflexivity|].
  change (c :: list_ascii_of_string (s1 ++ s2)
          = c :: (list_ascii_of_string s1 ++ list_ascii_of_string s2)%list).
  f_equal. exact IH.
Qed.

Lemma to_list_of_list (l : list ascii) : PyStr.to_list (PyStr.of_list l) = l.
Proof. apply list_ascii_of_string_of_list_ascii. Qed.

Lemma digit_char_is_digit (d : N) :
  (d < 10)%N -> Chars.is_digit (PyFloat.digit_char d) = true.
Proof.
  intros H.
  assert (Hd : In d [0; 1; 2; 3; 4; 5; 6; 7; 8; 9]%N).
  { cbn. lia. }
  cbn in Hd.
  repeat (destruct Hd as [<- | Hd]; [vm_compute; reflexivity|]).
  destruct Hd.
Qed.

Lemma digits_of_digits (fuel : nat) (n : N) (acc : list ascii) :
  Forall (fun c => Chars.is_digit c = true) acc ->
  Forall (fun c => Chars.is_digit c = true) (PyFloat.digits_of fuel n acc).
Proof.
  revert n acc. induction fuel as [|fuel IH]; intros n acc Hacc; cbn; [exact Hacc|].
  assert (Hacc' : Forall (fun c => Chars.is_digit c = true)
                         (PyFloat.digit_char (n mod 10) :: acc)).
  { constructor; [|exact Hacc].
    apply digit_char_is_digit. apply N.mod_lt. discriminate. }
  destruct (n <? 10)%N; [exact Hacc' | apply IH, Hacc'].
Qed.

Lemma digits_of_not_nil (fuel : nat) (n : N) (acc : list ascii) :
  acc <> [] -> PyFloat.digits_of fuel n acc <> [].
Proof.
  revert n acc. induction fuel as [|fuel IH]; intros n acc Hacc; cbn; [exact Hacc|].
  destruct (n <? 10)%N; [discriminate | apply IH; discriminate].
Qed.

Lemma string_of_N_digits (n : N) :
  exists d ds,
    PyStr.to_list (PyFloat.string_of_N n) = d :: ds
    /\ Forall (fun c => Chars.is_digit c = true) (d :: ds).
Proof.
  unfold PyFloat.string_of_N. rewrite to_list_of_list.
  pose proof (digits_of_digits (S (N.size_nat n)) n [] (List.Forall_nil _)) as Hd.
  destruct (PyFloat.digits_of (S (N.size_nat n)) n []) as [|d ds] eqn:E.
  - exfalso. cbn in E. destruct (n <? 10)%N; [discriminate|].
    revert E. apply digits_of_not_nil. discriminate.
  - exists d, ds. split; [reflexivity | exact Hd].
Qed.

Lemma string_of_N_small (n : N) :
  (n < 10)%N ->
  PyStr.to_list (PyFloat.string_of_N n) = [PyFloat.digit_char n].
Proof.
  intros H. unfold PyFloat.string_of_N. rewrite to_list_of_list.
  cbn [PyFloat.digits_of]. apply N.ltb_lt in H as H'. rewrite H'.
  rewrite N.mod_small by exact H. reflexivity.
Qed.

Lemma span_digits_until (ds : list ascii) (c : ascii) (rest : list ascii) :
  Forall (fun c => Chars.is_digit c = true) ds ->
  Chars.is_digit c = false ->
  PyFloat.span_digits (ds ++ c :: rest) = (ds, c :: rest).
Proof.
  intros Hds Hc. induction Hds as [|d ds Hd _ IH]; cbn.
  - rewrite Hc. reflexivity.
  - rewrite Hd, IH. reflexivity.
Qed.

Lemma cents_form (c : N) :
  is_dollar_amount ("$" ++ PyFloat.cents_to_string c) = true.
Proof.
  unfold is_dollar_amount, PyFloat.cents_to_string, PyFloat.two_digits.
  rewrite !to_list_app.
  change (PyStr.to_list "$") with ["$"%char].
  change (PyStr.to_list ".") with ["."%char].
  cbn [app].
  assert (Hr : (c mod 100 < 100)%N) by (apply N.mod_lt; discriminate).
  assert (H1 : ((c mod 100) / 10 < 10)%N)
    by (apply N.Div0.div_lt_upper_bound; exact Hr).
  assert (H2 : ((c mod 100) mod 10 < 10)%N) by (apply N.mod_lt; discriminate).
  rewrite (string_of_N_small _ H1), (string_of_N_small _ H2).
  destruct (string_of_N_digits (c / 100)) as (d & ds & -> & Hds).
  rewrite span_digits_until; [|exact Hds | reflexivity].
  cbn [is_nil negb andb app].
  rewrite (digit_char_is_digit _ H1), (digit_char_is_digit _ H2). reflexivity.
Qed.

Lemma dollars_form (x : spec_float) :
  nonneg_finite x = true -> is_dollar_amount (dollars x) = true.
Proof.
  destruct x as [[|]|[|]| |[|] m e]; cbn [nonneg_finite]; try discriminate; intros _.
  - reflexivity.
  - unfold dollars, PyFloat.format_2f. cbn [PyFloat.sign_string append].
    apply cents_form.
Qed.

(** *** The prices a product holds *)

Lemma fold_add_price_lookup (vs : list variant) (m : gmap string json)
      (k : string) (v : json) :
  fold_left add_price vs m !! k = Some v ->
  m !! k = Some v
  \/ exists x, In x vs /\ size x = k /\ price x = v /\ has_price x = true.
Proof.
  revert m. induction vs as [|x vs IH]; intros m; cbn; [auto|].
  intros H. apply IH in H as [H | (y & Hy & H)]; [|right; exists y; tauto].
  unfold add_price in H. destruct (Py.truthy (price x)) eqn:Hp; [|auto].
  destruct (decide (size x = k)) as [<-|Hne].
  - rewrite lookup_insert_eq in H. injection H as <-.
    right. exists x. auto.
  - rewrite lookup_insert_ne in H by exact Hne. auto.
Qed.

Lemma make_price_info_strings (prices : gmap string json) (info : string)
      (k : string) (v : json) :
  make_price_info prices = Ok info -> prices !! k = Some v ->
  exists s, v = JStr s.
Proof.
  unfold make_price_info. intros H Hk.
  destruct (bool_decide (prices = ∅)) eqn:He.
  - apply bool_decide_eq_true in He. subst. rewrite lookup_empty in Hk.
    discriminate.
  - destruct (mapM as_string (snd <$> map_to_list prices)) as [l|] eqn:El;
      [|discriminate].
    apply mapM_Some in El.
    assert (Hin : v ∈ snd <$> map_to_list prices).
    { apply list_elem_of_fmap. exists (k, v). split; [reflexivity|].
      apply elem_of_map_to_list. exact Hk. }
    apply list_elem_of_lookup in Hin as [i Hi].
    destruct (Forall2_lookup_l _ _ _ _ _ El Hi) as (s & _ & Hs).
    destruct v; try discriminate. eauto.
Qed.

(** C4 fails as stated: the variation client returns the formatted
    price of the JSON body as it is, and the product holds it with its
    thousands separator. *)
Lemma variation_price_kept_verbatim :
  exists p,
    scrape_product_details Examples.variation_world Examples.page_url = Some p
    /\ prices p !! "30ml" = Some (JStr "$1,234.50")
    /\ price_sources p = ["dynamic_api"]
    /\ is_dollar_amount "$1,234.50" = false.
Proof.
  eexists. split; [vm_compute; reflexivity|].
  repeat split; vm_compute; reflexivity.
Qed.

(** *** The matcher and what a pattern matches *)

Lemma last_of_app (p : option ascii) (u1 u2 : list ascii) :
  last_of (last_of p u1) u2 = last_of p (u1 ++ u2).
Proof.
  unfold last_of. rewrite last_app.
  destruct (last u2); reflexivity.
Qed.

Lemma last_of_nil (p : option ascii) : last_of p [] = p.
Proof. reflexivity. Qed.

Lemma word_before_eq (st : mstate) : word_before st = is_word_opt (prev st).
Proof. reflexivity. Qed.

Lemma word_after_eq (st : mstate) : word_after st = is_word_opt (head (rest st)).
Proof. unfold word_after. destruct (rest st); reflexivity. Qed.

Lemma progress_shorter (st st' : mstate) (u : list ascii) :
  rest st = (u ++ rest st')%list -> progress st st' = true <-> u <> [].
Proof.
  intros H. unfold progress. rewrite H, length_app, Nat.ltb_lt.
  destruct u; cbn; split; intros; try congruence; lia.
Qed.

Lemma star_greedy_sound (r : regex) (n : nat) :
  sound_step (run r) r -> sound_step (star_greedy (run r) n) (Star r).
Proof.
  intros Hr. induction n as [|n IH]; intros st st'; cbn.
  - intros [<- | []]. exists []. repeat split. constructor.
  - rewrite in_app_iff, in_flat_map. intros [(st1 & H1 & H2) | [<- | []]].
    + apply List.filter_In in H1 as [H1 Hp].
      apply Hr in H1 as (u1 & E1 & P1 & M1).
      apply IH in H2 as (u2 & E2 & P2 & M2).
      exists (u1 ++ u2)%list. rewrite E1, E2, <- app_assoc. split; [reflexivity|].
      rewrite P2, P1, last_of_app. split; [reflexivity|].
      apply M_StarCons.
      * apply (progress_shorter _ _ _ E1). exact Hp.
      * rewrite <- E2. exact M1.
      * rewrite <- P1. exact M2.
    + exists []. repeat split. constructor.
Qed.

Lemma star_lazy_sound (r : regex) (n : nat) :
  sound_step (run r) r -> sound_step (star_lazy (run r) n) (LazyStar r).
Proof.
  intros Hr. induction n as [|n IH]; intros st st'; cbn.
  - intros [<- | []]. exists []. repeat split. constructor.
  - rewrite in_flat_map. intros [<- | (st1 & H1 & H2)].
    + exists []. repeat split. constructor.
    + apply List.filter_In in H1 as [H1 Hp].
      apply Hr in H1 as (u1 & E1 & P1 & M1).
      apply IH in H2 as (u2 & E2 & P2 & M2).
      exists (u1 ++ u2)%list. rewrite E1, E2, <- app_assoc. split; [reflexivity|].
      rewrite P2, P1, last_of_app. split; [reflexivity|].
      apply M_LazyCons.
      * apply (progress_shorter _ _ _ E1). exact Hp.
      * rewrite <- E2. exact M1.
      * rewrite <- P1. exact M2.
Qed.

(** Every way the matcher finds is a match of the pattern. *)
Lemma run_sound (r : regex) : sound_step (run r) r.
Proof.
  induction r as [|f|r1 IH1 r2 IH2|r1 IH1 r2 IH2|r IH|r IH|r IH|];
    intros st st'; cbn [run].
  - intros [<- | []]. exists []. repeat split. constructor.
  - destruct (rest st) as [|c t] eqn:E; [intros []|].
    destruct (f c) eqn:Hf; [|intros []].
    intros [<- | []]. exists [c]. repeat split. constructor. exact Hf.
  - rewrite in_flat_map. intros (st1 & H1 & H2).
    apply IH1 in H1 as (u1 & E1 & P1 & M1).
    apply IH2 in H2 as (u2 & E2 & P2 & M2).
    exists (u1 ++ u2)%list. rewrite E1, E2, <- app_assoc. split; [reflexivity|].
    rewrite P2, P1, last_of_app. split; [reflexivity|].
    apply M_Cat; [rewrite <- E2; exact M1 | rewrite <- P1; exact M2].
  - rewrite in_app_iff. intros [H | H].
    + apply IH1 in H as (u & E & P & M). exists u. auto using M_AltL.
    + apply IH2 in H as (u & E & P & M). exists u. auto using M_AltR.
  - apply star_greedy_sound, IH.
  - apply star_lazy_sound, IH.
  - rewrite in_map_iff. intros (st1 & <- & H).
    apply IH in H as (u & E & P & M). exists u. cbn. auto using M_Grp.
  - destruct (xorb (word_before st) (word_after st)) eqn:Hx; [|intros []].
    intros [<- | []]. exists []. repeat split. constructor.
    rewrite <- word_before_eq, <- word_after_eq. exact Hx.
Qed.

(** The fuel of a repetition does not matter once it covers the text. *)
Lemma filter_progress_shorter (st st1 : mstate) (l : list mstate) :
  In st1 (List.filter (progress st) l) ->
  (length (rest st1) < length (rest st))%nat.
Proof.
  intros H. apply List.filter_In in H as [_ H].
  unfold progress in H. apply Nat.ltb_lt in H. exact H.
Qed.

Lemma filter_progress_none (st : mstate) (l : list mstate) :
  length (rest st) = 0%nat -> List.filter (progress st) l = [].
Proof.
  intros H. induction l as [|x l IH]; cbn; [reflexivity|].
  unfold progress at 1. rewrite H. cbn. exact IH.
Qed.

Lemma flat_map_ext_in {A B : Type} (f g : A -> list B) (l : list A) :
  (forall x, In x l -> f x = g x) -> flat_map f l = flat_map g l.
Proof.
  intros H. induction l as [|x l IH]; cbn; [reflexivity|].
  rewrite (H x) by (left; reflexivity).
  rewrite IH; [reflexivity|]. intros y Hy. apply H. right. exact Hy.
Qed.

Lemma star_greedy_fuel (step : mstate -> list mstate) (n m : nat) (st : mstate) :
  (length (rest st) <= n)%nat -> (length (rest st) <= m)%nat ->
  star_greedy step n st = star_greedy step m st.
Proof.
  revert m st. induction n as [|n IH]; intros [|m] st Hn Hm; cbn;
    try reflexivity.
  - rewrite filter_progress_none by lia. reflexivity.
  - rewrite filter_progress_none by lia. reflexivity.
  - f_equal. apply flat_map_ext_in. intros st1 H1.
    apply filter_progress_shorter in H1. apply IH; lia.
Qed.

Lemma star_lazy_fuel (step : mstate -> list mstate) (n m : nat) (st : mstate) :
  (length (rest st) <= n)%nat -> (length (rest st) <= m)%nat ->
  star_lazy step n st = star_lazy step m st.
Proof.
  revert m st. induction n as [|n IH]; intros [|m] st Hn Hm; cbn;
    try reflexivity.
  - rewrite filter_progress_none by lia. reflexivity.
  - rewrite filter_progress_none by lia. reflexivity.
  - f_equal. apply flat_map_ext_in. intros st1 H1.
    apply filter_progress_shorter in H1. apply IH; lia.
Qed.

Lemma star_greedy_self (step : mstate -> list mstate) (n : nat) (st : mstate) :
  In st (star_greedy step n st).
Proof.
  destruct n; cbn; [left; reflexivity|].
  apply in_or_app. right. left. reflexivity.
Qed.

Lemma star_lazy_self (step : mstate -> list mstate) (n : nat) (st : mstate) :
  In st (star_lazy step n st).
Proof. destruct n; cbn; left; reflexivity. Qed.

(** Every match of the pattern is among the ways the matcher finds. *)
Lemma run_complete (r : regex) (p : option ascii) (u t : list ascii) :
  Matches r p u t ->
  forall g, exists st',
    In st' (run r (MState p (u ++ t) g))
    /\ rest st' = t /\ prev st' = last_of p u.
Proof.
  induction 1 as [p t|f c p t Hf|r1 r2 p u1 u2 t _ IH1 _ IH2
                 |r1 r2 p u t _ IH|r1 r2 p u t _ IH
                 |r p t|r p u1 u2 t Hne _ IH1 _ IH2
                 |r p t|r p u1 u2 t Hne _ IH1 _ IH2
                 |r p u t _ IH|p t Hx]; intros g.
  - exists (MState p t g). cbn. auto.
  - exists (MState (Some c) t g). cbn. rewrite Hf. cbn. auto.
  - destruct (IH1 g) as ([p1 t1 g1] & H1 & E1 & P1). cbn in E1, P1. subst.
    destruct (IH2 g1) as (st' & H2 & E2 & P2).
    exists st'. rewrite <- app_assoc. cbn [run]. rewrite in_flat_map.
    split; [eauto|]. rewrite P2, last_of_app. auto.
  - destruct (IH g) as (st' & H & E). exists st'. cbn [run].
    rewrite in_app_iff. auto.
  - destruct (IH g) as (st' & H & E). exists st'. cbn [run].
    rewrite in_app_iff. auto.
  - exists (MState p t g). split; [apply star_greedy_self | auto].
  - destruct (IH1 g) as ([p1 t1 g1] & H1 & E1 & P1). cbn in E1, P1. subst.
    destruct (IH2 g1) as (st' & H2 & E2 & P2).
    exists st'. rewrite P2, last_of_app. split; [|auto].
    rewrite <- app_assoc. cbn [run rest] in *.
    destruct u1 as [|c u1]; [congruence|].
    cbn [app length star_greedy]. apply in_or_app. left.
    apply in_flat_map. exists (MState (last_of p (c :: u1)) (u2 ++ t) g1).
    split.
    + apply List.filter_In. split; [exact H1|].
      unfold progress. cbn [rest length]. apply Nat.ltb_lt.
      rewrite !length_app. lia.
    + rewrite (star_greedy_fuel _ _ (length (u2 ++ t))); [exact H2| |];
        cbn [rest]; rewrite ?length_app; lia.
  - exists (MState p t g). split; [apply star_lazy_self | auto].
  - destruct (IH1 g) as ([p1 t1 g1] & H1 & E1 & P1). cbn in E1, P1. subst.
    destruct (IH2 g1) as (st' & H2 & E2 & P2).
    exists st'. rewrite P2, last_of_app. split; [|auto].
    rewrite <- app_assoc. cbn [run rest] in *.
    destruct u1 as [|c u1]; [congruence|].
    cbn [app length star_lazy]. right.
    apply in_flat_map. exists (MState (last_of p (c :: u1)) (u2 ++ t) g1).
    split.
    + apply List.filter_In. split; [exact H1|].
      unfold progress. cbn [rest length]. apply Nat.ltb_lt.
      rewrite !length_app. lia.
    + rewrite (star_lazy_fuel _ _ (length (u2 ++ t))); [exact H2| |];
        cbn [rest]; rewrite ?length_app; lia.
  - destruct (IH g) as ([p1 t1 g1] & H & E & P). cbn in E, P. subst.
    eexists. cbn [run]. rewrite in_map_iff. split; [eexists; split; [|exact H]|].
    + reflexivity.
    + cbn. auto.
  - exists (MState p t g). cbn [run].
    rewrite word_before_eq, word_after_eq. cbn [prev rest app]. rewrite Hx.
    cbn. auto.
Qed.

Lemma match_here_Some (r : regex) (start : nat) (st : mstate) :
  (exists m, match_here r start st = Some m)
  <-> exists u post, rest st = (u ++ post)%list /\ Matches r (prev st) u post.
Proof.
  unfold match_here. split.
  - intros [m H]. destruct (run r st) as [|st' l] eqn:E; [discriminate|].
    assert (Hin : In st' (run r st)) by (rewrite E; left; reflexivity).
    apply run_sound in Hin as (u & Eu & _ & M). eauto.
  - intros (u & post & E & M). destruct st as [p s g]. cbn in E, M. subst.
    destruct (run_complete _ _ _ _ M g) as (st' & Hin & _).
    destruct (run r (MState p (u ++ post) g)); [destruct Hin | eauto].
Qed.

Lemma last_of_cons (p : option ascii) (c : ascii) (l : list ascii) :
  last_of p (c :: l) = last_of (Some c) l.
Proof.
  unfold last_of. destruct l as [|d l]; [reflexivity|].
  rewrite last_cons. destruct (last (d :: l)); reflexivity.
Qed.

Lemma search_from_Some (r : regex) (s : list ascii) (start : nat) (p : option ascii) :
  (exists m, search_from r start p s = Some m)
  <-> exists pre u post,
      s = (pre ++ u ++ post)%list /\ Matches r (last_of p pre) u post.
Proof.
  revert start p. induction s as [|c s IH]; intros start p; cbn [search_from].
  - pose proof (match_here_Some r start (MState p [] None)) as Hhere.
    cbn [rest prev] in Hhere. split.
    + intros [m H].
      destruct (match_here r start (MState p [] None)) eqn:E; [|discriminate].
      destruct (proj1 Hhere (ex_intro _ _ eq_refl)) as (u & post & Eu & M).
      exists [], u, post. auto.
    + intros (pre & u & post & E & M).
      destruct pre; [|discriminate]. cbn in E, M.
      destruct (proj2 Hhere (ex_intro _ u (ex_intro _ post (conj E M)))) as [m ->].
      eauto.
  - pose proof (match_here_Some r start (MState p (c :: s) None)) as Hhere.
    cbn [rest prev] in Hhere. split.
    + intros [m H].
      destruct (match_here r start (MState p (c :: s) None)) eqn:E.
      * destruct (proj1 Hhere (ex_intro _ _ eq_refl)) as (u & post & Eu & M).
        exists [], u, post. auto.
      * destruct (proj1 (IH _ _) (ex_intro _ m H)) as (pre & u & post & -> & M).
        exists (c :: pre), u, post. rewrite last_of_cons. auto.
    + intros (pre & u & post & E & M).
      destruct (match_here r start (MState p (c :: s) None)) eqn:Eh; [eauto|].
      destruct pre as [|c' pre].
      * cbn in E, M.
        destruct (proj2 Hhere (ex_intro _ u (ex_intro _ post (conj E M))))
          as [m Hm]. discriminate.
      * cbn in E. injection E as <- ->. rewrite last_of_cons in M.
        apply IH. eauto.
Qed.

Lemma matches_found_in (r : regex) (s : string) :
  matches r s = true <-> found_in r s.
Proof.
  unfold matches, search, found_in.
  rewrite <- (search_from_Some r (list_ascii_of_string s) 0 None).
  destruct (search_from r 0 None (list_ascii_of_string s)); split;
    try discriminate; eauto.
  intros [m H]. discriminate.
Qed.

(** *** What the patterns of the classifier match *)

Lemma Matches_Eps (p : option ascii) (u t : list ascii) :
  Matches Eps p u t <-> u = [].
Proof.
  split; [inversion 1; reflexivity | intros ->; constructor].
Qed.

Lemma Matches_Cls (f : ascii -> bool) (p : option ascii) (u t : list ascii) :
  Matches (Cls f) p u t <-> exists c, u = [c] /\ f c = true.
Proof.
  split.
  - inversion 1; subst. eauto.
  - intros (c & -> & H). constructor. exact H.
Qed.

Lemma Matches_Cat (r1 r2 : regex) (p : option ascii) (u t : list ascii) :
  Matches (Cat r1 r2) p u t
  <-> exists u1 u2,
      u = (u1 ++ u2)%list
      /\ Matches r1 p u1 (u2 ++ t) /\ Matches r2 (last_of p u1) u2 t.
Proof.
  split.
  - inversion 1; subst. eauto.
  - intros (u1 & u2 & -> & H1 & H2). constructor; assumption.
Qed.

Lemma Matches_Alt (r1 r2 : regex) (p : option ascii) (u t : list ascii) :
  Matches (Alt r1 r2) p u t <-> Matches r1 p u t \/ Matches r2 p u t.
Proof.
  split.
  - inversion 1; subst; auto.
  - intros [H | H]; [apply M_AltL | apply M_AltR]; exact H.
Qed.

Lemma Matches_Star_Cls (f : ascii -> bool) (p : option ascii) (u t : list ascii) :
  Matches (Star (Cls f)) p u t <-> all_of f u.
Proof.
  unfold all_of. split.
  - intros H. remember (Star (Cls f)) as r eqn:Er.
    induction H as [| | | | | |r p u1 u2 t Hne H1 _ H2 IH2| | | |];
      try discriminate; [constructor|].
    injection Er as ->. apply Matches_Cls in H1 as (c & -> & Hc).
    constructor; [exact Hc | apply IH2; reflexivity].
  - intros H. revert p. induction H as [|c u Hc _ IH]; intros p; [constructor|].
    apply (M_StarCons (Cls f) p [c] u t); [discriminate | |apply IH].
    constructor. exact Hc.
Qed.

Lemma Matches_Plus_Cls (f : ascii -> bool) (p : option ascii) (u t : list ascii) :
  Matches (Plus (Cls f)) p u t <-> u <> [] /\ all_of f u.
Proof.
  unfold Plus. rewrite Matches_Cat. split.
  - intros (u1 & u2 & -> & H1 & H2).
    apply Matches_Cls in H1 as (c & -> & Hc). apply Matches_Star_Cls in H2.
    split; [discriminate | constructor; assumption].
  - intros [Hne H]. destruct H as [|c u Hc H]; [congruence|].
    exists [c], u. split; [reflexivity|]. split.
    + constructor. exact Hc.
    + apply Matches_Star_Cls. exact H.
Qed.

Lemma Matches_Chr (c : ascii) (p : option ascii) (u t : list ascii) :
  Matches (Chr c) p u t <-> u = [c].
Proof.
  unfold Chr. rewrite Matches_Cls. split.
  - intros (x & -> & H). apply Ascii.eqb_eq in H. subst. reflexivity.
  - intros ->. exists c. split; [reflexivity | apply Ascii.eqb_refl].
Qed.

(** A literal matches its own text and nothing else. *)
Lemma Matches_literal (l : list ascii) (p : option ascii) (u t : list ascii) :
  Matches (Seq (map Chr l)) p u t <-> u = l.
Proof.
  revert p u. induction l as [|c [|c' l] IH]; intros p u.
  - apply Matches_Eps.
  - apply Matches_Chr.
  - change (Seq (map Chr (c :: c' :: l)))
      with (Cat (Chr c) (Seq (map Chr (c' :: l)))).
    rewrite Matches_Cat. split.
    + intros (u1 & u2 & -> & H1 & H2).
      apply Matches_Chr in H1 as ->. apply IH in H2 as ->. reflexivity.
    + intros ->. exists [c], (c' :: l). split; [reflexivity|]. split.
      * apply Matches_Chr. reflexivity.
      * apply IH. reflexivity.
Qed.

(** The product pattern matches the product codes, with the extension
    as it is written. *)
Lemma product_code_matches (p : option ascii) (u t : list ascii) :
  Matches product_code p u t <-> product_code_text html_exact u.
Proof.
  unfold product_code, product_code_text, html_exact. cbn [Seq]. split.
  - intros H.
    apply Matches_Cat in H as (l1 & ? & -> & H1 & H).
    apply Matches_Cat in H as (l2 & ? & -> & H2 & H).
    apply Matches_Cat in H as (l3 & ? & -> & H3 & H).
    apply Matches_Cat in H as (l4 & ? & -> & H4 & H).
    apply Matches_Cat in H as (h1 & ? & -> & Hh1 & H).
    apply Matches_Cat in H as (code & ? & -> & Hcode & H).
    apply Matches_Cat in H as (h2 & ? & -> & Hh2 & H).
    apply Matches_Cat in H as (digits & ext & -> & Hdigits & Hext).
    apply Matches_Cls in H1 as (c1 & -> & U1).
    apply Matches_Cls in H2 as (c2 & -> & U2).
    apply Matches_Cls in H3 as (c3 & -> & U3).
    apply Matches_Chr in Hh1 as ->. apply Matches_Chr in Hh2 as ->.
    apply Matches_Plus_Cls in Hcode as [Hc1 Hc2].
    apply Matches_Plus_Cls in Hdigits as [Hd1 Hd2].
    apply Matches_literal in Hext as ->.
    apply Matches_Alt in H4 as [H4 | H4].
    + apply Matches_Cls in H4 as (c4 & -> & U4).
      exists [c1; c2; c3; c4], code, digits, (PyStr.to_list ".html").
      repeat split; auto. repeat constructor; assumption.
    + apply Matches_Eps in H4 as ->.
      exists [c1; c2; c3], code, digits, (PyStr.to_list ".html").
      repeat split; auto. repeat constructor; assumption.
  - intros (letters & code & digits & ext & -> & Hlen & Hl & Hc1 & Hc2 & Hd1 & Hd2 & ->).
    assert (Htail : forall q,
               Matches (Cat (Chr "-")
                          (Cat (Plus UpperDigit)
                             (Cat (Chr "-") (Cat (Plus Digit) (Lit ".html")))))
                       q ("-"%char :: code ++ "-"%char :: digits
                            ++ PyStr.to_list ".html") t).
    { intros q. apply Matches_Cat. exists ["-"%char]. eexists.
      split; [reflexivity|]. split; [apply Matches_Chr; reflexivity|].
      apply Matches_Cat. exists code. eexists.
      split; [reflexivity|]. split; [apply Matches_Plus_Cls; auto|].
      apply Matches_Cat. exists ["-"%char]. eexists.
      split; [reflexivity|]. split; [apply Matches_Chr; reflexivity|].
      apply Matches_Cat. exists digits. eexists.
      split; [reflexivity|]. split; [apply Matches_Plus_Cls; auto|].
      apply Matches_literal. reflexivity. }
    assert (Hone : forall c q v r,
               Chars.is_upper c = true -> (forall q', Matches r q' v t) ->
               Matches (Cat Upper r) q (c :: v) t).
    { intros c q v r Hc Hr. apply Matches_Cat. exists [c], v.
      split; [reflexivity|]. split; [apply Matches_Cls; eauto | apply Hr]. }
    destruct letters as [|c1 [|c2 [|c3 [|c4 [|c5 letters]]]]];
      cbn in Hlen; try (destruct Hlen; discriminate).
    + apply Forall_cons in Hl as [U1 Hl]. apply Forall_cons in Hl as [U2 Hl].
      apply Forall_cons in Hl as [U3 _]. cbn [app].
      apply Hone; [exact U1|]. intros ?. apply Hone; [exact U2|]. intros ?.
      apply Hone; [exact U3|]. intros ?.
      apply Matches_Cat. exists []. eexists. split; [reflexivity|].
      split; [|apply Htail]. apply M_AltR. constructor.
    + apply Forall_cons in Hl as [U1 Hl]. apply Forall_cons in Hl as [U2 Hl].
      apply Forall_cons in Hl as [U3 Hl]. apply Forall_cons in Hl as [U4 _].
      cbn [app].
      apply Hone; [exact U1|]. intros ?. apply Hone; [exact U2|]. intros ?.
      apply Hone; [exact U3|]. intros ?.
      apply Matches_Cat. exists [c4]. eexists. split; [reflexivity|].
      split; [|apply Htail]. apply M_AltL. constructor. exact U4.
Qed.

Lemma lower_eqb (a b : ascii) :
  Chars.eqb_nocase a b = true <-> Chars.lower b = Chars.lower a.
Proof.
  unfold Chars.eqb_nocase. rewrite Ascii.eqb_eq. split; congruence.
Qed.

(** A literal under IGNORECASE matches its text in any case. *)
Lemma Matches_literal_nocase (l : list ascii) (p : option ascii) (u t : list ascii) :
  Matches (Seq (map ChrI l)) p u t <-> map Chars.lower u = map Chars.lower l.
Proof.
  revert p u. induction l as [|c [|c' l] IH]; intros p u.
  - rewrite Matches_Eps. destruct u; cbn; split; congruence.
  - cbn [map Seq]. unfold ChrI. rewrite Matches_Cls. split.
    + intros (x & -> & H). apply lower_eqb in H. cbn. congruence.
    + destruct u as [|x [|y u]]; cbn; try discriminate. intros [= H].
      exists x. split; [reflexivity | apply lower_eqb; exact H].
  - change (Seq (map ChrI (c :: c' :: l)))
      with (Cat (ChrI c) (Seq (map ChrI (c' :: l)))).
    rewrite Matches_Cat. split.
    + intros (u1 & u2 & -> & H1 & H2).
      unfold ChrI in H1. apply Matches_Cls in H1 as (x & -> & H1).
      apply lower_eqb in H1. apply IH in H2.
      cbn [app map]. rewrite H1, H2. reflexivity.
    + destruct u as [|x u]; [discriminate|]. cbn [map]. intros [= H1 H2].
      exists [x], u. split; [reflexivity|]. split.
      * unfold ChrI. apply Matches_Cls. exists x.
        split; [reflexivity | apply lower_eqb; exact H1].
      * apply IH. exact H2.
Qed.

Lemma Matches_LitI (s : string) (p : option ascii) (u t : list ascii) :
  Matches (LitI s) p u t <-> same_nocase u s.
Proof. apply Matches_literal_nocase. Qed.

Lemma found_in_LitI (s url : string) :
  found_in (LitI s) url
  <-> exists pre u post,
      PyStr.to_list url = (pre ++ u ++ post)%list /\ same_nocase u s.
Proof.
  unfold found_in. split; intros (pre & u & post & E & H);
    exists pre, u, post; (split; [exact E|]).
  - apply Matches_LitI in H. exact H.
  - apply Matches_LitI. exact H.
Qed.

Lemma paginated_matches (p : option ascii) (u t : list ascii) :
  Matches (Seq [LitI "_ep_"; Plus Digit; LitI ".html"]) p u t
  <-> exists a digits b,
      u = (a ++ digits ++ b)%list
      /\ same_nocase a "_ep_"
      /\ digits <> [] /\ all_of Chars.is_digit digits
      /\ same_nocase b ".html".
Proof.
  cbn [Seq]. rewrite Matches_Cat. split.
  - intros (a & ? & -> & Ha & H).
    apply Matches_Cat in H as (digits & b & -> & Hd & Hb).
    apply Matches_LitI in Ha. apply Matches_LitI in Hb.
    apply Matches_Plus_Cls in Hd as [Hd1 Hd2].
    exists a, digits, b. auto.
  - intros (a & digits & b & -> & Ha & Hd1 & Hd2 & Hb).
    exists a, (digits ++ b)%list. split; [reflexivity|]. split.
    + apply Matches_LitI. exact Ha.
    + apply Matches_Cat. exists digits, b. split; [reflexivity|]. split.
      * apply Matches_Plus_Cls. auto.
      * apply Matches_LitI. exact Hb.
Qed.

(** The exclusion patterns find the excluded texts. *)
Lemma excluded_meaning (url : string) :
  excluded url = true <-> contains_exclusion url.
Proof.
  unfold excluded, exclude_patterns. cbn [existsb].
  rewrite !orb_true_iff, !matches_found_in, !found_in_LitI.
  unfold contains_exclusion, exclusion_text, found_in. split.
  - intros [(pre & u & post & E & H) | [H | [H | [H | [H | [H | H]]]]]];
      [apply paginated_matches in H | | | | | |discriminate];
      [|destruct H as (pre & u & post & E & H)..];
      exists pre, u, post; (split; [exact E|]); tauto.
  - intros (pre & u & post & E & [H | [H | [H | [H | [H | H]]]]]);
      [left; exists pre, u, post; split; [exact E|];
       apply paginated_matches; exact H
      |right; left | right; right; left | right; right; right; left
      |right; right; right; right; left
      |right; right; right; right; right; left];
      exists pre, u, post; auto.
Qed.

Lemma found_product_code (url : string) :
  found_in product_code url <-> contains_product_code html_exact url.
Proof.
  unfold found_in, contains_product_code.
  split; intros (pre & u & post & E & H); exists pre, u, post;
    (split; [exact E|]).
  - apply product_code_matches in H. exact H.
  - apply product_code_matches. exact H.
Qed.

Lemma found_after_slash (url : string) :
  found_in (Cat (Chr "/") product_code) url -> found_in product_code url.
Proof.
  intros (pre & u & post & E & H).
  apply Matches_Cat in H as (u1 & u2 & -> & _ & H).
  exists (pre ++ u1)%list, u2, post. split.
  - rewrite E, <- !app_assoc. reflexivity.
  - apply product_code_matches. apply product_code_matches in H. exact H.
Qed.

Lemma product_code_not_empty (extension : list ascii -> Prop) (url : string) :
  contains_product_code extension url -> PyStr.is_empty url = false.
Proof.
  intros (pre & u & post & E & letters & code & digits & ext & -> & _).
  destruct url; [|reflexivity]. cbn in E.
  destruct pre; [|discriminate]. destruct letters; discriminate.
Qed.

Lemma is_product_url_meaning (url : string) :
  is_product_url url = true
  <-> excluded url = false /\ contains_product_code html_exact url.
Proof.
  unfold is_product_url, product_patterns. cbn [existsb].
  rewrite <- found_product_code. split.
  - destruct (PyStr.is_empty url); [discriminate|].
    destruct (excluded url); [discriminate|].
    rewrite !orb_true_iff, !matches_found_in.
    intros [H | [H | H]]; [auto | auto using found_after_slash | discriminate].
  - intros [He H]. rewrite He.
    rewrite (product_code_not_empty html_exact) by (apply found_product_code, H).
    apply matches_found_in in H. rewrite H. reflexivity.
Qed.

(** C5, as the code has it: a URL that contains an excluded text is
    never a product URL; any other URL is one exactly when it contains
    a product code: three or four upper-case letters, a hyphen, upper-
    case letters and digits, a hyphen, digits and [.html], all of it
    matched case-sensitively, the extension too. *)
Theorem classifier_meaning (url : string) :
  (contains_exclusion url -> is_product_url url = false)
  /\ (~ contains_exclusion url ->
      (is_product_url url = true <-> contains_product_code html_exact url)).
Proof.
  rewrite <- excluded_meaning, is_product_url_meaning. split.
  - intros He. apply not_true_iff_false. intros H.
    apply is_product_url_meaning in H as [H _]. congruence.
  - intros He. apply not_true_iff_false in He. tauto.
Qed.

Lemma classifier_meaning_witness :
  is_product_url "/Formulas/ABC-DEF-01.html" = false
  /\ (is_product_url "/ABC-DEF-01.html" = true
      <-> contains_product_code html_exact "/ABC-DEF-01.html").
Proof.
  split.
  - apply (proj1 (classifier_meaning "/Formulas/ABC-DEF-01.html")).
    apply excluded_meaning. vm_compute. reflexivity.
  - apply (proj2 (classifier_meaning "/ABC-DEF-01.html")).
    rewrite <- excluded_meaning. vm_compute. discriminate.
Defined.

(** C5 fails as stated: with the extension in upper case the URL has a
    product code in the sense of the specification and no excluded
    text, and the classifier rejects it. *)
Lemma upper_case_extension_rejected : ~ classifier_as_specified.
Proof.
  intros H. destruct (H "ABC-DEF-01.HTML") as [_ H2].
  assert (Hex : ~ contains_exclusion "ABC-DEF-01.HTML").
  { rewrite <- excluded_meaning. vm_compute. discriminate. }
  assert (Hcode : contains_product_code html_any_case "ABC-DEF-01.HTML").
  { exists [], (PyStr.to_list "ABC-DEF-01.HTML"), [].
    split; [reflexivity|].
    exists (PyStr.to_list "ABC"), (PyStr.to_list "DEF"), (PyStr.to_list "01"),
      (PyStr.to_list ".HTML").
    repeat split; try discriminate; auto; repeat constructor. }
  apply (H2 Hex) in Hcode. vm_compute in Hcode. discriminate.
Qed.

(** *** Floats read from amounts are not negative *)

Lemma shr_1_nonneg (mrs : shr_record) : 0 <= shr_m mrs -> 0 <= shr_m (shr_1 mrs).
Proof.
  destruct mrs as [m r s]. cbn.
  destruct m as [|[p|p|]|[p|p|]]; cbn; lia.
Qed.

Lemma iter_shr_1_nonneg (n : positive) (mrs : shr_record) :
  0 <= shr_m mrs -> 0 <= shr_m (SpecFloat.iter_pos shr_1 n mrs).
Proof.
  revert mrs. induction n as [n IH|n IH|]; intros mrs H; cbn.
  - apply IH, IH, shr_1_nonneg, H.
  - apply IH, IH, H.
  - apply shr_1_nonneg, H.
Qed.

Lemma shr_fexp_nonneg (m e : Z) (l : location) :
  0 <= m -> 0 <= shr_m (fst (shr_fexp PyFloat.prec PyFloat.emax m e l)).
Proof.
  intros H. unfold shr_fexp, shr.
  assert (H0 : 0 <= shr_m (shr_record_of_loc m l)).
  { destruct l as [|[| |]]; exact H. }
  destruct (fexp PyFloat.prec PyFloat.emax (Zdigits2 m + e) - e);
    cbn [fst]; [exact H0 | apply iter_shr_1_nonneg, H0 | exact H0].
Qed.

Lemma round_nearest_even_nonneg (m : Z) (l : location) :
  0 <= m -> 0 <= round_nearest_even m l.
Proof.
  intros H. unfold round_nearest_even.
  destruct l as [|[| |]]; [| destruct (Z.even m) | |]; lia.
Qed.

Lemma binary_round_aux_nonneg (m e : Z) (l : location) :
  0 <= m ->
  nonneg_or_inf (binary_round_aux PyFloat.prec PyFloat.emax false m e l).
Proof.
  intros H. unfold binary_round_aux.
  pose proof (shr_fexp_nonneg m e l H) as H1.
  destruct (shr_fexp PyFloat.prec PyFloat.emax m e l) as [mrs' e'].
  cbn [fst] in H1.
  pose proof (shr_fexp_nonneg _ e' loc_Exact
                (round_nearest_even_nonneg _ (loc_of_shr_record mrs') H1)) as H2.
  destruct (shr_fexp PyFloat.prec PyFloat.emax
              (round_nearest_even (shr_m mrs') (loc_of_shr_record mrs')) e'
              loc_Exact) as [mrs'' e''].
  cbn [fst] in H2.
  destruct (shr_m mrs'') as [|q|q].
  - left. reflexivity.
  - destruct (e'' <=? PyFloat.emax - PyFloat.prec)%Z; [left | right]; reflexivity.
  - lia.
Qed.

Lemma of_decimal_nonneg (n : N) (e10 : Z) :
  nonneg_or_inf (PyFloat.of_decimal false n e10).
Proof.
  unfold PyFloat.of_decimal. destruct n as [|p]; [left; reflexivity|].
  destruct (0 <=? e10)%Z; unfold PyFloat.of_ratio;
    apply binary_round_aux_nonneg; apply Z.div_pos; lia.
Qed.

(** What is asked of the characters of an amount without commas. *)
Lemma plain_char_facts (c : ascii) :
  plain_char c = true ->
  Chars.is_space c = false
  /\ Ascii.eqb c "_" = false
  /\ Ascii.eqb c "-" = false
  /\ Ascii.eqb c "+" = false
  /\ Ascii.eqb (Chars.lower c) "i" = false
  /\ Ascii.eqb (Chars.lower c) "n" = false.
Proof.
  destruct c as [[|] [|] [|] [|] [|] [|] [|] [|]]; vm_compute;
    intros H; try discriminate H; repeat split.
Qed.

Lemma lstrip_l_plain (l : list ascii) :
  Forall (fun c => plain_char c = true) l -> PyStr.lstrip_l l = l.
Proof.
  intros H. destruct H as [|c l Hc _]; [reflexivity|].
  cbn. destruct (plain_char_facts c Hc) as [-> _]. reflexivity.
Qed.

Lemma strip_plain (l : list ascii) :
  Forall (fun c => plain_char c = true) l ->
  PyStr.to_list (PyStr.strip (PyStr.of_list l)) = l.
Proof.
  intros H. unfold PyStr.strip. rewrite !to_list_of_list.
  rewrite (lstrip_l_plain l H).
  rewrite lstrip_l_plain by (apply Forall_rev; exact H).
  apply rev_involutive.
Qed.

Lemma skip_space_plain (l : list ascii) :
  Forall (fun c => plain_char c = true) l -> PyFloat.skip_space l = l.
Proof.
  intros H. destruct H as [|c l Hc _]; [reflexivity|].
  cbn. replace (PyFloat.is_float_space c) with false; [reflexivity|].
  destruct c as [[|] [|] [|] [|] [|] [|] [|] [|]]; vm_compute in Hc |- *;
    congruence.
Qed.

Lemma strip_space_plain (l : list ascii) :
  Forall (fun c => plain_char c = true) l -> PyFloat.strip_space l = l.
Proof.
  intros H. unfold PyFloat.strip_space.
  rewrite (skip_space_plain l H).
  rewrite skip_space_plain by (apply Forall_rev; exact H).
  apply rev_involutive.
Qed.

Lemma drop_underscores_plain (l : list ascii) (before : option ascii) :
  Forall (fun c => plain_char c = true) l ->
  (forall b, before = Some b -> Ascii.eqb b "_" = false) ->
  PyFloat.drop_underscores before l = Some l.
Proof.
  intros H. revert before. induction H as [|c l Hc _ IH]; intros before Hb; cbn.
  - destruct before as [b|]; [rewrite (Hb b eq_refl)|]; reflexivity.
  - destruct (plain_char_facts c Hc) as (_ & Hu & _). rewrite Hu.
    assert (E : match before with Some b => Ascii.eqb b "_" | None => false end
                = false).
    { destruct before as [b|]; [apply Hb|]; reflexivity. }
    rewrite E. cbn [andb]. rewrite IH; [reflexivity|].
    intros b [= <-]. exact Hu.
Qed.

Lemma split_sign_plain (l : list ascii) :
  Forall (fun c => plain_char c = true) l -> PyFloat.split_sign l = (false, l).
Proof.
  intros H. destruct H as [|c l Hc _]; [reflexivity|].
  cbn. destruct (plain_char_facts c Hc) as (_ & _ & -> & -> & _). reflexivity.
Qed.

Lemma eqb_word_plain (a : ascii) (w : string) (l : list ascii) :
  a = "i"%char \/ a = "n"%char ->
  Forall (fun c => plain_char c = true) l ->
  PyFloat.eqb_word (String a w) l = false.
Proof.
  intros Ha H. unfold PyFloat.eqb_word.
  destruct H as [|c l Hc _]; [reflexivity|].
  cbn [map PyStr.of_list string_of_list_ascii String.eqb].
  destruct (plain_char_facts c Hc) as (_ & _ & _ & _ & Hi & Hn).
  destruct Ha as [-> | ->]; [rewrite Hi | rewrite Hn]; reflexivity.
Qed.

(** A text of digits and points reads as a float that is not negative,
    when it reads as a float at all. *)
Lemma of_string_plain (l : list ascii) (x : spec_float) :
  Forall (fun c => plain_char c = true) l ->
  PyFloat.of_string (PyStr.of_list l) = Ok x -> nonneg_or_inf x.
Proof.
  intros H. unfold PyFloat.of_string.
  rewrite to_list_of_list, (strip_space_plain l H).
  rewrite (drop_underscores_plain l None H) by discriminate.
  rewrite (split_sign_plain l H).
  rewrite !eqb_word_plain by auto. cbn [orb].
  destruct (PyFloat.span_digits l) as [ip r1].
  destruct (PyFloat.fraction_part r1) as [fp r2].
  destruct (ip ++ fp)%list; [discriminate|].
  destruct (PyFloat.parse_exponent r2); [|discriminate].
  intros [= <-]. apply of_decimal_nonneg.
Qed.

(** *** What a capturing group holds *)

Lemma captured_refl (gs : list regex) (g : option (list ascii)) : captured gs g g.
Proof. left. reflexivity. Qed.

Lemma captured_trans (gs : list regex) (a b c : option (list ascii)) :
  captured gs a b -> captured gs b c -> captured gs a c.
Proof.
  intros [-> | H1] [-> | H2]; [left; reflexivity | right; exact H2
                              | right; exact H1 | right; exact H2].
Qed.

Lemma captured_incl (gs gs' : list regex) (a b : option (list ascii)) :
  (forall g, In g gs -> In g gs') -> captured gs a b -> captured gs' a b.
Proof.
  intros Hi [-> | (g & u & p & t & Hg & H)]; [left; reflexivity|].
  right. exists g, u, p, t. auto.
Qed.

Lemma consumed_text (st st' : mstate) (u : list ascii) :
  rest st = (u ++ rest st')%list -> consumed st st' = u.
Proof.
  intros H. unfold consumed. rewrite H, length_app.
  replace (length u + length (rest st') - length (rest st'))%nat
    with (length u) by lia.
  apply take_app_length.
Qed.

Lemma star_greedy_captures (step : mstate -> list mstate) (gs : list regex) (n : nat) :
  capturing_step step gs -> capturing_step (star_greedy step n) gs.
Proof.
  intros Hs. induction n as [|n IH]; intros st st'; cbn.
  - intros [<- | []]. apply captured_refl.
  - rewrite in_app_iff, in_flat_map. intros [(st1 & H1 & H2) | [<- | []]].
    + apply List.filter_In in H1 as [H1 _].
      eapply captured_trans; [apply Hs, H1 | apply IH, H2].
    + apply captured_refl.
Qed.

Lemma star_lazy_captures (step : mstate -> list mstate) (gs : list regex) (n : nat) :
  capturing_step step gs -> capturing_step (star_lazy step n) gs.
Proof.
  intros Hs. induction n as [|n IH]; intros st st'; cbn.
  - intros [<- | []]. apply captured_refl.
  - rewrite in_flat_map. intros [<- | (st1 & H1 & H2)].
    + apply captured_refl.
    + apply List.filter_In in H1 as [H1 _].
      eapply captured_trans; [apply Hs, H1 | apply IH, H2].
Qed.

(** After a match, group 1 is as before or holds a text that one of the
    groups of the pattern matched. *)
Lemma run_captures (r : regex) : capturing_step (run r) (groups r).
Proof.
  induction r as [|f|r1 IH1 r2 IH2|r1 IH1 r2 IH2|r IH|r IH|r IH|];
    intros st st'; cbn [run groups].
  - intros [<- | []]. apply captured_refl.
  - destruct (rest st) as [|c t]; [intros []|].
    destruct (f c); [|intros []]. intros [<- | []]. apply captured_refl.
  - rewrite in_flat_map. intros (st1 & H1 & H2).
    apply (captured_trans _ _ (grp1 st1)).
    + eapply captured_incl; [|apply IH1, H1]. intros g Hg.
      apply in_or_app. auto.
    + eapply captured_incl; [|apply IH2, H2]. intros g Hg.
      apply in_or_app. auto.
  - rewrite in_app_iff. intros [H | H].
    + eapply captured_incl; [|apply IH1, H]. intros g Hg. apply in_or_app. auto.
    + eapply captured_incl; [|apply IH2, H]. intros g Hg. apply in_or_app. auto.
  - apply star_greedy_captures, IH.
  - apply star_lazy_captures, IH.
  - rewrite in_map_iff. intros (st1 & <- & H). cbn [grp1].
    apply run_sound in H as (u & E & _ & M).
    right. exists r, u, (prev st), (rest st1).
    split; [left; reflexivity|]. split; [|exact M].
    rewrite (consumed_text _ _ _ E). reflexivity.
  - destruct (xorb (word_before st) (word_after st)); [|intros []].
    intros [<- | []]. apply captured_refl.
Qed.

Lemma search_from_captures (r : regex) (s : list ascii) (start : nat)
      (p : option ascii) (m : rmatch) :
  search_from r start p s = Some m -> captured (groups r) None (group1 m).
Proof.
  revert start p. induction s as [|c s IH]; intros start p; cbn [search_from];
    unfold match_here;
    destruct (run r (MState p _ None)) as [|st' l] eqn:E;
    try discriminate; try (apply IH).
  - intros [= <-]. cbn [group1].
    apply (run_captures r (MState p [] None)). rewrite E. left. reflexivity.
  - intros [= <-]. cbn [group1].
    apply (run_captures r (MState p (c :: s) None)). rewrite E. left. reflexivity.
Qed.

(** *** The text of an amount *)

Lemma amount_opt_cents_chars (p : option ascii) (u t : list ascii) :
  Matches amount_opt_cents p u t -> Forall (fun c => amount_char c = true) u.
Proof.
  unfold amount_opt_cents, Digit2. intros H.
  apply Matches_Cat in H as (a & f & -> & Ha & Hf).
  apply Matches_Plus_Cls in Ha as [_ Ha].
  apply Forall_app. split.
  - eapply Forall_impl; [exact Ha|]. intros c Hc. unfold amount_char.
    cbv beta in Hc. apply orb_true_iff in Hc as [-> | ->];
      rewrite ?orb_true_r; reflexivity.
  - apply Matches_Alt in Hf as [Hf | Hf]; [|apply Matches_Eps in Hf as ->; constructor].
    apply Matches_Cat in Hf as (d & dd & -> & Hd & Hdd).
    apply Matches_Chr in Hd as ->.
    apply Matches_Cat in Hdd as (d1 & d2 & -> & H1 & H2).
    apply Matches_Cls in H1 as (c1 & -> & H1).
    apply Matches_Cls in H2 as (c2 & -> & H2).
    unfold amount_char. repeat constructor; rewrite ?H1, ?H2; reflexivity.
Qed.

Lemma remove_commas_plain (u : list ascii) :
  Forall (fun c => amount_char c = true) u ->
  exists l,
    PyStr.remove_char "," (PyStr.of_list u) = PyStr.of_list l
    /\ Forall (fun c => plain_char c = true) l.
Proof.
  intros H. unfold PyStr.remove_char. rewrite to_list_of_list.
  eexists. split; [reflexivity|].
  induction H as [|c u Hc _ IH]; cbn [List.filter]; [constructor|].
  destruct (Ascii.eqb "," c) eqn:E; cbn [negb]; [exact IH|].
  constructor; [|exact IH]. unfold amount_char in Hc. unfold plain_char.
  rewrite E, orb_false_r in Hc. exact Hc.
Qed.

(** The text group 1 holds after a search for an amount. *)
Lemma group1_of_amount (r : regex) (s : string) (m : rmatch) :
  groups r = [amount_opt_cents] ->
  search r s = Some m ->
  exists u, group1_of m = PyStr.of_list u
            /\ Forall (fun c => amount_char c = true) u.
Proof.
  intros Hg H. apply search_from_captures in H. rewrite Hg in H.
  unfold group1_of, group1_str.
  destruct H as [-> | (g & u & p & t & [<- | []] & -> & M)].
  - exists []. split; [reflexivity | constructor].
  - exists u. split; [reflexivity|]. eapply amount_opt_cents_chars, M.
Qed.

Lemma dollars_nonneg_form (x : spec_float) :
  nonneg_or_inf x -> is_dollar_amount (dollars x) = true \/ dollars x = "$inf".
Proof.
  intros [H | ->]; [left; apply dollars_form, H | right; reflexivity].
Qed.

(** A price read from a data attribute has the form of a dollar amount,
    unless the number is beyond the range of a float. *)
Lemma price_of_attribute_form (data_price s : string) :
  price_of_attribute data_price JNull = Ok (JStr s) ->
  is_dollar_amount s = true \/ s = "$inf".
Proof.
  unfold price_of_attribute, float_without_commas.
  destruct (search data_price_re data_price) as [m|] eqn:E; [|discriminate].
  destruct (group1_of_amount data_price_re _ _ eq_refl E) as (u & -> & Hu).
  destruct (remove_commas_plain u Hu) as (l & -> & Hl).
  destruct (PyFloat.of_string (PyStr.of_list l)) as [x|] eqn:Ex; cbn;
    [|discriminate].
  intros [= <-]. apply dollars_nonneg_form. eapply of_string_plain; eassumption.
Qed.

Lemma of_list_app (l1 l2 : list ascii) :
  (PyStr.of_list l1 ++ PyStr.of_list l2)%string = PyStr.of_list (l1 ++ l2).
Proof.
  unfold PyStr.of_list. induction l1 as [|c l1 IH]; [reflexivity|].
  cbn [app string_of_list_ascii]. rewrite <- IH. reflexivity.
Qed.

(** The same for a price read after a dollar sign in a text. *)
Lemma price_method4_form (option_text s : string) :
  price_method4 option_text JNull = Ok (JStr s) ->
  is_dollar_amount s = true \/ s = "$inf".
Proof.
  unfold price_method4, price_of_dollar_match. cbn [Py.truthy negb].
  destruct (search dollar_re option_text) as [m|] eqn:E; [|discriminate].
  destruct (group1_of_amount dollar_re _ _ eq_refl E) as (u & -> & Hu).
  destruct (remove_commas_plain u Hu) as (l & -> & Hl).
  assert (Hzeros : Forall (fun c => plain_char c = true) (l ++ PyStr.to_list ".00")).
  { apply Forall_app. split; [exact Hl | repeat constructor]. }
  change ".00"%string with (PyStr.of_list (PyStr.to_list ".00")).
  rewrite of_list_app.
  destruct (PyStr.contains "." (PyStr.of_list l)).
  - destruct (PyFloat.of_string (PyStr.of_list l)) as [x|] eqn:Ex; cbn;
      [|discriminate].
    intros [= <-]. apply dollars_nonneg_form, (of_string_plain l x Hl Ex).
  - destruct (PyFloat.of_string (PyStr.of_list (l ++ PyStr.to_list ".00")))
      as [x|] eqn:Ex; cbn; [|discriminate].
    intros [= <-]. apply dollars_nonneg_form, (of_string_plain _ x Hzeros Ex).
Qed.

End Facts.

(** ** Properties beyond the specification *)

Module Extra.
Import Re Patterns Scraper Service Spec Notions Facts.
Local Open Scope string_scope.

(** *** The chain of strategies *)

Lemma collect_variants_of_one (w : World) (response : response) (tree : page) :
  exists s,
    snd (collect_variants w response tree) = run_strategy w response tree s.
Proof.
  unfold collect_variants.
  destruct (extract_variants_from_options w tree) eqn:E1; cbn;
    [|exists Options; symmetry; exact E1].
  destruct (extract_variants_from_json_ld w tree) eqn:E2; cbn;
    [|exists JsonLd; symmetry; exact E2].
  destruct (extract_variants_from_inline_json w (resp_text response)) eqn:E3; cbn;
    [|exists InlineJson; symmetry; exact E3].
  destruct (extract_variants_from_tables tree) eqn:E4; cbn;
    [|exists Tables; symmetry; exact E4].
  exists Proximity. reflexivity.
Qed.

(** X1: the strategies are called in the order options, JSON-LD,
    inline JSON, tables, proximity.  The calls stop at the first
    strategy that returns a variant: the variants of the page are what
    the last strategy called returned, every strategy called before it
    returned nothing, and when there is no variant at all the five
    of them were called. *)
Theorem strategies_tried_in_order (w : World) (response : response) (tree : page) :
  exists s later,
    all_strategies = (fst (collect_variants w response tree) ++ later)%list
    /\ last (fst (collect_variants w response tree)) = Some s
    /\ snd (collect_variants w response tree) = run_strategy w response tree s
    /\ Forall (fun s' => run_strategy w response tree s' = [])
              (removelast (fst (collect_variants w response tree)))
    /\ (snd (collect_variants w response tree) = [] -> later = []).
Proof.
  unfold collect_variants, all_strategies.
  destruct (extract_variants_from_options w tree) eqn:E1; cbn;
    [|exists Options; eexists; cbn; rewrite E1;
      repeat split; [constructor | discriminate]].
  destruct (extract_variants_from_json_ld w tree) eqn:E2; cbn;
    [|exists JsonLd; eexists; cbn; rewrite E2;
      repeat split; [repeat constructor; exact E1 | discriminate]].
  destruct (extract_variants_from_inline_json w (resp_text response)) eqn:E3; cbn;
    [|exists InlineJson; eexists; cbn; rewrite E3;
      repeat split; [repeat constructor; assumption | discriminate]].
  destruct (extract_variants_from_tables tree) eqn:E4; cbn;
    [|exists Tables; eexists; cbn; rewrite E4;
      repeat split; [repeat constructor; assumption | discriminate]].
  exists Proximity, []. cbn.
  repeat split; repeat constructor; assumption.
Qed.

(** *** What each strategy writes *)

Lemma price_with_cents_truthy (text : string) (a : json) :
  price_with_cents text = Ok (Some a) -> Py.truthy a = true.
Proof.
  unfold price_with_cents. destruct (search dollar_cents_re text); [|discriminate].
  destruct (float_without_commas _); cbn; [|discriminate].
  intros [= <-]. reflexivity.
Qed.

Lemma nearby_price_truthy (l : list (option string)) (a : json) :
  nearby_price l = Ok (Some a) -> Py.truthy a = true.
Proof.
  induction l as [|x l IH]; cbn; [discriminate|].
  destruct (price_with_cents (default "" x)) as [[b|]|] eqn:E; cbn;
    [|exact IH | discriminate].
  intros [= <-]. exact (price_with_cents_truthy _ _ E).
Qed.

Ltac priced_ok :=
  lazymatch goal with
  | |- priced (MkVariant _ (JStr (dollars _)) _) => reflexivity
  | H : Py.truthy ?p = true |- priced (MkVariant _ ?p _) => exact H
  | H : price_with_cents _ = Ok (Some ?p) |- priced (MkVariant _ ?p _) =>
      exact (price_with_cents_truthy _ _ H)
  | H : nearby_price _ = Ok (Some ?p) |- priced (MkVariant _ ?p _) =>
      exact (nearby_price_truthy _ _ H)
  end.

Lemma json_ld_priced (w : World) (tree : page) :
  Forall priced (extract_variants_from_json_ld w tree).
Proof.
  unfold extract_variants_from_json_ld.
  apply run_block_preserves; [|constructor].
  unfold json_ld_script, json_ld_item, json_ld_offer. keep; priced_ok.
Qed.

Lemma inline_json_priced (w : World) (text : string) :
  Forall priced (extract_variants_from_inline_json w text).
Proof.
  unfold extract_variants_from_inline_json.
  apply run_block_preserves; [|constructor].
  unfold inline_match, inline_variant. keep; priced_ok.
Qed.

Lemma tables_priced (tree : page) :
  Forall priced (extract_variants_from_tables tree).
Proof.
  unfold extract_variants_from_tables.
  apply run_block_preserves; [|constructor].
  unfold table, table_row. keep; subst; priced_ok.
Qed.

Lemma proximity_scan_priced (elements : list text_el) :
  preserves priced (proximity_scan elements).
Proof.
  induction elements as [|element more IH]; cbn [proximity_scan].
  - apply preserves_ret.
  - keep; try exact IH. subst. priced_ok.
Qed.

Lemma proximity_priced (tree : page) :
  Forall priced (extract_variants_from_proximity tree).
Proof.
  unfold extract_variants_from_proximity.
  apply run_block_preserves; [apply proximity_scan_priced | constructor].
Qed.

Ltac tag_ok := unfold tagged; cbn; repeat (destruct (is_variation_url _)); tauto.

Lemma strategies_tagged (w : World) (response : response) (tree : page)
      (s : strategy) :
  Forall (tagged s) (run_strategy w response tree s).
Proof.
  destruct s; cbn [run_strategy].
  - unfold extract_variants_from_options.
    apply run_block_preserves;
      [unfold radio_and_list_options, radio_option, list_option; keep; tag_ok|].
    apply run_block_preserves; [|constructor].
    unfold select_options, select_option. keep; tag_ok.
  - unfold extract_variants_from_json_ld.
    apply run_block_preserves; [|constructor].
    unfold json_ld_script, json_ld_item, json_ld_offer. keep; tag_ok.
  - unfold extract_variants_from_inline_json.
    apply run_block_preserves; [|constructor].
    unfold inline_match, inline_variant. keep; tag_ok.
  - unfold extract_variants_from_tables.
    apply run_block_preserves; [|constructor].
    unfold table, table_row. keep; tag_ok.
  - unfold extract_variants_from_proximity.
    apply run_block_preserves; [|constructor].
    induction (text_elements tree) as [|element more IH]; cbn [proximity_scan].
    + apply preserves_ret.
    + keep; try exact IH. tag_ok.
Qed.

(** *** The product built from the variants *)

Lemma details_from_variants (w : World) (url : string) (p : product) :
  scrape_product_details w url = Some p ->
  exists response tree,
    fetch w url = Some (response, tree)
    /\ let all_variants := snd (collect_variants w response tree) in
       Forall has_size all_variants
       /\ sizes p = (if is_nil all_variants then text_mining tree
                     else consolidate_sizes all_variants)
       /\ prices p = consolidate_prices all_variants
       /\ make_price_info (consolidate_prices all_variants) = Ok (price_info p)
       /\ price_sources p = list_of_set (consolidate_sources all_variants).
Proof.
  intros H.
  apply scrape_product_details_Some in H as (response & tree & e & Hf & He & <-).
  exists response, tree. split; [exact Hf|].
  apply extract_Ok in He as (_ & _ & _ & Hs & Hp & Hi & Hsrc).
  split; [apply collect_variants_sized|]. repeat split; assumption.
Qed.

Lemma consolidate_prices_from (vs : list variant) (k : string) (v : json) :
  consolidate_prices vs !! k = Some v ->
  exists x, In x vs /\ size x = k /\ price x = v /\ has_price x = true.
Proof.
  intros H. apply fold_add_price_lookup in H as [H | H]; [|exact H].
  rewrite lookup_empty in H. discriminate.
Qed.

Lemma fold_add_price_keeps (vs : list variant) (m : gmap string json) (k : string) :
  is_Some (m !! k) -> is_Some (fold_left add_price vs m !! k).
Proof.
  revert m. induction vs as [|v vs IH]; intros m H; cbn; [exact H|].
  apply IH. unfold add_price. destruct (Py.truthy (price v)); [|exact H].
  destruct (decide (size v = k)) as [-> | Hne].
  - rewrite lookup_insert_eq. eexists. reflexivity.
  - rewrite lookup_insert_ne by exact Hne. exact H.
Qed.

Lemma consolidate_prices_has (vs : list variant) (v : variant) :
  In v vs -> has_price v = true -> is_Some (consolidate_prices vs !! size v).
Proof.
  intros Hin Hp. apply in_split in Hin as (before & after & ->).
  unfold consolidate_prices. rewrite fold_left_app. cbn [fold_left].
  apply fold_add_price_keeps. unfold add_price at 1.
  unfold has_price in Hp. rewrite Hp, lookup_insert_eq. eexists. reflexivity.
Qed.

Lemma consolidate_sizes_In (vs : list variant) (s : string) :
  In s (consolidate_sizes vs)
  <-> PyStr.truthy s = true /\ exists v, In v vs /\ size v = s.
Proof.
  rewrite consolidate_sizes_first_seen, first_seen_In. unfold sizes_of.
  rewrite filter_In, in_map_iff. split.
  - intros [(v & <- & Hv) Ht]. split; [exact Ht|]. exists v. split; [exact Hv | reflexivity].
  - intros [Ht (v & Hv & <-)]. split; [|exact Ht]. exists v. split; [reflexivity | exact Hv].
Qed.

Lemma consolidate_prices_empty (vs : list variant) :
  consolidate_prices vs = ∅ <-> Forall (fun v => has_price v = false) vs.
Proof.
  split.
  - intros E. apply List.Forall_forall. intros v Hv.
    destruct (has_price v) eqn:Hp; [|reflexivity].
    destruct (consolidate_prices_has vs v Hv Hp) as [x Hx].
    rewrite E, lookup_empty in Hx. discriminate.
  - intros H. apply map_eq. intros k. rewrite lookup_empty.
    unfold consolidate_prices. rewrite fold_add_price_other; [apply lookup_empty|].
    eapply List.Forall_impl; [|exact H]. intros v Hv _. exact Hv.
Qed.

Lemma consolidate_sources_empty (vs : list variant) :
  consolidate_sources vs = ∅ <-> Forall (fun v => has_price v = false) vs.
Proof.
  unfold consolidate_sources. split.
  - intros E. apply List.Forall_forall. intros v Hv.
    destruct (has_price v) eqn:Hp; [|reflexivity].
    assert (H : source v ∈ fold_left add_source vs ∅).
    { apply fold_add_source. right. exists v. repeat split; assumption. }
    rewrite E in H. set_solver.
  - intros H. apply set_eq. intros tag. rewrite fold_add_source. split.
    + intros [Hin | (v & Hv & Hp & _)]; [exact Hin|].
      rewrite List.Forall_forall in H. rewrite (H v Hv) in Hp. discriminate.
    + set_solver.
Qed.

(** X2: the price sources of a product all belong to one strategy:
    tags of different strategies never appear together. *)
Theorem price_sources_of_one_strategy (w : World) (url : string) (p : product) :
  scrape_product_details w url = Some p ->
  exists s, forall tag, In tag (price_sources p) -> In tag (tags_of s).
Proof.
  intros H.
  apply details_from_variants in H as (response & tree & _ & _ & _ & _ & _ & ->).
  destruct (collect_variants_of_one w response tree) as [s E].
  exists s. intros tag Htag.
  apply list_elem_of_In, elem_of_elements in Htag.
  apply fold_add_source in Htag as [Htag | (v & Hv & _ & <-)]; [set_solver|].
  rewrite E in Hv.
  pose proof (strategies_tagged w response tree s) as Ht.
  rewrite List.Forall_forall in Ht. exact (Ht v Hv).
Qed.

Lemma price_sources_of_one_strategy_witness :
  exists p,
    scrape_product_details Cases.table_world Examples.page_url = Some p
    /\ exists s, forall tag, In tag (price_sources p) -> In tag (tags_of s).
Proof.
  eexists. split; [vm_compute; reflexivity|].
  apply (price_sources_of_one_strategy Cases.table_world Examples.page_url).
  vm_compute. reflexivity.
Defined.

Lemma collect_variants_below_options (w : World) (response : response) (tree : page) :
  extract_variants_from_options w tree = [] ->
  Forall priced (snd (collect_variants w response tree)).
Proof.
  intros E. unfold collect_variants. rewrite E. cbn.
  pose proof (json_ld_priced w tree) as H2.
  pose proof (inline_json_priced w (resp_text response)) as H3.
  pose proof (tables_priced tree) as H4.
  pose proof (proximity_priced tree) as H5.
  destruct (extract_variants_from_json_ld w tree); cbn; [|exact H2].
  destruct (extract_variants_from_inline_json w (resp_text response)); cbn;
    [|exact H3].
  destruct (extract_variants_from_tables tree); cbn; [|exact H4].
  exact H5.
Qed.

(** X3: a variant without a price can only come from the options
    strategy.  On a page where that strategy finds nothing and another
    one finds variants, every size listed has a price, and the sizes
    are exactly the keys of [prices]. *)
Theorem sizes_priced_below_options (w : World) (url : string)
        (response : response) (tree : page) (p : product) :
  fetch w url = Some (response, tree) ->
  extract_variants_from_options w tree = [] ->
  snd (collect_variants w response tree) <> [] ->
  scrape_product_details w url = Some p ->
  forall size, In size (sizes p) <-> is_Some (prices p !! size).
Proof.
  intros Hf Hopts Hne Hp size.
  apply details_from_variants in Hp
    as (response' & tree' & Hf' & Hsized & Hs & Hpr & _).
  rewrite Hf in Hf'. injection Hf' as <- <-.
  pose proof (collect_variants_below_options w response tree Hopts) as Hpriced.
  destruct (snd (collect_variants w response tree)) as [|v0 vs0] eqn:E;
    [congruence|].
  cbn [is_nil] in Hs. rewrite Hs, Hpr, consolidate_sizes_In.
  rewrite List.Forall_forall in Hpriced, Hsized. split.
  - intros [_ (v & Hv & <-)].
    apply consolidate_prices_has; [exact Hv | exact (Hpriced v Hv)].
  - intros [x Hx]. apply consolidate_prices_from in Hx as (v & Hv & <- & _).
    split; [exact (Hsized v Hv)|]. exists v. split; [exact Hv | reflexivity].
Qed.

Lemma sizes_priced_below_options_witness :
  exists p,
    scrape_product_details Cases.table_world Examples.page_url = Some p
    /\ forall size, In size (sizes p) <-> is_Some (prices p !! size).
Proof.
  eexists. split; [vm_compute; reflexivity|].
  apply (sizes_priced_below_options Cases.table_world Examples.page_url
           Cases.table_response Cases.table_page).
  - reflexivity.
  - reflexivity.
  - vm_compute. discriminate.
  - vm_compute. reflexivity.
Defined.

Lemma proximity_scan_length (elements : list text_el) (vs : list variant) :
  (length (fst (proximity_scan elements vs)) <= S (length vs))%nat.
Proof.
  induction elements as [|element more IH]; cbn [proximity_scan].
  - cbn. apply Nat.le_succ_diag_r.
  - destruct (first_size (default "" (el_text element))) as [size|]; [|exact IH].
    unfold bind, lift.
    destruct (nearby_price _) as [[price|]|]; cbn [fst];
      [| |apply Nat.le_succ_diag_r];
      (destruct (size_truthy (Some size)); [|exact IH]); [|exact IH].
    cbn. rewrite length_app. cbn. rewrite Nat.add_1_r. apply Nat.le_refl.
Qed.

(** X4: the proximity strategy stops at the first element that gives
    a size and a price: it returns at most one variant. *)
Theorem proximity_at_most_one (tree : page) :
  (length (extract_variants_from_proximity tree) <= 1)%nat.
Proof.
  unfold extract_variants_from_proximity, run_block.
  apply (proximity_scan_length (text_elements tree) []).
Qed.

(** X5: every key of [prices] is one of the sizes listed, and the
    price stored for it is a non-empty string. *)
Theorem priced_sizes_are_listed (w : World) (url : string) (p : product)
        (k : string) (v : json) :
  scrape_product_details w url = Some p ->
  prices p !! k = Some v ->
  In k (sizes p) /\ exists s, v = JStr s /\ s <> "".
Proof.
  intros Hp Hk.
  apply details_from_variants in Hp
    as (response & tree & _ & Hsized & Hs & Hpr & Hinfo & _).
  rewrite Hpr in Hk.
  destruct (make_price_info_strings _ _ _ _ Hinfo Hk) as [s ->].
  apply consolidate_prices_from in Hk as (x & Hx & <- & Hprice & Htruthy).
  rewrite List.Forall_forall in Hsized. split.
  - destruct (snd (collect_variants w response tree)) as [|v0 vs0] eqn:E;
      [destruct Hx|].
    cbn [is_nil] in Hs. rewrite Hs. apply consolidate_sizes_In.
    split; [exact (Hsized x Hx)|]. exists x. split; [exact Hx | reflexivity].
  - exists s. split; [reflexivity|]. intros ->.
    unfold has_price in Htruthy. rewrite Hprice in Htruthy. discriminate.
Qed.

Lemma priced_sizes_are_listed_witness :
  exists p,
    scrape_product_details Cases.table_world Examples.page_url = Some p
    /\ In "30ml" (sizes p) /\ exists s, JStr "$12.50" = JStr s /\ s <> "".
Proof.
  eexists. split; [vm_compute; reflexivity|].
  apply (priced_sizes_are_listed Cases.table_world Examples.page_url).
  - vm_compute. reflexivity.
  - vm_compute. reflexivity.
Defined.

Lemma join_not_empty (sep first : string) (more : list string) :
  first <> "" -> PyStr.join sep (first :: more) <> "".
Proof.
  intros H. destruct first as [|c first]; [congruence|].
  destruct more; cbn; discriminate.
Qed.

Lemma make_price_info_not_empty (prices : gmap string json) (info : string) :
  (forall k v, prices !! k = Some v -> exists s, v = JStr s /\ s <> "") ->
  make_price_info prices = Ok info ->
  (info = "" <-> prices = ∅).
Proof.
  intros Hvalues. unfold make_price_info. case_bool_decide as Hempty.
  - intros [= <-]. tauto.
  - destruct (mapM as_string (snd <$> map_to_list prices)) as [price_values|] eqn:E;
      [|discriminate].
    intros [= <-]. split; [|tauto]. intros Hjoin. exfalso.
    apply mapM_Some in E.
    assert (Hall : forall y, y ∈ price_values -> y <> "").
    { intros y Hy. apply list_elem_of_lookup in Hy as [i Hi].
      destruct (Forall2_lookup_r _ _ _ _ _ E Hi) as (x & Hx & Hxy).
      apply list_elem_of_lookup_2, list_elem_of_fmap in Hx as ([k v] & -> & Hkv).
      apply elem_of_map_to_list in Hkv.
      destruct (Hvalues k v Hkv) as (s & -> & Hs).
      cbn in Hxy. injection Hxy as <-. exact Hs. }
    assert (Hsome : price_values <> []).
    { intros ->. apply Forall2_nil_inv_r, fmap_nil_inv in E.
      apply map_to_list_empty_iff in E. contradiction. }
    unfold list_of_set in Hjoin.
    destruct (elements (list_to_set (C := gset string) price_values))
      as [|e es] eqn:Ee.
    { apply elements_empty_inv in Ee. destruct price_values; [congruence|].
      set_solver. }
    revert Hjoin. apply join_not_empty. apply Hall.
    apply (elem_of_list_to_set (C := gset string)), elem_of_elements.
    rewrite Ee. left.
Qed.

(** X6: the summary fields follow [prices]: [price_info] is the empty
    string exactly when no price was found, and so is the list
    [price_sources]. *)
Theorem price_summary_empty_iff_no_price (w : World) (url : string) (p : product) :
  scrape_product_details w url = Some p ->
  (price_info p = "" <-> prices p = ∅)
  /\ (price_sources p = [] <-> prices p = ∅).
Proof.
  intros Hp.
  assert (Hvalues : forall k v, prices p !! k = Some v ->
                                exists s, v = JStr s /\ s <> "").
  { intros k v Hk.
    pose proof Hp as Hp'.
    apply details_from_variants in Hp'
      as (response & tree & _ & _ & _ & Hpr & Hinfo & _).
    rewrite Hpr in Hk.
    destruct (make_price_info_strings _ _ _ _ Hinfo Hk) as [s ->].
    apply consolidate_prices_from in Hk as (x & _ & _ & Hprice & Htruthy).
    exists s. split; [reflexivity|]. intros ->.
    unfold has_price in Htruthy. rewrite Hprice in Htruthy. discriminate. }
  apply details_from_variants in Hp
    as (response & tree & _ & _ & _ & Hpr & Hinfo & Hsrc).
  split.
  - rewrite Hpr in Hvalues |- *. exact (make_price_info_not_empty _ _ Hvalues Hinfo).
  - rewrite Hsrc, Hpr, consolidate_prices_empty, <- consolidate_sources_empty.
    unfold list_of_set. split.
    + intros H. apply leibniz_equiv, elements_empty_inv. exact H.
    + intros ->. apply elements_empty.
Qed.

Lemma price_summary_empty_iff_no_price_witness :
  exists p,
    scrape_product_details Examples.unpriced_world Examples.page_url = Some p
    /\ (price_info p = "" <-> prices p = ∅)
    /\ (price_sources p = [] <-> prices p = ∅).
Proof.
  eexists. split; [vm_compute; reflexivity|].
  apply (price_summary_empty_iff_no_price Examples.unpriced_world Examples.page_url).
  vm_compute. reflexivity.
Defined.

(** *** The sizes mined from the text *)

Lemma space_not_upper (c : ascii) :
  Chars.is_space c = true -> Chars.lower c = c.
Proof.
  destruct c as [[] [] [] [] [] [] [] []]; vm_compute; congruence.
Qed.

Lemma digit_not_space (c : ascii) :
  Chars.is_digit c = true -> Chars.is_space c = false.
Proof.
  destruct c as [[] [] [] [] [] [] [] []]; vm_compute; congruence.
Qed.

Lemma LitI_ends_well (s : string) :
  match rev (PyStr.to_list s) with
  | x :: _ => negb (Chars.is_space (Chars.lower x))
  | [] => false
  end = true ->
  ends_well (LitI s).
Proof.
  intros H p u t Hm. apply Matches_LitI in Hm. unfold same_nocase in Hm.
  destruct (rev (PyStr.to_list s)) as [|x l] eqn:E; [discriminate|].
  apply (f_equal (@rev ascii)) in E. rewrite rev_involutive in E. cbn in E.
  rewrite E, map_app in Hm. cbn in Hm.
  apply map_eq_app in Hm as (u' & u2 & -> & _ & H2).
  destruct u2 as [|d [|? ?]]; try discriminate. injection H2 as H2.
  exists d, u'. split; [reflexivity|].
  destruct (Chars.is_space d) eqn:Hd; [|reflexivity].
  rewrite (space_not_upper d Hd) in H2. rewrite <- H2, Hd in H. discriminate.
Qed.

Lemma Alt_ends_well (r1 r2 : regex) :
  ends_well r1 -> ends_well r2 -> ends_well (Alt r1 r2).
Proof.
  intros H1 H2 p u t Hm. apply Matches_Alt in Hm as [Hm | Hm]; eauto.
Qed.

Lemma Cat_ends_well (r1 r2 : regex) :
  ends_well r2 -> ends_well (Cat r1 r2).
Proof.
  intros H2 p u t Hm. apply Matches_Cat in Hm as (u1 & u2 & -> & _ & Hm).
  destruct (H2 _ _ _ Hm) as (d & u' & -> & Hd).
  exists d, (u1 ++ u')%list. split; [apply app_assoc | exact Hd].
Qed.

Lemma bare_size_trimmed (units : list regex) (p : option ascii) (u t : list ascii) :
  ends_well (Alts units) ->
  Matches (bare_size units) p u t -> trimmed u.
Proof.
  intros Hunits Hm. unfold bare_size in Hm. cbn [Seq] in Hm.
  apply Matches_Cat in Hm as (u1 & x1 & -> & Hb & Hm).
  inversion Hb; subst. cbn [app] in *.
  apply Matches_Cat in Hm as (u2 & x2 & -> & Hd & Hm).
  apply Matches_Plus_Cls in Hd as [Hne Hd].
  apply Matches_Cat in Hm as (u3 & x3 & -> & _ & Hm).
  apply Matches_Cat in Hm as (u4 & x4 & -> & _ & Hm).
  apply Matches_Cat in Hm as (u5 & x5 & -> & _ & Hm).
  apply Matches_Cat in Hm as (u6 & x6 & -> & Hg & Hm).
  inversion Hm; subst. inversion Hg; subst.
  match goal with H : Matches (Alts units) _ _ _ |- _ =>
    destruct (Hunits _ _ _ H) as (d & u' & -> & Hspace) end.
  split.
  - destruct u2 as [|c u2]; [congruence|].
    exists c. eexists. split; [reflexivity|].
    apply digit_not_space. apply Forall_inv in Hd. exact Hd.
  - exists d, (u2 ++ u3 ++ u4 ++ u5 ++ u')%list. split; [|exact Hspace].
    rewrite app_nil_r, <- !app_assoc. reflexivity.
Qed.

Ltac ends_ok :=
  repeat first [ apply LitI_ends_well; reflexivity
               | apply Alt_ends_well | apply Cat_ends_well ].

Lemma size_patterns_trimmed (r : regex) (p : option ascii) (u t : list ascii) :
  In r size_patterns -> Matches r p u t -> trimmed u.
Proof.
  unfold size_patterns. cbn [In].
  intros [<- | [<- | [<- | [<- | [<- | [<- | []]]]]]];
    apply bare_size_trimmed; cbn [Alts Seq]; ends_ok.
Qed.

Lemma lstrip_l_kept (c : ascii) (u : list ascii) :
  Chars.is_space c = false -> PyStr.lstrip_l (c :: u) = c :: u.
Proof. intros H. cbn. rewrite H. reflexivity. Qed.

Lemma strip_trimmed (u : list ascii) :
  trimmed u -> PyStr.strip (PyStr.of_list u) = PyStr.of_list u.
Proof.
  intros [(c & u1 & E1 & Hc) (d & u2 & E2 & Hd)].
  unfold PyStr.strip. rewrite to_list_of_list. f_equal.
  rewrite E1, (lstrip_l_kept c u1 Hc), <- E1, E2, rev_app_distr. cbn [rev app].
  rewrite (lstrip_l_kept d _ Hd). cbn [rev]. rewrite rev_involutive. reflexivity.
Qed.

Lemma match_here_group0 (r : regex) (start : nat) (st : mstate) (m : rmatch) :
  match_here r start st = Some m ->
  exists t, Matches r (prev st) (group0 m) t.
Proof.
  unfold match_here. destruct (run r st) as [|st' l] eqn:E; [discriminate|].
  intros [= <-]. cbn [group0].
  destruct (run_sound r st st') as (u & Hrest & _ & Hm); [rewrite E; left; reflexivity|].
  exists (rest st'). rewrite (consumed_text st st' u Hrest). exact Hm.
Qed.

Lemma search_from_group0 (r : regex) (s : list ascii) (start : nat)
      (p : option ascii) (m : rmatch) :
  search_from r start p s = Some m ->
  exists p' t, Matches r p' (group0 m) t.
Proof.
  revert start p. induction s as [|c s IH]; intros start p; cbn [search_from];
    destruct (match_here r start _) as [m'|] eqn:E.
  - intros [= <-]. apply match_here_group0 in E as [t Ht]. eauto.
  - discriminate.
  - intros [= <-]. apply match_here_group0 in E as [t Ht]. eauto.
  - apply IH.
Qed.

Lemma finditer_from_group0 (fuel : nat) (r : regex) (start : nat)
      (p : option ascii) (s : list ascii) (m : rmatch) :
  In m (finditer_from fuel r start p s) ->
  exists p' t, Matches r p' (group0 m) t.
Proof.
  revert start p s. induction fuel as [|fuel IH]; intros start p s; cbn [finditer_from];
    [intros []|].
  destruct (search_from r start p s) as [m'|] eqn:E; [|intros []].
  intros [<- | Hin]; [exact (search_from_group0 _ _ _ _ _ E)|].
  destruct (Nat.ltb _ _); [destruct Hin|]. exact (IH _ _ _ Hin).
Qed.

Lemma NoDup_snoc (l : list string) (x : string) :
  List.NoDup l -> mem x l = false -> List.NoDup (l ++ [x]).
Proof.
  intros Hl Hx. apply NoDup_ListNoDup, NoDup_app.
  split; [apply NoDup_ListNoDup, Hl|]. split; [|apply NoDup_singleton].
  intros y Hy Hyx. apply list_elem_of_singleton in Hyx as ->.
  apply list_elem_of_In, mem_true in Hy. congruence.
Qed.

Lemma mine_pattern_distinct (text : string) (sizes : list string) (pattern : regex) :
  In pattern size_patterns ->
  List.NoDup sizes /\ Forall (fun s => trimmed (PyStr.to_list s)) sizes ->
  List.NoDup (mine_pattern text sizes pattern)
  /\ Forall (fun s => trimmed (PyStr.to_list s)) (mine_pattern text sizes pattern).
Proof.
  intros Hpattern. unfold mine_pattern, finditer.
  assert (Hms : forall m,
             In m (finditer_from (S (length (list_ascii_of_string text))) pattern
                     0 None (list_ascii_of_string text)) ->
             trimmed (group0 m)).
  { intros m Hm. apply finditer_from_group0 in Hm as (p & t & Hm).
    exact (size_patterns_trimmed _ _ _ _ Hpattern Hm). }
  revert Hms sizes.
  generalize (finditer_from (S (length (list_ascii_of_string text))) pattern
                0 None (list_ascii_of_string text)).
  intros ms. induction ms as [|m ms IH]; intros Hms sizes Hinv; cbn [fold_left];
    [exact Hinv|].
  apply IH; [intros m' Hm'; apply Hms; right; exact Hm'|].
  destruct (PyStr.truthy (group0_str m) && negb (mem (group0_str m) sizes)) eqn:E;
    [|exact Hinv].
  apply andb_prop in E as [_ E]. apply negb_true_iff in E.
  unfold group0_str in *. fold PyStr.of_list in *.
  pose proof (Hms m (or_introl eq_refl)) as Ht.
  rewrite (strip_trimmed _ Ht). destruct Hinv as [Hnd Hne]. split.
  - apply NoDup_snoc; assumption.
  - apply Forall_app. split; [exact Hne|]. constructor; [|constructor].
    rewrite to_list_of_list. exact Ht.
Qed.

Lemma text_mining_distinct (tree : page) :
  List.NoDup (text_mining tree)
  /\ Forall (fun s => trimmed (PyStr.to_list s)) (text_mining tree).
Proof.
  unfold text_mining.
  assert (H : forall patterns sizes,
             (forall r, In r patterns -> In r size_patterns) ->
             List.NoDup sizes /\ Forall (fun s => trimmed (PyStr.to_list s)) sizes ->
             let mined := fold_left (mine_pattern (PyStr.join " " (all_texts tree)))
                                    patterns sizes in
             List.NoDup mined /\ Forall (fun s => trimmed (PyStr.to_list s)) mined).
  { induction patterns as [|r patterns IH]; intros sizes Hsub Hinv; cbn [fold_left];
      [exact Hinv|].
    apply IH; [intros r' Hr'; apply Hsub; right; exact Hr'|].
    apply mine_pattern_distinct; [apply Hsub; left; reflexivity | exact Hinv]. }
  apply H; [auto|]. split; constructor.
Qed.

(** *** Errors inside a strategy *)

Lemma appends_ret {A : Type} (a : A) : appends (ret a).
Proof. intros vs. unfold ret. cbn. rewrite app_nil_r. reflexivity. Qed.

Lemma appends_lift {A : Type} (r : result A) : appends (lift r).
Proof. intros vs. unfold lift. cbn. rewrite app_nil_r. reflexivity. Qed.

Lemma appends_append (v : variant) : appends (append v).
Proof. intros vs. reflexivity. Qed.

Lemma appends_bind {A B : Type} (m : M A) (k : A -> M B) :
  appends m -> (forall a, appends (k a)) -> appends (bind m k).
Proof.
  intros Hm Hk vs. unfold bind. rewrite (Hm vs).
  destruct (m []) as [found [a | e]]; cbn [fst snd]; [|reflexivity].
  rewrite (Hk a (vs ++ found)%list), (Hk a found). cbn [fst snd].
  rewrite app_assoc. reflexivity.
Qed.

Lemma appends_for_each {A : Type} (body : A -> M unit) (xs : list A) :
  (forall x, appends (body x)) -> appends (for_each body xs).
Proof.
  intros Hbody. induction xs as [|x xs IH]; cbn [for_each].
  - apply appends_ret.
  - apply appends_bind; [apply Hbody | intros _; exact IH].
Qed.

Lemma appends_except (m : M unit) : appends m -> appends (except_json_decode m).
Proof.
  intros Hm vs. unfold except_json_decode. rewrite (Hm vs).
  destruct (m []) as [found [a | []]]; reflexivity.
Qed.

Ltac appends_step :=
  lazymatch goal with
  | |- appends (ret _) => apply appends_ret
  | |- appends (lift _) => apply appends_lift
  | |- appends (append _) => apply appends_append
  | |- appends (for_each _ _) => apply appends_for_each; intros ?
  | |- appends (except_json_decode _) => apply appends_except
  | |- appends (bind _ _) => apply appends_bind; [|intros ?]
  | |- appends (match ?x with _ => _ end) => destruct x
  end.

Lemma radio_and_list_options_appends (tree : page) :
  appends (radio_and_list_options tree).
Proof.
  unfold radio_and_list_options, radio_option, list_option.
  repeat appends_step.
Qed.

Lemma json_ld_script_appends (w : World) (script_content : string) :
  appends (json_ld_script w script_content).
Proof.
  unfold json_ld_script, json_ld_item, json_ld_offer. repeat appends_step.
Qed.

(** X7: the two halves of the options strategy do not depend on each
    other.  Its result is what the loop over the select options
    collected before it ended or raised, followed by what the scan of
    the radio inputs and option lists collects on its own. *)
Theorem options_halves_independent (w : World) (tree : page) :
  extract_variants_from_options w tree
  = (run_block (select_options w tree) []
     ++ run_block (radio_and_list_options tree) [])%list.
Proof.
  unfold extract_variants_from_options, run_block.
  rewrite (radio_and_list_options_appends tree (fst (select_options w tree []))).
  reflexivity.
Qed.

Lemma for_each_skip {A : Type} (body : A -> M unit) (before after : list A) (x : A) :
  (forall vs, body x vs = (vs, Ok tt)) ->
  forall vs, for_each body (before ++ x :: after) vs
             = for_each body (before ++ after) vs.
Proof.
  intros Hx. induction before as [|y before IH]; intros vs; cbn [app for_each].
  - unfold bind. rewrite Hx. reflexivity.
  - unfold bind. destruct (body y vs) as [vs' [[]|e]]; [apply IH | reflexivity].
Qed.

Lemma for_each_abort {A : Type} (body : A -> M unit) (before after : list A)
      (x : A) (e : exn) :
  appends (body x) -> snd (body x []) = Raise e ->
  forall vs, for_each body (before ++ x :: after) vs
             = for_each body (before ++ [x]) vs.
Proof.
  intros Hx He. induction before as [|y before IH]; intros vs; cbn [app for_each].
  - unfold bind. rewrite (Hx vs), He. reflexivity.
  - unfold bind. destruct (body y vs) as [vs' [[]|e']]; [apply IH | reflexivity].
Qed.

(** X8: a JSON-LD block that [json.loads] rejects is skipped: the
    strategy returns what it returns for the page without that block. *)
Theorem json_ld_unparsable_block_skipped (w : World) (tree tree' : page)
        (before after : list string) (bad : string) :
  json_loads w bad = None ->
  json_ld_texts tree = (before ++ bad :: after)%list ->
  json_ld_texts tree' = (before ++ after)%list ->
  extract_variants_from_json_ld w tree = extract_variants_from_json_ld w tree'.
Proof.
  intros Hbad E E'. unfold extract_variants_from_json_ld, run_block.
  rewrite E, E'. f_equal. apply for_each_skip.
  intros vs. unfold json_ld_script, except_json_decode, bind, lift, loads.
  rewrite Hbad. reflexivity.
Qed.

Lemma json_ld_unparsable_block_skipped_witness :
  extract_variants_from_json_ld Cases.ld_world
    (Cases.ld_page ["not json"; Cases.offer_text])
  = extract_variants_from_json_ld Cases.ld_world (Cases.ld_page [Cases.offer_text]).
Proof.
  apply (json_ld_unparsable_block_skipped Cases.ld_world _ _ [] [Cases.offer_text]
           "not json"); reflexivity.
Defined.

(** X9: a JSON-LD block that raises any other error ends the scan:
    the blocks after it are not read, and the variants found up to the
    error are returned. *)
Theorem json_ld_error_ends_scan (w : World) (tree tree' : page)
        (before after : list string) (bad : string) (e : exn) :
  snd (json_ld_script w bad []) = Raise e ->
  json_ld_texts tree = (before ++ bad :: after)%list ->
  json_ld_texts tree' = (before ++ [bad])%list ->
  extract_variants_from_json_ld w tree = extract_variants_from_json_ld w tree'.
Proof.
  intros Hbad E E'. unfold extract_variants_from_json_ld, run_block.
  rewrite E, E'. f_equal.
  apply (for_each_abort _ _ _ _ e); [apply json_ld_script_appends | exact Hbad].
Qed.

Lemma json_ld_error_ends_scan_witness :
  extract_variants_from_json_ld Cases.ld_world
    (Cases.ld_page [Cases.offer_text; "7"; Cases.offer_text])
  = extract_variants_from_json_ld Cases.ld_world
      (Cases.ld_page [Cases.offer_text; "7"]).
Proof.
  apply (json_ld_error_ends_scan Cases.ld_world _ _ [Cases.offer_text]
           [Cases.offer_text] "7" AttributeError); reflexivity.
Defined.

(** *** The variation client *)

Lemma contains_scalar (key : string) (v : json) :
  scalar v = true -> Py.contains key v = Raise TypeError.
Proof. destruct v; cbn; congruence. Qed.

(** X10: the variation client gives up on a body that is JSON but not
    of the expected shape.  When the body is a number, a boolean or
    null, or an object whose entry [product] is one of these, the
    client returns None and the patterns are not tried on the text. *)
Theorem variation_api_gives_up_on_scalar (w : World) (variation_url absolute_url : string)
        (response : response) (json_data : json) :
  urljoin w base_url variation_url = Some absolute_url ->
  session_get w absolute_url api_headers = Some response ->
  resp_json response = Some json_data ->
  scalar json_data = true
  \/ (exists kv product,
        json_data = JObj kv /\ Py.obj_lookup "product" kv = Some product
        /\ scalar product = true) ->
  call_product_variation_api w variation_url = JNull.
Proof.
  intros Hurl Hget Hjson Hshape. unfold call_product_variation_api.
  rewrite Hurl. cbn. rewrite Hget.
  destruct (status_ok response); cbn [negb]; [|reflexivity].
  destruct (PyStr.is_empty (resp_text response)); [reflexivity|].
  rewrite Hjson. unfold formatted_sales_price.
  destruct Hshape as [Hs | (kv & product & -> & Hk & Hs)].
  - rewrite (contains_scalar _ _ Hs). reflexivity.
  - cbn. rewrite Hk. rewrite bool_decide_true by (eexists; reflexivity). cbn.
    rewrite (contains_scalar _ _ Hs). reflexivity.
Qed.

Lemma variation_api_gives_up_on_scalar_witness :
  call_product_variation_api Cases.flat_world Examples.variation_path = JNull
  /\ price_by_patterns price_patterns Cases.flat_body = JStr "$12.50".
Proof.
  split.
  - apply (variation_api_gives_up_on_scalar Cases.flat_world Examples.variation_path
             (base_url ++ Examples.variation_path)
             (Response true Cases.flat_body (Some Cases.flat_json) None)
             Cases.flat_json).
    + reflexivity.
    + vm_compute. reflexivity.
    + reflexivity.
    + right. exists [("product", JInt 5);
                     ("value", JFloat (S754_finite false 7036874417766400 (-49)))],
                    (JInt 5).
      repeat split; reflexivity.
  - vm_compute. reflexivity.
Defined.

(** *** The links of the listing *)

Lemma is_product_url_truthy (link : string) :
  is_product_url link = true -> PyStr.truthy link = true.
Proof. destruct link; cbn; [discriminate | reflexivity]. Qed.

Lemma add_links_sound (w : World) (links : list string) (acc : gset string)
      (url : string) :
  url ∈ add_links w links acc ->
  url ∈ acc
  \/ exists link,
       In link links /\ is_product_url link = true
       /\ urljoin w base_url (PyStr.replace "?lang=default" "" link) = Some url.
Proof.
  revert acc. induction links as [|link links IH]; intros acc; cbn [add_links];
    [auto|].
  destruct (PyStr.truthy link && is_product_url link) eqn:E.
  - apply andb_prop in E as [_ E].
    destruct (urljoin w base_url _) as [full_url|] eqn:Eu; [|auto].
    intros H. apply IH in H as [H | (l & Hl & Hp & Hu)].
    + apply elem_of_union in H as [H | H]; [|auto].
      apply elem_of_singleton in H as ->. right. exists link.
      split; [left; reflexivity|]. split; assumption.
    + right. exists l. split; [right; exact Hl|]. split; assumption.
  - intros H. apply IH in H as [H | (l & Hl & Hp & Hu)]; [auto|].
    right. exists l. split; [right; exact Hl|]. split; assumption.
Qed.

Lemma add_links_grows (w : World) (links : list string) (acc : gset string)
      (url : string) :
  url ∈ acc -> url ∈ add_links w links acc.
Proof.
  revert acc. induction links as [|link links IH]; intros acc H; cbn [add_links];
    [exact H|].
  destruct (PyStr.truthy link && is_product_url link); [|apply IH, H].
  destruct (urljoin w base_url _); [|exact H]. apply IH. set_solver.
Qed.

Lemma add_links_complete (w : World) (links : list string) (acc : gset string)
      (link : string) :
  (forall l, In l links -> is_product_url l = true ->
             is_Some (urljoin w base_url (PyStr.replace "?lang=default" "" l))) ->
  In link links -> is_product_url link = true ->
  exists url,
    urljoin w base_url (PyStr.replace "?lang=default" "" link) = Some url
    /\ url ∈ add_links w links acc.
Proof.
  revert acc. induction links as [|l links IH]; intros acc Hjoin Hin Hp;
    [destruct Hin|].
  cbn [add_links]. destruct Hin as [-> | Hin].
  - rewrite (is_product_url_truthy _ Hp), Hp. cbn.
    destruct (Hjoin link (or_introl eq_refl) Hp) as [url Hu]. rewrite Hu.
    exists url. split; [reflexivity|]. apply add_links_grows. set_solver.
  - assert (Hjoin' : forall l', In l' links -> is_product_url l' = true ->
              is_Some (urljoin w base_url (PyStr.replace "?lang=default" "" l')))
      by (intros l' Hl'; apply Hjoin; right; exact Hl').
    destruct (PyStr.truthy l && is_product_url l) eqn:E; [|apply IH; assumption].
    apply andb_prop in E as [_ E].
    destruct (Hjoin l (or_introl eq_refl) E) as [url Hu]. rewrite Hu.
    apply IH; assumption.
Qed.

(** X11: the links of the listing.  The list returned has no
    duplicates, and each URL in it is [urljoin] of the base URL and a
    link of the listing page that [is_product_url] accepts, with the
    text ?lang=default removed.  When no [urljoin] raises, every such
    link is represented.  When the listing cannot be fetched the list
    is empty. *)
Theorem product_links_of_listing (w : World) :
  List.NoDup (get_all_product_links w)
  /\ (forall url, In url (get_all_product_links w) ->
        exists response tree link,
          fetch w list_page_url = Some (response, tree)
          /\ In link (hrefs tree) /\ is_product_url link = true
          /\ urljoin w base_url (PyStr.replace "?lang=default" "" link) = Some url)
  /\ (forall response tree,
        fetch w list_page_url = Some (response, tree) ->
        (forall l, In l (hrefs tree) -> is_product_url l = true ->
                   is_Some (urljoin w base_url (PyStr.replace "?lang=default" "" l))) ->
        forall link, In link (hrefs tree) -> is_product_url link = true ->
          exists url,
            urljoin w base_url (PyStr.replace "?lang=default" "" link) = Some url
            /\ In url (get_all_product_links w))
  /\ (fetch w list_page_url = None -> get_all_product_links w = []).
Proof.
  unfold get_all_product_links, list_of_set.
  destruct (fetch w list_page_url) as [[response tree]|].
  - split; [apply NoDup_ListNoDup, NoDup_elements|]. split; [|split].
    + intros url Hin. apply list_elem_of_In, elem_of_elements in Hin.
      apply add_links_sound in Hin as [Hin | (link & H)]; [set_solver|].
      exists response, tree, link. split; [reflexivity | exact H].
    + intros r t [= <- <-] Hjoin link Hin Hp.
      destruct (add_links_complete w (hrefs tree) ∅ link Hjoin Hin Hp)
        as (url & Hu & Hin').
      exists url. split; [exact Hu|].
      apply list_elem_of_In, elem_of_elements. exact Hin'.
    + discriminate.
  - split; [constructor|]. split; [intros url []|]. split; [discriminate | reflexivity].
Qed.

(** *** The crawl *)

Lemma apply_limit_length (limit : option Z) (links : list string) :
  (length (apply_limit limit links) <= length links)%nat.
Proof.
  unfold apply_limit. destruct limit as [n|]; [|apply Nat.le_refl].
  destruct (0 <? n)%Z; [|apply Nat.le_refl].
  rewrite length_take. apply Nat.le_min_r.
Qed.

Lemma omap_kept_named (w : World) (links : list string) :
  Forall (fun p => PyStr.truthy (name p) = true) (omap (kept w) links).
Proof.
  induction links as [|url links IH]; cbn; [constructor|].
  unfold kept at 1. destruct (scrape_product_details w url) as [p|]; [|exact IH].
  destruct (PyStr.truthy (name p)) eqn:E; [|exact IH].
  constructor; assumption.
Qed.

Lemma omap_length_le {A B : Type} (f : A -> option B) (l : list A) :
  (length (omap f l) <= length l)%nat.
Proof.
  induction l as [|x l IH]; cbn; [apply Nat.le_refl|].
  destruct (f x); cbn; [apply le_n_S, IH | apply Nat.le_le_succ_r, IH].
Qed.

(** X12: what one call of the crawler adds.  The list returned is the
    earlier products followed by the products added; each product added
    has a non-empty name; there are no more of them than links, and no
    more than [limit] when the limit is positive.  A limit of zero or
    less is no limit. *)
Theorem crawl_adds_named_products_within_limit (w : World) (self : scraper)
        (limit : option Z) :
  exists added,
    snd (scrape_all_products w self limit) = (products self ++ added)%list
    /\ Forall (fun p => PyStr.truthy (name p) = true) added
    /\ (length added <= length (get_all_product_links w))%nat
    /\ (forall n, limit = Some n -> (0 < n)%Z -> (length added <= Z.to_nat n)%nat)
    /\ (forall n, limit = Some n -> (n <= 0)%Z ->
          scrape_all_products w self limit = scrape_all_products w self None).
Proof.
  exists (omap (kept w) (visited w limit)).
  split; [apply scrape_all_products_returns|].
  split; [apply omap_kept_named|].
  assert (Hlen : (length (omap (kept w) (visited w limit))
                  <= length (visited w limit))%nat) by apply omap_length_le.
  split; [|split].
  - etransitivity; [exact Hlen|]. apply apply_limit_length.
  - intros n -> Hn. etransitivity; [exact Hlen|].
    unfold visited, apply_limit. rewrite (proj2 (Z.ltb_lt 0 n) Hn).
    rewrite length_take. apply Nat.le_min_l.
  - intros n -> Hn. unfold scrape_all_products, apply_limit.
    rewrite (proj2 (Z.ltb_ge 0 n) Hn). reflexivity.
Qed.

(** *** The service *)

Lemma details_priced_has_sizes (w : World) (url : string) (p : product) :
  scrape_product_details w url = Some p ->
  has_prices p = true -> has_sizes p = true.
Proof.
  intros Hp Hprices.
  apply details_from_variants in Hp
    as (response & tree & _ & Hsized & Hs & Hpr & Hinfo & _).
  unfold has_sizes. rewrite Hs.
  destruct (snd (collect_variants w response tree)) as [|v vs] eqn:E.
  - exfalso. unfold has_prices in Hprices. rewrite Hpr in Hprices.
    cbn in Hinfo. injection Hinfo as Hinfo. rewrite <- Hinfo in Hprices.
    cbn in Hprices.
    rewrite bool_decide_true in Hprices by reflexivity. discriminate.
  - cbn [is_nil]. rewrite (consolidate_sizes_nil _ Hsized). reflexivity.
Qed.

Lemma filter_length_le {A : Type} (f g : A -> bool) (l : list A) :
  Forall (fun x => f x = true -> g x = true) l ->
  (length (List.filter f l) <= length (List.filter g l))%nat.
Proof.
  induction 1 as [|x l Hx _ IH]; cbn; [apply Nat.le_refl|].
  destruct (f x) eqn:Ef.
  - rewrite (Hx eq_refl). cbn. apply le_n_S, IH.
  - destruct (g x); cbn; [apply Nat.le_le_succ_r, IH | exact IH].
Qed.

Lemma filter_length_all {A : Type} (f : A -> bool) (l : list A) :
  (length (List.filter f l) <= length l)%nat.
Proof.
  induction l as [|x l IH]; cbn; [apply Nat.le_refl|].
  destruct (f x); cbn; [apply le_n_S, IH | apply Nat.le_le_succ_r, IH].
Qed.

Lemma omap_kept_details (w : World) (links : list string) :
  Forall (fun p => exists url, scrape_product_details w url = Some p)
         (omap (kept w) links).
Proof.
  induction links as [|url links IH]; cbn; [constructor|].
  unfold kept at 1. destruct (scrape_product_details w url) as [p|] eqn:E; [|exact IH].
  destruct (PyStr.truthy (name p)); [|exact IH].
  constructor; [exists url; exact E | exact IH].
Qed.

(** X13: what [run_scrape] returns.  It lists, in the order of the
    visit, the products the crawler kept, each with its name, sizes,
    price summary and prices; [total_products] is their number, which
    a positive limit bounds; and of the two statistics the number of
    products with prices is at most the number of products with sizes,
    which is at most the total.  Afterwards the status route shows no
    run in progress, the time of this run, and its summary. *)
Theorem run_scrape_payload (w : World) (rt : Runtime) (limit : option Z)
        (st : scraping_status) :
  exists result,
    snd (run_scrape w rt limit st) = Ok result
    /\ payload_products result
       = map format_product (omap (kept w) (visited w limit))
    /\ total_products result = length (payload_products result)
    /\ (products_with_prices (payload_statistics result)
        <= products_with_sizes (payload_statistics result))%nat
    /\ (products_with_sizes (payload_statistics result)
        <= total_products result)%nat
    /\ (forall n, limit = Some n -> (0 < n)%Z ->
          (total_products result <= Z.to_nat n)%nat)
    /\ status (fst (run_scrape w rt limit st))
       = StatusView false (Some (now rt))
           (Some (Completed (total_products result) (now rt) "completed"
                            (duration rt)))
           None.
Proof.
  unfold run_scrape, run_scrape_with, crawl_site.
  rewrite scrape_all_products_returns. cbn [products new_scraper app].
  eexists. split; [reflexivity|]. cbn.
  split; [reflexivity|]. split; [reflexivity|].
  rewrite length_map. split; [|split; [|split]].
  - apply filter_length_le.
    eapply List.Forall_impl; [|apply omap_kept_details].
    intros p [url Hp]. exact (details_priced_has_sizes w url p Hp).
  - apply filter_length_all.
  - intros n -> Hn. etransitivity; [apply omap_length_le|].
    unfold visited, apply_limit. rewrite (proj2 (Z.ltb_lt 0 n) Hn).
    rewrite length_take. apply Nat.le_min_l.
  - reflexivity.
Qed.

Lemma run_scrape_consistent (crawl : option Z -> result (list product))
      (rt : Runtime) (limit : option Z) (st : scraping_status) :
  consistent st -> consistent (fst (run_scrape_with crawl rt limit st)).
Proof.
  intros (Hrun & Hfull & Hlast). unfold run_scrape_with, started.
  destruct (crawl limit) as [products|e]; cbn.
  - split; [reflexivity|]. split.
    + split; reflexivity.
    + split; [reflexivity|]. eexists. repeat split; reflexivity.
  - split; [reflexivity|]. split; [exact Hfull|]. eexists. reflexivity.
Qed.

Lemma serve_consistent (st : scraping_status) (e : event) :
  consistent st -> consistent (serve st e).
Proof.
  intros H. destruct e as [crawl rt limit | crawl rt limit]; unfold serve.
  - unfold scrape_sync_with. rewrite (proj1 H).
    pose proof (run_scrape_consistent crawl rt limit st H) as Hnext.
    destruct (run_scrape_with crawl rt limit st) as [st' outcome]. exact Hnext.
  - apply run_scrape_consistent, H.
Qed.

Lemma after_consistent (events : list event) : consistent (after events).
Proof.
  unfold after.
  assert (Hfold : forall st, consistent st ->
                             consistent (fold_left serve events st)).
  { induction events as [|e events IH]; intros st Hst; cbn [fold_left];
      [exact Hst|].
    apply IH, serve_consistent, Hst. }
  apply Hfold. repeat split; reflexivity.
Qed.

Lemma run_scrape_states_running (crawl : option Z -> result (list product))
      (rt : Runtime) (limit : option Z) (st0 st : scraping_status) :
  In st (run_scrape_states crawl rt limit st0) -> is_running st = true.
Proof.
  unfold run_scrape_states, started.
  destruct (crawl limit) as [products|e]; cbn [In is_running];
    intros H; repeat (destruct H as [<- | H]; [reflexivity|]); destruct H.
Qed.

(** X14: a run of [run_scrape] is made by a call of the synchronous
    route or by a task that the background route queued.  After any
    number of runs, each ending before the next begins, the status
    agrees with itself: no run is in progress; [last_run] is the time
    of the last full result, or None when there is none; a completed
    summary repeats the total, the time and the duration of the last
    full result and comes with no error; a failed summary comes with
    an error message.  With this status the synchronous route is not
    refused, and the background route, asked not to wait, answers
    accepted and queues a run.  While a run is at work, from line 38
    until line 88, the status has [is_running] set: the synchronous
    route then answers 409 and the background route answers running
    and queues nothing, and both leave the status as it is.  The run
    ends with line 88 applied to the last of these statuses. *)
Theorem status_between_and_during_runs (events : list event)
        (crawl : option Z -> result (list product)) (rt : Runtime)
        (limit : option Z) (st0 : scraping_status) :
  consistent (after events)
  /\ (forall crawl' rt' limit',
        scrape_sync_with crawl' rt' limit' (after events)
        = (fst (run_scrape_with crawl' rt' limit' (after events)),
           match snd (run_scrape_with crawl' rt' limit' (after events)) with
           | Ok result => Answer result
           | Raise e => Escapes e
           end))
  /\ scrape_async_no_wait (after events) = (Accepted, true)
  /\ (forall st, In st (run_scrape_states crawl rt limit st0) ->
        is_running st = true
        /\ (forall crawl' rt' limit',
              scrape_sync_with crawl' rt' limit' st
              = (st, HttpError 409 "Scraping is already in progress"))
        /\ scrape_async_no_wait st = (Running, false))
  /\ fst (run_scrape_with crawl rt limit st0)
     = finished (List.last (run_scrape_states crawl rt limit st0) st0).
Proof.
  pose proof (after_consistent events) as H.
  split; [exact H|]. destruct H as (Hrun & _).
  split; [|split; [|split]].
  - intros crawl' rt' limit'. unfold scrape_sync_with. rewrite Hrun.
    destruct (run_scrape_with crawl' rt' limit' (after events)) as [st' outcome].
    reflexivity.
  - unfold scrape_async_no_wait. rewrite Hrun. reflexivity.
  - intros st Hst. apply run_scrape_states_running in Hst.
    split; [exact Hst|]. split.
    + intros crawl' rt' limit'. unfold scrape_sync_with. rewrite Hst. reflexivity.
    + unfold scrape_async_no_wait. rewrite Hst. reflexivity.
  - unfold run_scrape_with, run_scrape_states, finished, started.
    destruct (crawl limit) as [products|e]; reflexivity.
Qed.

Lemma status_between_and_during_runs_witness :
  is_running (started initial_status) = true
  /\ scrape_sync_with Cases.empty_crawl Cases.fixed_runtime None
                      (started initial_status)
     = (started initial_status, HttpError 409 "Scraping is already in progress")
  /\ scrape_async_no_wait (started initial_status) = (Running, false).
Proof.
  destruct (status_between_and_during_runs
              [BackgroundRun Cases.empty_crawl Cases.fixed_runtime None]
              Cases.empty_crawl Cases.fixed_runtime None initial_status)
    as (_ & _ & _ & Hduring & _).
  destruct (Hduring (started initial_status)) as (Hrun & Hsync & Hasync).
  { vm_compute. right. left. reflexivity. }
  split; [exact Hrun|]. split; [apply Hsync | exact Hasync].
Defined.

(** *** White space in sizes and names *)

Lemma leading_behind (f : ascii -> bool) (l : list ascii) :
  (leading f l ++ behind f l)%list = l.
Proof.
  induction l as [|c t IH]; cbn; [reflexivity|].
  destruct (f c); cbn; [rewrite IH|]; reflexivity.
Qed.

Lemma behind_head (f : ascii -> bool) (l : list ascii) (c : ascii) (t : list ascii) :
  behind f l = c :: t -> f c = false.
Proof.
  induction l as [|d l IH]; cbn; [discriminate|].
  destruct (f d) eqn:E; [exact IH|]. intros [= <- <-]. exact E.
Qed.

Lemma star_greedy_cls_head (f : ascii -> bool) (n : nat) (st : mstate) :
  (length (rest st) <= n)%nat ->
  exists more,
    star_greedy (run (Cls f)) n st
    = MState (last_of (prev st) (leading f (rest st))) (behind f (rest st))
             (grp1 st) :: more.
Proof.
  set (step := run (Cls f)).
  revert st. induction n as [|n IH]; intros [p s g] Hn; cbn [rest prev grp1] in *.
  - destruct s; [|cbn in Hn; inversion Hn]. cbn. eexists. reflexivity.
  - cbn [star_greedy]. destruct s as [|c t].
    + cbn. eexists. reflexivity.
    + change (step (MState p (c :: t) g))
        with (if f c then [MState (Some c) t g] else []).
      cbn [leading behind]. destruct (f c) eqn:E.
      * cbn [List.filter]. unfold progress at 1. cbn [rest length].
        rewrite (proj2 (Nat.ltb_lt _ _) (Nat.lt_succ_diag_r _)).
        cbn [flat_map]. rewrite app_nil_r.
        destruct (IH (MState (Some c) t g)) as [more Hmore];
          [cbn in *; apply le_S_n, Hn|].
        rewrite Hmore. cbn [rest prev grp1]. rewrite last_of_cons.
        eexists. reflexivity.
      * cbn. eexists. reflexivity.
Qed.

Lemma match_here_plus_cls (f : ascii -> bool) (start : nat) (p : option ascii)
      (s : list ascii) :
  match_here (Plus (Cls f)) start (MState p s None)
  = match s with
    | c :: _ => if f c then Some (RMatch start (leading f s) None) else None
    | [] => None
    end.
Proof.
  unfold match_here, Plus.
  change (run (Cat (Cls f) (Star (Cls f))) (MState p s None))
    with (flat_map (run (Star (Cls f))) (run (Cls f) (MState p s None))).
  destruct s as [|c t]; [reflexivity|].
  change (run (Cls f) (MState p (c :: t) None))
    with (if f c then [MState (Some c) t None] else []).
  destruct (f c) eqn:E; [|reflexivity].
  cbn [flat_map]. rewrite app_nil_r.
  change (run (Star (Cls f)) (MState (Some c) t None))
    with (star_greedy (run (Cls f)) (length t) (MState (Some c) t None)).
  destruct (star_greedy_cls_head f (length t) (MState (Some c) t None))
    as [more Hmore]; [apply Nat.le_refl|].
  rewrite Hmore. cbn [rest prev grp1 leading]. rewrite E. f_equal. f_equal.
  apply consumed_text. cbn [rest app]. f_equal. symmetry. apply leading_behind.
Qed.

Lemma search_from_plus_cls (f : ascii -> bool) (s : list ascii) (start : nat)
      (p : option ascii) :
  search_from (Plus (Cls f)) start p s
  = match behind (fun c => negb (f c)) s with
    | [] => None
    | found =>
        Some (RMatch (start + length (leading (fun c => negb (f c)) s))
                     (leading f found) None)
    end.
Proof.
  revert start p. induction s as [|c t IH]; intros start p;
    cbn [search_from]; rewrite match_here_plus_cls; [reflexivity|].
  cbn [behind leading]. destruct (f c) eqn:E; cbn [negb].
  - cbn [length leading]. rewrite E, Nat.add_0_r. reflexivity.
  - rewrite IH. destruct (behind _ t); [reflexivity|].
    cbn [length]. rewrite Nat.add_succ_r. reflexivity.
Qed.

Lemma collapse_leading (l : list ascii) :
  collapse false l
  = (leading not_space l ++ collapse false (behind not_space l))%list.
Proof.
  induction l as [|c t IH]; [reflexivity|]. cbn [leading behind collapse].
  unfold not_space at 1 3. destruct (Chars.is_space c) eqn:E; cbn [negb].
  - cbn. rewrite E. reflexivity.
  - cbn [app]. rewrite IH. reflexivity.
Qed.

Lemma collapse_in_space (l : list ascii) :
  collapse true l = collapse false (behind Chars.is_space l).
Proof.
  induction l as [|c t IH]; [reflexivity|]. cbn [collapse behind].
  destruct (Chars.is_space c) eqn:E; [exact IH|].
  cbn [collapse]. rewrite E. reflexivity.
Qed.

Lemma sub_spaces_from (fuel : nat) (s : list ascii) (start : nat) (p : option ascii) :
  (length s < fuel)%nat ->
  ReSub.sub_from (finditer_from fuel spaces_re start p s) start [" "%char] s
  = collapse false s.
Proof.
  revert s start p. induction fuel as [|fuel IH]; intros s start p Hfuel;
    [inversion Hfuel|].
  cbn [finditer_from]. unfold spaces_re, Space.
  rewrite search_from_plus_cls. fold not_space.
  rewrite (collapse_leading s).
  pose proof (leading_behind not_space s) as Hs.
  destruct (behind not_space s) as [|c r] eqn:Eb.
  - cbn. rewrite app_nil_r in *. symmetry. exact Hs.
  - pose proof (behind_head _ _ _ _ Eb) as Hc. unfold not_space in Hc.
    apply negb_false_iff in Hc.
    pose proof (leading_behind Chars.is_space (c :: r)) as Hr.
    set (pre := leading not_space s) in *.
    set (blank := leading Chars.is_space (c :: r)) in *.
    set (rest' := behind Chars.is_space (c :: r)) in *.
    assert (Hblank : blank = c :: leading Chars.is_space r)
      by (unfold blank; cbn; rewrite Hc; reflexivity).
    cbn [m_start group0].
    replace (start + length pre - start)%nat with (length pre)
      by (rewrite Nat.add_comm, Nat.add_sub; reflexivity).
    replace (Nat.eqb (length blank) 0) with false
      by (rewrite Hblank; reflexivity).
    assert (Hlen : length s = (length pre + length blank + length rest')%nat).
    { rewrite <- Hs, <- Hr, !length_app. apply Nat.add_assoc. }
    replace (Nat.ltb (length s) (length pre + length blank)) with false.
    2:{ symmetry. apply Nat.ltb_ge. rewrite Hlen. apply Nat.le_add_r. }
    cbn [ReSub.sub_from m_start group0].
    replace (start + length pre - start)%nat with (length pre)
      by (rewrite Nat.add_comm, Nat.add_sub; reflexivity).
    assert (Hskip : skipn (length pre + length blank) s = rest').
    { rewrite <- Hs, <- Hr, app_assoc.
      rewrite <- length_app. apply drop_app_length. }
    assert (Htake : firstn (length pre) s = pre).
    { rewrite <- Hs. apply take_app_length. }
    rewrite Hskip, Htake. f_equal. cbn [app]. 
    replace (start + length pre + length blank)%nat
      with (start + (length pre + length blank))%nat by apply Nat.add_assoc.
    rewrite IH.
    + cbn [collapse]. rewrite Hc. f_equal. rewrite collapse_in_space.
      unfold rest'. cbn [behind]. rewrite Hc. reflexivity.
    + assert (Hpos : (0 < length blank)%nat) by (rewrite Hblank; cbn; lia).
      lia.
Qed.

Lemma sub_spaces (s : string) :
  ReSub.sub spaces_re " " s = PyStr.of_list (collapse false (PyStr.to_list s)).
Proof.
  unfold ReSub.sub, finditer. f_equal.
  apply (sub_spaces_from (S (length (list_ascii_of_string s)))).
  apply Nat.lt_succ_diag_r.
Qed.

Lemma collapse_single_spaced (l : list ascii) :
  single_spaced (collapse false l) = true
  /\ single_spaced (collapse true l) = true
  /\ starts_plain (collapse true l) = true.
Proof.
  induction l as [|c t (IH1 & IH2 & IH3)]; [repeat split|].
  cbn [collapse]. destruct (Chars.is_space c) eqn:E.
  - split; [|split; assumption].
    cbn [single_spaced]. rewrite IH2, IH3. reflexivity.
  - cbn [single_spaced starts_plain]. rewrite E, IH1. repeat split.
Qed.

Lemma collapse_last (in_space : bool) (l : list ascii) (d : ascii) :
  Chars.is_space d = false ->
  exists front, collapse in_space (l ++ [d]) = (front ++ [d])%list.
Proof.
  intros Hd. revert in_space. induction l as [|c t IH]; intros in_space.
  - cbn. rewrite Hd. exists []. reflexivity.
  - cbn [app collapse]. destruct (Chars.is_space c).
    + destruct (IH true) as [front ->]. destruct in_space.
      * exists front. reflexivity.
      * exists (" "%char :: front). reflexivity.
    + destruct (IH false) as [front ->]. exists (c :: front). reflexivity.
Qed.

Lemma collapse_trimmed (l : list ascii) :
  trimmed l -> trimmed (collapse false l).
Proof.
  intros [(c & l1 & E1 & Hc) (d & l2 & E2 & Hd)]. split.
  - rewrite E1. cbn. rewrite Hc. exists c. eexists. split; [reflexivity | exact Hc].
  - rewrite E2. destruct (collapse_last false l2 d Hd) as [front ->].
    exists d, front. split; [reflexivity | exact Hd].
Qed.

Lemma size_pattern_trimmed (p : option ascii) (u t : list ascii) :
  Matches size_pattern p u t -> trimmed u.
Proof.
  intros Hm. unfold size_pattern in Hm. cbn [Seq] in Hm.
  apply Matches_Cat in Hm as (u1 & x1 & -> & Hb & Hm).
  inversion Hb; subst. cbn [app] in *.
  apply Matches_Cat in Hm as (u2 & x2 & -> & Hd & Hm).
  apply Matches_Plus_Cls in Hd as [Hne Hd].
  apply Matches_Cat in Hm as (u3 & x3 & -> & _ & Hm).
  apply Matches_Cat in Hm as (u4 & x4 & -> & _ & Hm).
  apply Matches_Cat in Hm as (u5 & x5 & -> & _ & Hm).
  apply Matches_Cat in Hm as (u6 & x6 & -> & Hg & Hm).
  inversion Hm; subst.
  assert (Hunits : ends_well
            (Alts [LitI "oz"; LitI "g"; LitI "ml"; LitI "kg"; LitI "lb";
                   LitI "gram"; LitI "liter"; LitI "L"]))
    by (cbn [Alts]; ends_ok).
  destruct (Hunits _ _ _ Hg) as (d & u' & -> & Hspace).
  split.
  - destruct u2 as [|c u2]; [congruence|].
    exists c. eexists. split; [reflexivity|].
    apply digit_not_space. apply Forall_inv in Hd. exact Hd.
  - exists d, (u2 ++ u3 ++ u4 ++ u5 ++ u')%list. split; [|exact Hspace].
    rewrite app_nil_r, <- !app_assoc. reflexivity.
Qed.

Lemma first_size_normal (text size : string) :
  first_size text = Some size -> normal_size size.
Proof.
  unfold first_size, findall0, finditer.
  destruct (finditer_from _ size_pattern 0 None _) as [|m ms] eqn:E; [discriminate|].
  cbn [map]. intros [= <-].
  assert (Hm : trimmed (group0 m)).
  { destruct (finditer_from_group0 (S (length (list_ascii_of_string text)))
                size_pattern 0 None (list_ascii_of_string text) m)
      as (p & t & Hm); [rewrite E; left; reflexivity|].
    exact (size_pattern_trimmed _ _ _ Hm). }
  unfold group0_str. fold PyStr.of_list.
  rewrite (strip_trimmed _ Hm), sub_spaces. unfold normal_size.
  rewrite !to_list_of_list. split.
  - apply collapse_trimmed, Hm.
  - apply collapse_single_spaced.
Qed.

Lemma size_truthy_eq (x : option string) (s : string) :
  size_truthy x = Some s -> x = Some s.
Proof.
  destruct x as [t|]; cbn; [|discriminate].
  destruct (PyStr.truthy t); [|discriminate]. intros [= <-]. reflexivity.
Qed.

Lemma offer_size_normal (offer : json) (fields : list string) (size : string) :
  offer_size offer fields = Ok (Some size) -> normal_size size.
Proof.
  induction fields as [|field more IH]; cbn [offer_size]; [discriminate|].
  destruct (Py.contains field offer) as [[]|]; cbn; [|exact IH | discriminate].
  destruct (Py.getitem offer field) as [[]|]; cbn; try discriminate.
  destruct (first_size s) as [found|] eqn:E; [|exact IH].
  intros [= <-]. exact (first_size_normal _ _ E).
Qed.

Lemma variant_size_normal (w : World) (variant_data : json) (fields : list string)
      (size : string) :
  variant_size w variant_data fields = Ok (Some size) -> normal_size size.
Proof.
  induction fields as [|field more IH]; cbn [variant_size]; [discriminate|].
  destruct (Py.contains field variant_data) as [[]|]; cbn;
    [|exact IH | discriminate].
  destruct (Py.getitem variant_data field) as [value|]; cbn; [|discriminate].
  destruct (first_size (py_str w value)) as [found|] eqn:E; [|exact IH].
  intros [= <-]. exact (first_size_normal _ _ E).
Qed.

Ltac normal_ok :=
  lazymatch goal with
  | H : size_truthy ?x = Some ?s |- normal_size (size (MkVariant ?s _ _)) =>
      apply size_truthy_eq in H; cbn [size];
      try (injection H as H); subst;
      eauto using first_size_normal, offer_size_normal, variant_size_normal
  end.

Lemma radio_and_list_options_normal (tree : page) :
  Forall (fun v => normal_size (size v))
         (run_block (radio_and_list_options tree) []).
Proof.
  apply run_block_preserves; [|constructor].
  unfold radio_and_list_options, radio_option, list_option. keep; normal_ok.
Qed.

Lemma json_ld_normal (w : World) (tree : page) :
  Forall (fun v => normal_size (size v)) (extract_variants_from_json_ld w tree).
Proof.
  unfold extract_variants_from_json_ld.
  apply run_block_preserves; [|constructor].
  unfold json_ld_script, json_ld_item, json_ld_offer. keep; normal_ok.
Qed.

Lemma inline_json_normal (w : World) (text : string) :
  Forall (fun v => normal_size (size v)) (extract_variants_from_inline_json w text).
Proof.
  unfold extract_variants_from_inline_json.
  apply run_block_preserves; [|constructor].
  unfold inline_match, inline_variant. keep; normal_ok.
Qed.

Lemma tables_normal (tree : page) :
  Forall (fun v => normal_size (size v)) (extract_variants_from_tables tree).
Proof.
  unfold extract_variants_from_tables.
  apply run_block_preserves; [|constructor].
  unfold table, table_row. keep; normal_ok.
Qed.

Lemma proximity_normal (tree : page) :
  Forall (fun v => normal_size (size v)) (extract_variants_from_proximity tree).
Proof.
  unfold extract_variants_from_proximity.
  apply run_block_preserves; [|constructor].
  induction (text_elements tree) as [|element more IH]; cbn [proximity_scan].
  - apply preserves_ret.
  - keep; try exact IH. normal_ok.
Qed.

Lemma lstrip_l_behind (l : list ascii) :
  PyStr.lstrip_l l = behind Chars.is_space l.
Proof.
  induction l as [|c t IH]; [reflexivity|]. cbn. rewrite IH. reflexivity.
Qed.

Lemma strip_result (s : string) :
  PyStr.strip s = "" \/ trimmed (PyStr.to_list (PyStr.strip s)).
Proof.
  unfold PyStr.strip. rewrite !lstrip_l_behind.
  set (l := behind Chars.is_space (PyStr.to_list s)).
  pose proof (leading_behind Chars.is_space (rev l)) as Hrev.
  destruct (behind Chars.is_space (rev l)) as [|d y] eqn:Ey; [left; reflexivity|].
  right. rewrite to_list_of_list.
  pose proof (behind_head _ _ _ _ Ey) as Hd.
  split; [|exists d, (rev y); split; [reflexivity | exact Hd]].
  apply (f_equal (@rev ascii)) in Hrev.
  rewrite rev_involutive, rev_app_distr in Hrev.
  destruct (rev (d :: y)) as [|c front] eqn:Er.
  { apply (f_equal (@length ascii)) in Er. rewrite length_rev in Er. discriminate. }
  exists c, front. split; [reflexivity|].
  cbn [app] in Hrev. unfold l in Hrev. symmetry in Hrev.
  exact (behind_head _ _ _ _ Hrev).
Qed.

Lemma strip_truthy_trimmed (s : string) :
  PyStr.truthy (PyStr.strip s) = true -> trimmed (PyStr.to_list (PyStr.strip s)).
Proof.
  intros H. destruct (strip_result s) as [E | Ht]; [|exact Ht].
  rewrite E in H. discriminate.
Qed.

Lemma option_size_trimmed (text size : string) :
  size_truthy (option_size text) = Some size -> trimmed (PyStr.to_list size).
Proof.
  intros H. pose proof (size_truthy_Some _ _ H) as Ht.
  apply size_truthy_eq in H. unfold option_size in H.
  destruct (findall0 size_pattern text);
    [destruct (existsb _ unit_words); [|discriminate]|];
    injection H as <-; exact (strip_truthy_trimmed _ Ht).
Qed.

Lemma normal_size_trimmed (s : string) :
  normal_size s -> trimmed (PyStr.to_list s).
Proof. intros [H _]. exact H. Qed.

Lemma strategies_trimmed (w : World) (response : response) (tree : page)
      (s : strategy) :
  Forall (fun v => trimmed (PyStr.to_list (size v)))
         (run_strategy w response tree s).
Proof.
  destruct s; cbn [run_strategy].
  - unfold extract_variants_from_options.
    apply run_block_preserves.
    + unfold radio_and_list_options, radio_option, list_option.
      keep; apply normal_size_trimmed; normal_ok.
    + apply run_block_preserves; [|constructor].
      unfold select_options, select_option. keep.
      cbn [size]. eapply option_size_trimmed. eassumption.
  - eapply List.Forall_impl; [|apply json_ld_normal].
    intros v. apply normal_size_trimmed.
  - eapply List.Forall_impl; [|apply inline_json_normal].
    intros v. apply normal_size_trimmed.
  - eapply List.Forall_impl; [|apply tables_normal].
    intros v. apply normal_size_trimmed.
  - eapply List.Forall_impl; [|apply proximity_normal].
    intros v. apply normal_size_trimmed.
Qed.

(** X15: sizes in normal form.  Every size the strategies take with
    the shared size pattern (radio inputs and option lists, JSON-LD,
    inline JSON, tables, proximity) is not empty, has no white space at
    either end, and holds no white space but single blanks.  A size of
    a select option is its trimmed text: it has no white space at
    either end. *)
Theorem sizes_in_normal_form (w : World) (response : response) (tree : page) :
  (forall s, s <> Options ->
     Forall (fun v => normal_size (size v)) (run_strategy w response tree s))
  /\ Forall (fun v => normal_size (size v))
            (run_block (radio_and_list_options tree) [])
  /\ Forall (fun v => trimmed (PyStr.to_list (size v)))
            (run_block (select_options w tree) []).
Proof.
  split; [|split].
  - intros [] Hs; cbn [run_strategy]; [congruence | | | |].
    + apply json_ld_normal.
    + apply inline_json_normal.
    + apply tables_normal.
    + apply proximity_normal.
  - apply radio_and_list_options_normal.
  - apply run_block_preserves; [|constructor].
    unfold select_options, select_option. keep.
    cbn [size]. eapply option_size_trimmed. eassumption.
Qed.

(** X16: the sizes of a product are distinct, and each of them is a
    non-empty text without white space at either end, whether the
    variants gave the sizes or the text was mined. *)
Theorem sizes_distinct_and_trimmed (w : World) (url : string) (p : product) :
  scrape_product_details w url = Some p ->
  List.NoDup (sizes p)
  /\ Forall (fun s => s <> "" /\ trimmed (PyStr.to_list s)) (sizes p).
Proof.
  intros Hp.
  assert (Hne : forall s, trimmed (PyStr.to_list s) -> s <> "").
  { intros s [(c & l & E & _) _] ->. discriminate. }
  apply details_from_variants in Hp as (response & tree & _ & _ & -> & _).
  destruct (is_nil (snd (collect_variants w response tree))).
  - destruct (text_mining_distinct tree) as [Hnd Ht]. split; [exact Hnd|].
    eapply List.Forall_impl; [|exact Ht]. intros s Hs. split; [apply Hne|]; exact Hs.
  - split; [rewrite consolidate_sizes_first_seen; apply first_seen_NoDup|].
    apply List.Forall_forall. intros s Hs.
    apply consolidate_sizes_In in Hs as [_ (v & Hv & <-)].
    destruct (collect_variants_of_one w response tree) as [s0 E].
    rewrite E in Hv.
    pose proof (strategies_trimmed w response tree s0) as Ht.
    rewrite List.Forall_forall in Ht.
    split; [apply Hne|]; exact (Ht v Hv).
Qed.

Lemma sizes_distinct_and_trimmed_witness :
  exists p,
    scrape_product_details Examples.text_world Examples.page_url = Some p
    /\ List.NoDup (sizes p)
    /\ Forall (fun s => s <> "" /\ trimmed (PyStr.to_list s)) (sizes p).
Proof.
  eexists. split; [vm_compute; reflexivity|].
  apply (sizes_distinct_and_trimmed Examples.text_world Examples.page_url).
  vm_compute. reflexivity.
Defined.

Lemma join_trimmed (parts : list string) :
  parts <> [] ->
  Forall (fun s => trimmed (PyStr.to_list s)) parts ->
  trimmed (PyStr.to_list (PyStr.join " " parts)).
Proof.
  induction parts as [|first [|second more] IH]; [congruence | |].
  - intros _ H. apply Forall_inv in H. exact H.
  - intros _ H. apply Forall_cons in H as [Hfirst Hmore].
    specialize (IH ltac:(discriminate) Hmore).
    change (PyStr.join " " (first :: second :: more))
      with (first ++ " " ++ PyStr.join " " (second :: more))%string.
    rewrite !to_list_app.
    destruct Hfirst as [(c & l1 & -> & Hc) _].
    destruct IH as [_ (d & l2 & -> & Hd)]. split.
    + exists c. eexists. split; [reflexivity | exact Hc].
    + exists d. eexists. split; [|exact Hd].
      rewrite !app_assoc. reflexivity.
Qed.

Lemma find_name_trimmed (found : list (list string)) :
  find_name found = "" \/ trimmed (PyStr.to_list (find_name found)).
Proof.
  induction found as [|names more IH]; [left; reflexivity|].
  cbn [find_name]. destruct names as [|n names]; [exact IH|].
  set (parts := List.filter PyStr.truthy (map PyStr.strip (n :: names))).
  destruct parts as [|part parts'] eqn:E; [left; reflexivity|].
  right. apply join_trimmed; [discriminate|].
  rewrite <- E. unfold parts. apply List.Forall_forall. intros s Hs.
  apply filter_In in Hs as [Hs Ht]. apply in_map_iff in Hs as (x & <- & _).
  exact (strip_truthy_trimmed _ Ht).
Qed.

(** X17: the name of a product is empty or has no white space at
    either end; the name of a product the crawler keeps is of the
    second kind. *)
Theorem names_are_trimmed (w : World) (url : string) (p : product) :
  scrape_product_details w url = Some p ->
  (name p = "" \/ trimmed (PyStr.to_list (name p)))
  /\ (kept w url = Some p -> trimmed (PyStr.to_list (name p))).
Proof.
  intros Hp.
  assert (H : name p = "" \/ trimmed (PyStr.to_list (name p))).
  { apply scrape_product_details_Some in Hp as (response & tree & e & _ & He & <-).
    apply extract_Ok in He as (_ & _ & -> & _). apply find_name_trimmed. }
  split; [exact H|].
  unfold kept. rewrite Hp. destruct (PyStr.truthy (name p)) eqn:Et; [|discriminate].
  intros _. destruct H as [E | H]; [|exact H]. rewrite E in Et. discriminate.
Qed.

Lemma names_are_trimmed_witness :
  exists p,
    scrape_product_details Examples.delta_world Examples.page_url = Some p
    /\ (name p = "" \/ trimmed (PyStr.to_list (name p)))
    /\ (kept Examples.delta_world Examples.page_url = Some p ->
        trimmed (PyStr.to_list (name p))).
Proof.
  eexists. split; [vm_compute; reflexivity|].
  apply (names_are_trimmed Examples.delta_world Examples.page_url).
  vm_compute. reflexivity.
Defined.

(** *** Where the mined sizes and the crawled products come from *)

Lemma match_here_occurs (r : regex) (start : nat) (st : mstate) (m : rmatch) :
  match_here r start st = Some m ->
  exists t, rest st = (group0 m ++ t)%list /\ Matches r (prev st) (group0 m) t.
Proof.
  unfold match_here. destruct (run r st) as [|st' l] eqn:E; [discriminate|].
  intros [= <-]. cbn [group0].
  destruct (run_sound r st st') as (u & Hrest & _ & Hm); [rewrite E; left; reflexivity|].
  exists (rest st'). rewrite (consumed_text st st' u Hrest). split; assumption.
Qed.

Lemma search_from_occurs (r : regex) (s : list ascii) (start : nat)
      (p : option ascii) (m : rmatch) :
  search_from r start p s = Some m ->
  exists pre t p', s = (pre ++ group0 m ++ t)%list /\ Matches r p' (group0 m) t.
Proof.
  revert start p. induction s as [|c s IH]; intros start p; cbn [search_from];
    destruct (match_here r start _) as [m'|] eqn:E.
  - intros [= <-]. apply match_here_occurs in E as (t & Ht & Hm).
    exists [], t, p. split; assumption.
  - discriminate.
  - intros [= <-]. apply match_here_occurs in E as (t & Ht & Hm).
    exists [], t, p. split; assumption.
  - intros H. apply IH in H as (pre & t & p' & -> & Hm).
    exists (c :: pre), t, p'. split; [reflexivity | exact Hm].
Qed.

Lemma finditer_from_occurs (fuel : nat) (r : regex) (start : nat)
      (p : option ascii) (s : list ascii) (m : rmatch) :
  In m (finditer_from fuel r start p s) ->
  exists pre t p', s = (pre ++ group0 m ++ t)%list /\ Matches r p' (group0 m) t.
Proof.
  revert start p s. induction fuel as [|fuel IH]; intros start p s; cbn [finditer_from];
    [intros []|].
  destruct (search_from r start p s) as [m'|] eqn:E; [|intros []].
  intros [<- | Hin]; [exact (search_from_occurs _ _ _ _ _ E)|].
  destruct (Nat.ltb _ _); [destruct Hin|].
  apply IH in Hin as (pre & t & p' & Hs & Hm).
  eexists (firstn _ s ++ pre)%list, t, p'. split; [|exact Hm].
  rewrite <- app_assoc, <- Hs. symmetry. apply firstn_skipn.
Qed.

Lemma mine_pattern_occurs (text : string) (sizes : list string) (pattern : regex) :
  In pattern size_patterns ->
  Forall (mined_from text) sizes ->
  Forall (mined_from text) (mine_pattern text sizes pattern).
Proof.
  intros Hpattern. unfold mine_pattern, finditer.
  assert (Hms : forall m,
             In m (finditer_from (S (length (list_ascii_of_string text))) pattern
                     0 None (list_ascii_of_string text)) ->
             mined_from text (group0_str m)).
  { intros m Hm. apply finditer_from_occurs in Hm as (pre & t & p & Hs & Hm).
    unfold mined_from, occurs_in, group0_str. fold PyStr.of_list.
    rewrite to_list_of_list.
    split; [exists pre, t; exact Hs|]. exists pattern, p, t. split; assumption. }
  revert Hms sizes.
  generalize (finditer_from (S (length (list_ascii_of_string text))) pattern
                0 None (list_ascii_of_string text)).
  intros ms. induction ms as [|m ms IH]; intros Hms sizes Hinv; cbn [fold_left];
    [exact Hinv|].
  apply IH; [intros m' Hm'; apply Hms; right; exact Hm'|].
  destruct (PyStr.truthy (group0_str m) && negb (mem (group0_str m) sizes));
    [|exact Hinv].
  apply Forall_app. split; [exact Hinv|]. constructor; [|constructor].
  pose proof (Hms m (or_introl eq_refl)) as Hm.
  assert (Ht : trimmed (group0 m)).
  { destruct Hm as [_ (r & p & t & Hr & Hm)].
    unfold group0_str in Hm. fold PyStr.of_list in Hm.
    rewrite to_list_of_list in Hm. exact (size_patterns_trimmed _ _ _ _ Hr Hm). }
  unfold group0_str in *. fold PyStr.of_list in *.
  rewrite (strip_trimmed _ Ht). exact Hm.
Qed.

(** X18: the text-mining fall-back invents nothing: every size it
    returns occurs as it is in the text of the page, and is a text one
    of the six size patterns matches. *)
Theorem mined_sizes_occur_in_text (tree : page) :
  Forall (mined_from (PyStr.join " " (all_texts tree))) (text_mining tree).
Proof.
  unfold text_mining.
  assert (H : forall patterns sizes,
             (forall r, In r patterns -> In r size_patterns) ->
             Forall (mined_from (PyStr.join " " (all_texts tree))) sizes ->
             Forall (mined_from (PyStr.join " " (all_texts tree)))
                    (fold_left (mine_pattern (PyStr.join " " (all_texts tree)))
                               patterns sizes)).
  { induction patterns as [|r patterns IH]; intros sizes Hsub Hinv; cbn [fold_left];
      [exact Hinv|].
    apply IH; [intros r' Hr'; apply Hsub; right; exact Hr'|].
    apply mine_pattern_occurs; [apply Hsub; left; reflexivity | exact Hinv]. }
  apply H; [auto | constructor].
Qed.

Lemma apply_limit_In (limit : option Z) (links : list string) (url : string) :
  In url (apply_limit limit links) -> In url links.
Proof.
  unfold apply_limit. destruct limit as [n|]; [|auto].
  destruct (0 <? n)%Z; [|auto].
  intros H. apply list_elem_of_In in H. apply list_elem_of_In.
  eapply subseteq_take. exact H.
Qed.

(** X19: where the products of a crawl come from.  Each product a new
    scraper returns was built from the page of a URL that is [urljoin]
    of the base URL and a link of the listing page that
    [is_product_url] accepts, with the text ?lang=default removed. *)
Theorem crawled_products_come_from_listing (w : World) (limit : option Z) :
  Forall (fun p =>
            exists response tree link url,
              fetch w list_page_url = Some (response, tree)
              /\ In link (hrefs tree) /\ is_product_url link = true
              /\ urljoin w base_url (PyStr.replace "?lang=default" "" link)
                 = Some url
              /\ scrape_product_details w url = Some p)
         (snd (scrape_all_products w new_scraper limit)).
Proof.
  rewrite scrape_all_products_returns. cbn [products new_scraper app].
  apply List.Forall_forall. intros p Hp.
  apply list_elem_of_In, list_elem_of_omap in Hp as (url & Hurl & Hkept).
  apply list_elem_of_In, apply_limit_In in Hurl.
  assert (Hdetails : scrape_product_details w url = Some p).
  { unfold kept in Hkept. destruct (scrape_product_details w url) as [q|]; [|discriminate].
    destruct (PyStr.truthy (name q)); [|discriminate]. exact Hkept. }
  unfold get_all_product_links, list_of_set in Hurl.
  destruct (fetch w list_page_url) as [[response tree]|] eqn:Ef; [|destruct Hurl].
  apply list_elem_of_In, elem_of_elements, add_links_sound in Hurl
    as [Hurl | (link & Hlink & Hp' & Hjoin)]; [set_solver|].
  exists response, tree, link, url. repeat split; assumption.
Qed.

(** *** The price summary *)

Lemma make_price_info_lists (prices : gmap string json) (info : string) :
  make_price_info prices = Ok info ->
  exists l,
    info = PyStr.join " | " l
    /\ List.NoDup l
    /\ forall s, In s l <-> exists k, prices !! k = Some (JStr s).
Proof.
  unfold make_price_info. case_bool_decide as Hempty.
  - intros [= <-]. exists []. split; [reflexivity|]. split; [constructor|].
    intros s. split; [intros []|]. intros [k Hk]. rewrite Hempty, lookup_empty in Hk.
    discriminate.
  - destruct (mapM as_string (snd <$> map_to_list prices)) as [price_values|] eqn:E;
      [|discriminate].
    intros [= <-]. apply mapM_Some in E.
    exists (list_of_set (list_to_set price_values)). split; [reflexivity|].
    unfold list_of_set. split; [apply NoDup_ListNoDup, NoDup_elements|].
    intros s. rewrite <- list_elem_of_In, elem_of_elements, elem_of_list_to_set.
    split.
    + intros Hs. apply list_elem_of_lookup in Hs as [i Hi].
      destruct (Forall2_lookup_r _ _ _ _ _ E Hi) as (x & Hx & Hxs).
      apply list_elem_of_lookup_2, list_elem_of_fmap in Hx as ([k v] & -> & Hkv).
      apply elem_of_map_to_list in Hkv. exists k.
      destruct v; try discriminate. cbn in Hxs. injection Hxs as ->. exact Hkv.
    + intros [k Hk]. apply elem_of_map_to_list in Hk.
      assert (Hin : JStr s ∈ snd <$> map_to_list prices).
      { apply list_elem_of_fmap. exists (k, JStr s). split; [reflexivity | exact Hk]. }
      apply list_elem_of_lookup in Hin as [i Hi].
      destruct (Forall2_lookup_l _ _ _ _ _ E Hi) as (y & Hy & Hsy).
      cbn in Hsy. injection Hsy as <-. exact (list_elem_of_lookup_2 _ _ _ Hy).
Qed.

(** X20: the price summary names each price once: [price_info] is the
    distinct prices of the product, joined by a bar between blanks. *)
Theorem price_info_lists_distinct_prices (w : World) (url : string) (p : product) :
  scrape_product_details w url = Some p ->
  exists l,
    price_info p = PyStr.join " | " l
    /\ List.NoDup l
    /\ forall s, In s l <-> exists k, prices p !! k = Some (JStr s).
Proof.
  intros Hp.
  apply details_from_variants in Hp as (response & tree & _ & _ & _ & -> & Hinfo & _).
  exact (make_price_info_lists _ _ Hinfo).
Qed.

Lemma price_info_lists_distinct_prices_witness :
  exists p,
    scrape_product_details Cases.table_world Examples.page_url = Some p
    /\ exists l,
         price_info p = PyStr.join " | " l
         /\ List.NoDup l
         /\ forall s, In s l <-> exists k, prices p !! k = Some (JStr s).
Proof.
  eexists. split; [vm_compute; reflexivity|].
  apply (price_info_lists_distinct_prices Cases.table_world Examples.page_url).
  vm_compute. reflexivity.
Defined.

End Extra.

(** ** The product and its prices

    What the extractor returns for a page, where each stored price
    comes from and which form it has. *)

Module Extractor.
Import Re Patterns Scraper Service Spec Notions Facts Extra.
Local Open Scope string_scope.

(** *** The product of a page *)

Lemma make_price_info_Ok (prices : gmap string json) :
  (forall k v, prices !! k = Some v -> exists s, v = JStr s) ->
  exists info, make_price_info prices = Ok info.
Proof.
  intros H. unfold make_price_info. case_bool_decide; [eexists; reflexivity|].
  destruct (mapM as_string (snd <$> map_to_list prices)) as [l|] eqn:E;
    [eexists; reflexivity|].
  exfalso. assert (Hs : is_Some (mapM as_string (snd <$> map_to_list prices))).
  { apply mapM_is_Some, Forall_forall. intros v Hv.
    apply list_elem_of_fmap in Hv as ([k v'] & -> & Hkv).
    apply elem_of_map_to_list in Hkv. destruct (H k v' Hkv) as [s ->].
    eexists. reflexivity. }
  rewrite E in Hs. destruct Hs as [? [=]].
Qed.

Lemma consolidate_prices_strings (vs : list variant) :
  Forall (fun v => string_or_none (price v)) vs ->
  forall k v, consolidate_prices vs !! k = Some v -> exists s, v = JStr s.
Proof.
  intros H k v Hk.
  apply fold_add_price_lookup in Hk as [Hk | (x & Hx & _ & <- & Ht)].
  - rewrite lookup_empty in Hk. discriminate.
  - rewrite List.Forall_forall in H. destruct (H x Hx) as [E | E]; [|exact E].
    unfold has_price in Ht. rewrite E in Ht. discriminate.
Qed.

Lemma scrape_product_details_eq (w : World) (url : string)
      (response : response) (tree : page) :
  fetch w url = Some (response, tree) ->
  let all_variants := snd (collect_variants w response tree) in
  scrape_product_details w url
  = match make_price_info (consolidate_prices all_variants) with
    | Ok price_info =>
        Some (Product (find_name (name_texts tree))
                      (if is_nil all_variants then text_mining tree
                       else consolidate_sizes all_variants)
                      (consolidate_prices all_variants)
                      price_info
                      (list_of_set (consolidate_sources all_variants)))
    | Raise _ => None
    end.
Proof.
  intros Hfetch. cbn zeta.
  unfold scrape_product_details, scrape_with_trace. rewrite Hfetch.
  unfold extract.
  pose proof (collect_variants_sized w response tree) as Hsized.
  destruct (collect_variants w response tree) as [called all_variants].
  cbn [fst snd] in *.
  destruct (make_price_info (consolidate_prices all_variants)) as [info|];
    cbn; [|reflexivity].
  rewrite (consolidate_sizes_nil _ Hsized). reflexivity.
Qed.

(** C1: on a fetched page where the options strategy returns at least
    one variant, no other strategy is called and the text-mining
    fall-back does not run; the extractor builds its product from the
    variants of the options strategy alone, and builds it whenever the
    price summary can be built: the product has the name found on the
    page, the consolidated sizes, prices and sources of these variants
    and their summary; it is None only when the summary raises.  When
    every option price is a string or None the product is built, and
    its sizes and prices are the consolidation of the option
    variants. *)
Theorem options_take_priority (w : World) (url : string)
        (response : response) (tree : page) :
  fetch w url = Some (response, tree) ->
  extract_variants_from_options w tree <> [] ->
  let options := extract_variants_from_options w tree in
  collect_variants w response tree = ([Options], options)
  /\ fallback_runs w response tree = false
  /\ scrape_product_details w url
     = match make_price_info (consolidate_prices options) with
       | Ok price_info =>
           Some (Product (find_name (name_texts tree))
                         (consolidate_sizes options)
                         (consolidate_prices options)
                         price_info
                         (list_of_set (consolidate_sources options)))
       | Raise _ => None
       end
  /\ (Forall (fun v => string_or_none (price v)) options ->
      exists p,
        scrape_product_details w url = Some p
        /\ sizes p = consolidate_sizes options
        /\ prices p = consolidate_prices options).
Proof.
  intros Hfetch Hopts options.
  pose proof (collect_variants_options w response tree Hopts) as Hcoll.
  assert (Hnil : is_nil options = false).
  { subst options. destruct (extract_variants_from_options w tree);
      [congruence | reflexivity]. }
  pose proof (scrape_product_details_eq w url response tree Hfetch) as Heq.
  cbn zeta in Heq. rewrite Hcoll in Heq. cbn [snd] in Heq.
  fold options in Heq. rewrite Hnil in Heq.
  split; [exact Hcoll|]. split; [|split].
  - rewrite fallback_runs_nil, Hcoll. exact Hnil.
  - exact Heq.
  - intros Hstr.
    destruct (make_price_info_Ok _ (consolidate_prices_strings _ Hstr)) as [info Hi].
    rewrite Hi in Heq. eexists. split; [exact Heq|]. split; reflexivity.
Qed.

Lemma options_take_priority_witness :
  collect_variants Examples.delta_world Examples.delta_response Examples.delta_page
  = ([Options], [Examples.delta_variant])
  /\ fallback_runs Examples.delta_world Examples.delta_response
                   Examples.delta_page = false
  /\ scrape_product_details Examples.delta_world Examples.page_url
     = Some (Product "Argan Oil" ["1.0floz / 30ml (+$2.50)"]
                     {[ "1.0floz / 30ml (+$2.50)" := JStr "$12.50" ]}
                     "$12.50" ["option_data"]).
Proof.
  destruct (options_take_priority Examples.delta_world Examples.page_url
              Examples.delta_response Examples.delta_page)
    as (Hcoll & Hfall & Hprod & _).
  - reflexivity.
  - vm_compute. discriminate.
  - split; [rewrite Hcoll; vm_compute; reflexivity|].
    split; [exact Hfall|].
    rewrite Hprod. vm_compute. reflexivity.
Defined.
(** *** The form of a formatted amount *)

Lemma formatted_amount_text (v : json) :
  formatted_amount v -> exists s, v = JStr s /\ amount_text s.
Proof.
  intros (x & -> & Hx). eexists. split; [reflexivity|].
  apply dollars_nonneg_form, Hx.
Qed.

Lemma add_nonneg (x y : spec_float) :
  nonneg_or_inf x -> nonneg_or_inf y -> nonneg_or_inf (PyFloat.add x y).
Proof.
  unfold PyFloat.add.
  intros [Hx | ->] [Hy | ->];
    try (destruct x as [[]|[]| |[] mx ex]; try discriminate Hx);
    try (destruct y as [[]|[]| |[] my ey]; try discriminate Hy);
    try (left; reflexivity); try (right; reflexivity).
  unfold SFadd, binary_normalize. cbn [cond_Zopp].
  change (Z.pos ?a + Z.pos ?b) with (Z.pos (a + b)). cbv iota.
  unfold binary_round.
  destruct (shl_align _ _ _) as [mz ez] eqn:E.
  apply binary_round_aux_nonneg. discriminate.
Qed.

Lemma amount_cents_chars (p : option ascii) (u t : list ascii) :
  Matches amount_cents p u t -> Forall (fun c => amount_char c = true) u.
Proof.
  unfold amount_cents, Digit2. cbn [Seq]. intros H.
  apply Matches_Cat in H as (a & f & -> & Ha & Hf).
  apply Matches_Plus_Cls in Ha as [_ Ha].
  apply Forall_app. split.
  - eapply Forall_impl; [exact Ha|]. intros c Hc. unfold amount_char.
    cbv beta in Hc. apply orb_true_iff in Hc as [-> | ->];
      rewrite ?orb_true_r; reflexivity.
  - apply Matches_Cat in Hf as (d & dd & -> & Hd & Hdd).
    apply Matches_Chr in Hd as ->.
    apply Matches_Cat in Hdd as (d1 & d2 & -> & H1 & H2).
    apply Matches_Cls in H1 as (c1 & -> & H1).
    apply Matches_Cls in H2 as (c2 & -> & H2).
    unfold amount_char. repeat constructor; rewrite ?H1, ?H2; reflexivity.
Qed.

(** The text group 1 holds after a search with a pattern whose only
    group is an amount. *)
Lemma capture_of_amount (r : regex) (s : string) (m : rmatch) :
  groups r = [amount_opt_cents] \/ groups r = [amount_cents] ->
  search r s = Some m ->
  exists u, group1_of m = PyStr.of_list u
            /\ Forall (fun c => amount_char c = true) u.
Proof.
  intros Hg H. apply search_from_captures in H.
  unfold group1_of, group1_str.
  destruct H as [-> | (g & u & p & t & Hin & -> & M)].
  - exists []. split; [reflexivity | constructor].
  - exists u. split; [reflexivity|].
    destruct Hg as [Hg | Hg]; rewrite Hg in Hin; destruct Hin as [<- | []].
    + eapply amount_opt_cents_chars, M.
    + eapply amount_cents_chars, M.
Qed.

Lemma float_of_amount (u : list ascii) (x : spec_float) :
  Forall (fun c => amount_char c = true) u ->
  float_without_commas (PyStr.of_list u) = Ok x -> nonneg_or_inf x.
Proof.
  intros Hu. unfold float_without_commas.
  destruct (remove_commas_plain u Hu) as (l & -> & Hl).
  apply of_string_plain, Hl.
Qed.

Lemma price_of_dollar_match_amount (m : rmatch) (u : list ascii) (a : json) :
  group1_of m = PyStr.of_list u ->
  Forall (fun c => amount_char c = true) u ->
  price_of_dollar_match m = Ok a -> formatted_amount a.
Proof.
  intros E Hu. unfold price_of_dollar_match. rewrite E.
  destruct (remove_commas_plain u Hu) as (l & -> & Hl).
  assert (Hzeros : Forall (fun c => plain_char c = true) (l ++ PyStr.to_list ".00")).
  { apply Forall_app. split; [exact Hl | repeat constructor]. }
  change ".00"%string with (PyStr.of_list (PyStr.to_list ".00")).
  rewrite of_list_app.
  destruct (PyStr.contains "." (PyStr.of_list l)).
  - destruct (PyFloat.of_string (PyStr.of_list l)) as [x|] eqn:Ex; cbn;
      [|discriminate].
    intros [= <-]. exists x. split; [reflexivity | exact (of_string_plain l x Hl Ex)].
  - destruct (PyFloat.of_string (PyStr.of_list (l ++ PyStr.to_list ".00")))
      as [x|] eqn:Ex; cbn; [|discriminate].
    intros [= <-]. exists x. split; [reflexivity | exact (of_string_plain _ x Hzeros Ex)].
Qed.

Lemma dollar_match_amount (text : string) (m : rmatch) (a : json) :
  search dollar_re text = Some m \/ search bracket_re text = Some m ->
  price_of_dollar_match m = Ok a -> formatted_amount a.
Proof.
  intros [H | H];
    [destruct (capture_of_amount dollar_re text m (or_introl eq_refl) H)
       as (u & E & Hu)
    |destruct (capture_of_amount bracket_re text m (or_introl eq_refl) H)
       as (u & E & Hu)];
    exact (price_of_dollar_match_amount m u a E Hu).
Qed.

Lemma price_of_attribute_amount (data_price : string) (otherwise a : json) :
  price_of_attribute data_price otherwise = Ok a ->
  a = otherwise \/ formatted_amount a.
Proof.
  unfold price_of_attribute.
  destruct (search data_price_re data_price) as [m|] eqn:E;
    [|intros [= <-]; left; reflexivity].
  destruct (capture_of_amount data_price_re _ m (or_introl eq_refl) E)
    as (u & Eu & Hu). rewrite Eu.
  destruct (float_without_commas (PyStr.of_list u)) as [x|] eqn:Ex; cbn;
    [|discriminate].
  intros [= <-]. right. exists x. split; [reflexivity|].
  exact (float_of_amount u x Hu Ex).
Qed.

Lemma price_with_cents_amount (text : string) (a : json) :
  price_with_cents text = Ok (Some a) -> formatted_amount a.
Proof.
  unfold price_with_cents.
  destruct (search dollar_cents_re text) as [m|] eqn:E; [|discriminate].
  destruct (capture_of_amount dollar_cents_re _ m (or_intror eq_refl) E)
    as (u & Eu & Hu). rewrite Eu.
  destruct (float_without_commas (PyStr.of_list u)) as [x|] eqn:Ex; cbn;
    [|discriminate].
  intros [= <-]. exists x. split; [reflexivity|].
  exact (float_of_amount u x Hu Ex).
Qed.

Lemma nearby_price_amount (l : list (option string)) (a : json) :
  nearby_price l = Ok (Some a) -> formatted_amount a.
Proof.
  induction l as [|x l IH]; cbn; [discriminate|].
  destruct (price_with_cents (default "" x)) as [[b|]|] eqn:E; cbn;
    [|exact IH | discriminate].
  intros [= <-]. exact (price_with_cents_amount _ _ E).
Qed.

Lemma find_base_price_nonneg (texts : list string) (base : spec_float) :
  find_base_price texts = Ok (Some base) -> nonneg_or_inf base.
Proof.
  induction texts as [|text more IH]; cbn; [discriminate|].
  destruct (search dollar_cents_re text) as [m|] eqn:E; [|exact IH].
  destruct (capture_of_amount dollar_cents_re _ m (or_intror eq_refl) E)
    as (u & Eu & Hu). rewrite Eu.
  destruct (float_without_commas (PyStr.of_list u)) as [x|] eqn:Ex; cbn;
    [|discriminate].
  intros [= <-]. exact (float_of_amount u x Hu Ex).
Qed.

Lemma variant_price_float (variant_data : json) (fields : list string) (a : json) :
  variant_price variant_data fields = Ok a -> a = JNull \/ formatted_float a.
Proof.
  induction fields as [|field more IH]; cbn [variant_price];
    [intros [= <-]; left; reflexivity|].
  destruct (Py.contains field variant_data) as [[]|]; cbn;
    [|exact IH | discriminate].
  destruct (Py.getitem variant_data field) as [price_val|]; cbn; [|discriminate].
  destruct (Py.is_number price_val).
  - destruct (Py.to_float price_val) as [x|]; cbn; [|discriminate].
    intros [= <-]. right. exists x. reflexivity.
  - destruct price_val; try exact IH.
    destruct (search cents_re s) as [m|]; [|exact IH].
    destruct (float_without_commas (group1_of m)) as [x|]; cbn; [|discriminate].
    intros [= <-]. right. exists x. reflexivity.
Qed.
(** *** The prices of the variation client *)

Lemma price_by_patterns_found (patterns : list regex) (text : string) :
  price_by_patterns patterns text = JNull
  \/ exists pattern m,
       In pattern patterns /\ search pattern text = Some m
       /\ ((PyStr.contains "$" (group1_of m) = true
            /\ price_by_patterns patterns text = JStr (group1_of m))
           \/ (PyStr.contains "$" (group1_of m) = false
               /\ exists x, float_without_commas (group1_of m) = Ok x
                            /\ price_by_patterns patterns text = JStr (dollars x))).
Proof.
  induction patterns as [|pattern patterns IH]; cbn [price_by_patterns];
    [left; reflexivity|].
  assert (Hrec : price_by_patterns patterns text = JNull
     \/ exists pattern' m,
       In pattern' (pattern :: patterns) /\ search pattern' text = Some m
       /\ ((PyStr.contains "$" (group1_of m) = true
            /\ price_by_patterns patterns text = JStr (group1_of m))
           \/ (PyStr.contains "$" (group1_of m) = false
               /\ exists x, float_without_commas (group1_of m) = Ok x
                            /\ price_by_patterns patterns text = JStr (dollars x)))).
  { destruct IH as [IH | (p' & m & Hin & H)]; [left; exact IH|].
    right. exists p', m. split; [right; exact Hin | exact H]. }
  destruct (search pattern text) as [m|] eqn:E; [|exact Hrec].
  destruct (PyStr.contains "$" (group1_of m)) eqn:Ec; cbn [negb].
  - right. exists pattern, m. split; [left; reflexivity|]. split; [exact E|].
    left. split; [exact Ec | reflexivity].
  - destruct (float_without_commas (group1_of m)) as [x|] eqn:Ex; [|exact Hrec].
    right. exists pattern, m. split; [left; reflexivity|]. split; [exact E|].
    right. split; [exact Ec|]. exists x. split; [exact Ex | reflexivity].
Qed.

Lemma call_product_variation_api_price (w : World) (variation_url : string) :
  call_product_variation_api w variation_url = JNull
  \/ client_price w variation_url (call_product_variation_api w variation_url).
Proof.
  unfold call_product_variation_api.
  destruct (urljoin w base_url variation_url) as [absolute_url|] eqn:Eu; cbn;
    [|left; reflexivity].
  destruct (session_get w absolute_url api_headers) as [response|] eqn:Eg;
    [|left; reflexivity].
  destruct (status_ok response) eqn:Eok; cbn [negb]; [|left; reflexivity].
  destruct (PyStr.is_empty (resp_text response)) eqn:Etext; [left; reflexivity|].
  assert (Hanswer : answers w variation_url response).
  { exists absolute_url. repeat split; assumption. }
  assert (Hpatterns :
            price_by_patterns price_patterns (resp_text response) = JNull
            \/ client_price w variation_url
                 (price_by_patterns price_patterns (resp_text response))).
  { destruct (price_by_patterns_found price_patterns (resp_text response))
      as [H | (pattern & m & Hin & Hs & [[Hc ->] | [Hc (x & Hx & ->)]])].
    - left. exact H.
    - right. eapply captured_text; eassumption.
    - right. eapply captured_number; eassumption. }
  destruct (resp_json response) as [json_data|] eqn:Ej; [|exact Hpatterns].
  destruct (formatted_sales_price json_data) as [[v|]|[]] eqn:Ef;
    try exact Hpatterns; try (left; reflexivity).
  right. eapply formatted_field; eassumption.
Qed.
(** *** The price of every variant *)

Lemma preserves_for_each_In {A : Type} (P : variant -> Prop)
      (body : A -> M unit) (xs : list A) :
  (forall x, In x xs -> preserves P (body x)) -> preserves P (for_each body xs).
Proof.
  induction xs as [|x xs IH]; intros Hbody; cbn [for_each].
  - apply preserves_ret.
  - apply preserves_seq; [apply Hbody; left; reflexivity|].
    intros _. apply IH. intros y Hy. apply Hbody. right. exact Hy.
Qed.

Lemma price_method1_kind (w : World) (option : option_el) :
  option_price_kind w option (price_method1 w (opt_value option)).
Proof.
  unfold price_method1.
  destruct (is_variation_url (opt_value option)) eqn:E; [|left; reflexivity].
  destruct (opt_value option) as [u|] eqn:Ev; [|discriminate]. cbn [default].
  destruct (call_product_variation_api_price w u) as [H | H];
    [left; exact H|].
  right. left. exists u. repeat split; assumption.
Qed.

Lemma price_method2_kind (w : World) (option : option_el) (p a : json) :
  price_method2 option p = Ok a ->
  option_price_kind w option p -> option_price_kind w option a.
Proof.
  unfold price_method2. intros H Hp.
  destruct (negb (Py.truthy p)); [|injection H as <-; exact Hp].
  destruct (opt_data_price option) as [d|]; [|injection H as <-; exact Hp].
  destruct (PyStr.truthy d); [|injection H as <-; exact Hp].
  apply price_of_attribute_amount in H as [-> | H]; [exact Hp|].
  right. right. exact H.
Qed.

Lemma price_method3_kind (w : World) (base : option spec_float)
      (option : option_el) (text : string) (p a : json) :
  (forall b, base = Some b -> nonneg_or_inf b) ->
  price_method3 base text p = Ok a ->
  option_price_kind w option p -> option_price_kind w option a.
Proof.
  unfold price_method3. intros Hbase H Hp.
  destruct (negb (Py.truthy p) && base_truthy base);
    [|injection H as <-; exact Hp].
  destruct base as [b|]; [|injection H as <-; exact Hp].
  specialize (Hbase b eq_refl).
  destruct (search delta_re text) as [m|] eqn:E.
  - destruct (capture_of_amount delta_re _ m (or_intror eq_refl) E)
      as (u & Eu & Hu). rewrite Eu in H.
    destruct (float_without_commas (PyStr.of_list u)) as [x|] eqn:Ex;
      cbn in H; [|discriminate].
    injection H as <-. right. right. eexists. split; [reflexivity|].
    apply add_nonneg; [exact Hbase | exact (float_of_amount u x Hu Ex)].
  - destruct (negb (PyStr.contains "(" text)); injection H as <-; [|exact Hp].
    right. right. exists b. split; [reflexivity | exact Hbase].
Qed.

Lemma price_method4_kind (w : World) (option : option_el) (text : string)
      (p a : json) :
  price_method4 text p = Ok a ->
  option_price_kind w option p -> option_price_kind w option a.
Proof.
  unfold price_method4. intros H Hp.
  destruct (negb (Py.truthy p)); [|injection H as <-; exact Hp].
  destruct (search dollar_re text) as [m|] eqn:E; [|injection H as <-; exact Hp].
  right. right. exact (dollar_match_amount text m a (or_introl E) H).
Qed.

Lemma select_option_kind (w : World) (tree : page) (base : option spec_float)
      (option : option_el) :
  In option (select_options_of tree) ->
  (forall b, base = Some b -> nonneg_or_inf b) ->
  preserves (price_kind w tree) (select_option w base option).
Proof.
  intros Hin Hbase. unfold select_option.
  destruct (_ || _); [apply preserves_ret|].
  destruct (size_truthy _) as [size|]; [|apply preserves_ret].
  apply preserves_lift_bind. intros p2 H2.
  apply preserves_lift_bind. intros p3 H3.
  apply preserves_lift_bind. intros p4 H4.
  apply preserves_append.
  pose proof (price_method1_kind w option) as K.
  apply (price_method2_kind w option _ _ H2) in K.
  apply (price_method3_kind w _ option _ _ _ Hbase H3) in K.
  apply (price_method4_kind w option _ _ _ H4) in K.
  unfold price_kind. cbn [price source].
  destruct K as [-> | [(u & Ev & Hu & Hc) | K]]; [left; reflexivity | |].
  - right. left. unfold from_client. cbn [price source].
    rewrite Ev, Hu. split; [reflexivity|]. exists option, u.
    repeat split; assumption.
  - right. right. right. exact K.
Qed.

Lemma select_options_kind (w : World) (tree : page) :
  preserves (price_kind w tree) (select_options w tree).
Proof.
  unfold select_options. fold (select_options_of tree).
  apply preserves_lift_bind. intros base Hbase.
  apply preserves_for_each_In. intros option Hin.
  apply select_option_kind; [exact Hin|].
  intros b ->. exact (find_base_price_nonneg _ _ Hbase).
Qed.

Lemma amount_or_none_kind (w : World) (tree : page) (size tag : string) (p : json) :
  amount_or_none p -> price_kind w tree (MkVariant size p tag).
Proof.
  intros [-> | H]; [left; reflexivity | right; right; right; exact H].
Qed.

Lemma attribute_price_amount (data_price : option string) (a : json) :
  (if attr_truthy data_price
   then price_of_attribute (default "" data_price) JNull
   else Ok JNull) = Ok a ->
  amount_or_none a.
Proof.
  destruct (attr_truthy data_price); [|intros [= <-]; left; reflexivity].
  intros H. apply price_of_attribute_amount in H as [-> | H];
    [left; reflexivity | right; exact H].
Qed.

Lemma text_price_amount (r : regex) (text : string) (p a : json) :
  r = dollar_re \/ r = bracket_re ->
  amount_or_none p ->
  (if negb (Py.truthy p)
   then match search r text with
        | Some m => price_of_dollar_match m
        | None => Ok p
        end
   else Ok p) = Ok a ->
  amount_or_none a.
Proof.
  intros Hr Hp. destruct (negb (Py.truthy p)); [|intros [= <-]; exact Hp].
  destruct (search r text) as [m|] eqn:E; [|intros [= <-]; exact Hp].
  intros H. right. apply (dollar_match_amount text m a); [|exact H].
  destruct Hr as [-> | ->]; [left | right]; exact E.
Qed.

Lemma first_text_price_amount (text : string) (a : json) :
  match search dollar_re text with
  | Some m => price_of_dollar_match m
  | None => Ok JNull
  end = Ok a ->
  amount_or_none a.
Proof.
  destruct (search dollar_re text) as [m|] eqn:E; [|intros [= <-]; left; reflexivity].
  intros H. right. exact (dollar_match_amount text m a (or_introl E) H).
Qed.

Lemma radio_and_list_options_kind (w : World) (tree : page) :
  preserves (price_kind w tree) (radio_and_list_options tree).
Proof.
  unfold radio_and_list_options. apply preserves_seq; [|intros _].
  - apply preserves_for_each. intros radio. unfold radio_option.
    destruct (radio_label radio) as [content|]; [|apply preserves_ret].
    apply preserves_lift_bind. intros p1 H1.
    apply preserves_lift_bind. intros p2 H2.
    destruct (size_truthy _) as [size|]; [|apply preserves_ret].
    apply preserves_append, amount_or_none_kind.
    apply attribute_price_amount in H1.
    exact (text_price_amount dollar_re _ p1 p2 (or_introl eq_refl) H1 H2).
  - apply preserves_for_each. intros ul. apply preserves_for_each. intros content.
    unfold list_option.
    apply preserves_lift_bind. intros p1 H1.
    apply preserves_lift_bind. intros p2 H2.
    destruct (size_truthy _) as [size|]; [|apply preserves_ret].
    apply preserves_append, amount_or_none_kind.
    apply first_text_price_amount in H1.
    exact (text_price_amount bracket_re _ p1 p2 (or_intror eq_refl) H1 H2).
Qed.

Lemma strategies_kind (w : World) (response : response) (tree : page)
      (s : strategy) :
  Forall (price_kind w tree) (run_strategy w response tree s).
Proof.
  destruct s; cbn [run_strategy].
  - unfold extract_variants_from_options.
    apply run_block_preserves; [apply radio_and_list_options_kind|].
    apply run_block_preserves; [apply select_options_kind | constructor].
  - unfold extract_variants_from_json_ld.
    apply run_block_preserves; [|constructor].
    unfold json_ld_script, json_ld_item, json_ld_offer. keep.
    right. right. left. split; [left; reflexivity|]. eexists. reflexivity.
  - unfold extract_variants_from_inline_json.
    apply run_block_preserves; [|constructor].
    unfold inline_match, inline_variant. keep.
    match goal with Hprice : variant_price _ _ = Ok _ |- _ =>
      apply variant_price_float in Hprice as [-> | Hfloat] end;
      [left; reflexivity|].
    right. right. left. split; [right; left; reflexivity | exact Hfloat].
  - unfold extract_variants_from_tables.
    apply run_block_preserves; [|constructor].
    unfold table, table_row. keep. subst.
    right. right. right. eapply price_with_cents_amount. eassumption.
  - unfold extract_variants_from_proximity.
    apply run_block_preserves; [|constructor].
    induction (text_elements tree) as [|element more IH]; cbn [proximity_scan].
    + apply preserves_ret.
    + keep; try exact IH. subst.
      right. right. right. eapply nearby_price_amount. eassumption.
Qed.
Lemma collect_variants_kind (w : World) (response : response) (tree : page) :
  Forall (price_kind w tree) (snd (collect_variants w response tree)).
Proof.
  destruct (collect_variants_of_one w response tree) as [s ->].
  apply strategies_kind.
Qed.

Lemma collect_variants_tags (w : World) (response : response) (tree : page)
      (x : variant) :
  In x (snd (collect_variants w response tree)) ->
  In (source x) plain_tags
  \/ In (source x) ["json_ld"; "inline_json"]
  \/ source x = "dynamic_api".
Proof.
  destruct (collect_variants_of_one w response tree) as [s ->]. intros Hx.
  pose proof (strategies_tagged w response tree s) as Ht.
  rewrite List.Forall_forall in Ht. specialize (Ht x Hx).
  unfold tagged, plain_tags in *. destruct s; cbn [tags_of In] in *;
    intuition (try congruence).
Qed.

Lemma plain_tag_apart (tag : string) :
  In tag plain_tags ->
  tag <> "dynamic_api" /\ ~ In tag ["json_ld"; "inline_json"].
Proof.
  unfold plain_tags. cbn [In]. intros H.
  repeat (destruct H as [<- | H];
          [split; [discriminate | intros [[=] | [[=] | []]]]|]).
  destruct H.
Qed.

(** C4, as the code has it: every price stored in a product that the
    extractor returns is a string, the price of a collected variant of
    that size whose source tag is among the price sources of the
    product.  With one of the tags option_data, radio_option,
    ul_option, table and proximity the string is a dollar sign, an
    integer part, a point and two digits (or [$inf] for digits beyond
    the range of a float).  With json_ld or inline_json it is a dollar
    sign and a float formatted with two decimals.  With dynamic_api it
    has the first form, or it is what the variation client returned
    for the URL of a select option of the page: the formatted field of
    the answer or a capture with a dollar sign, both as they are, or a
    capture read as a number and formatted.  A product all of whose
    price sources are among the five tags above has prices of the
    first form only. *)
Theorem stored_price_origin_and_form (w : World) (url : string)
        (response : response) (tree : page) (p : product) :
  fetch w url = Some (response, tree) ->
  scrape_product_details w url = Some p ->
  (forall k v,
     prices p !! k = Some v ->
     exists x s,
       In x (snd (collect_variants w response tree))
       /\ size x = k /\ price x = v /\ v = JStr s
       /\ In (source x) (price_sources p)
       /\ ((In (source x) plain_tags /\ amount_text s)
           \/ (In (source x) ["json_ld"; "inline_json"]
               /\ exists f, s = dollars f)
           \/ (source x = "dynamic_api"
               /\ (amount_text s \/ from_client w tree x))))
  /\ ((forall tag, In tag (price_sources p) -> In tag plain_tags) ->
      forall k v, prices p !! k = Some v -> exists s, v = JStr s /\ amount_text s).
Proof.
  intros Hfetch Hp.
  pose proof (scrape_product_details_eq w url response tree Hfetch) as Heq.
  cbn zeta in Heq. rewrite Hp in Heq.
  destruct (make_price_info (consolidate_prices (snd (collect_variants w response tree))))
    as [info|] eqn:Hinfo; [|discriminate].
  injection Heq as ->. cbn [prices price_sources].
  assert (Hall : forall k v,
     consolidate_prices (snd (collect_variants w response tree)) !! k = Some v ->
     exists x s,
       In x (snd (collect_variants w response tree))
       /\ size x = k /\ price x = v /\ v = JStr s
       /\ In (source x)
             (list_of_set (consolidate_sources (snd (collect_variants w response tree))))
       /\ ((In (source x) plain_tags /\ amount_text s)
           \/ (In (source x) ["json_ld"; "inline_json"]
               /\ exists f, s = dollars f)
           \/ (source x = "dynamic_api"
               /\ (amount_text s \/ from_client w tree x)))).
  { intros k v Hk.
    destruct (make_price_info_strings _ _ _ _ Hinfo Hk) as [s ->].
    apply consolidate_prices_from in Hk as (x & Hx & Hsize & Hprice & Htruthy).
    exists x, s. split; [exact Hx|]. split; [exact Hsize|].
    split; [exact Hprice|]. split; [reflexivity|]. split.
    - apply list_elem_of_In, elem_of_elements, fold_add_source. right.
      exists x. repeat split; assumption.
    - pose proof (collect_variants_kind w response tree) as Hkind.
      rewrite List.Forall_forall in Hkind. specialize (Hkind x Hx).
      pose proof (collect_variants_tags w response tree x Hx) as Htags.
      destruct Hkind as [H | [H | [[Htag (f & H)] | H]]].
      + rewrite Hprice in H. discriminate.
      + right. right. split; [exact (proj1 H)|]. right. exact H.
      + right. left. split; [exact Htag|]. exists f.
        rewrite Hprice in H. injection H as ->. reflexivity.
      + rewrite Hprice in H. pose proof H as (f & [= Hf] & _).
        apply formatted_amount_text in H as (s' & [= <-] & Hs').
        destruct Htags as [Hplain | [Hjson | Hdyn]].
        * left. split; assumption.
        * right. left. split; [exact Hjson|]. exists f. exact Hf.
        * right. right. split; [exact Hdyn|]. left. exact Hs'. }
  split; [exact Hall|].
  intros Htags k v Hk.
  destruct (Hall k v Hk) as (x & s & _ & _ & _ & -> & Hsrc & Hkind).
  exists s. split; [reflexivity|].
  destruct (plain_tag_apart _ (Htags _ Hsrc)) as [Hdyn Hjson].
  destruct Hkind as [[_ H] | [[Htag _] | [Htag _]]];
    [exact H | destruct (Hjson Htag) | destruct (Hdyn Htag)].
Qed.

Lemma stored_price_origin_and_form_witness :
  exists p,
    scrape_product_details Examples.variation_world Examples.page_url = Some p
    /\ prices p !! "30ml" = Some (JStr "$1,234.50")
    /\ exists x s,
         In x (snd (collect_variants Examples.variation_world
                      (Response true "" None (Some Examples.variation_page))
                      Examples.variation_page))
         /\ size x = "30ml" /\ price x = JStr "$1,234.50"
         /\ JStr "$1,234.50" = JStr s
         /\ In (source x) (price_sources p)
         /\ ((In (source x) plain_tags /\ amount_text s)
             \/ (In (source x) ["json_ld"; "inline_json"]
                 /\ exists f, s = dollars f)
             \/ (source x = "dynamic_api"
                 /\ (amount_text s
                     \/ from_client Examples.variation_world
                          Examples.variation_page x))).
Proof.
  eexists. split; [vm_compute; reflexivity|].
  split; [vm_compute; reflexivity|].
  destruct (stored_price_origin_and_form Examples.variation_world Examples.page_url
              (Response true "" None (Some Examples.variation_page))
              Examples.variation_page
              (Product "Argan Oil" ["30ml"] {[ "30ml" := JStr "$1,234.50" ]}
                       "$1,234.50" ["dynamic_api"]))
    as [H _].
  - reflexivity.
  - vm_compute. reflexivity.
  - apply (H "30ml"). vm_compute. reflexivity.
Defined.

(** C7: for the product the extractor returns for a fetched page, and
    the variants [vs] collected on that page: the sizes of the product
    are distinct; when there are variants, the sizes are those of the
    variants in the order in which each is seen first; and when two
    variants have the same size, the later one carries a price and no
    variant after it carries a price for this size, the product maps
    the size to the price of the later variant and lists the size
    exactly once.  The product is built when every price of a variant
    is a string or None. *)
Theorem consolidation_last_price_first_size (w : World) (url : string)
        (response : response) (tree : page) :
  fetch w url = Some (response, tree) ->
  let vs := snd (collect_variants w response tree) in
  (Forall (fun v => string_or_none (price v)) vs ->
   exists p, scrape_product_details w url = Some p)
  /\ forall p,
       scrape_product_details w url = Some p ->
       List.NoDup (sizes p)
       /\ (vs <> [] -> sizes p = first_seen (sizes_of vs))
       /\ forall before v1 between v2 after,
            vs = (before ++ v1 :: between ++ v2 :: after)%list ->
            size v1 = size v2 ->
            has_price v2 = true ->
            Forall (fun v => size v = size v2 -> has_price v = false) after ->
            prices p !! size v2 = Some (price v2)
            /\ count_occ string_dec (sizes p) (size v2) = 1%nat.
Proof.
  intros Hfetch vs.
  pose proof (scrape_product_details_eq w url response tree Hfetch) as Heq.
  cbn zeta in Heq. fold vs in Heq.
  pose proof (collect_variants_sized w response tree) as Hsized. fold vs in Hsized.
  split.
  - intros Hstr.
    destruct (make_price_info_Ok _ (consolidate_prices_strings _ Hstr)) as [info Hi].
    rewrite Hi in Heq. eexists. exact Heq.
  - intros p Hp. rewrite Hp in Heq.
    destruct (make_price_info (consolidate_prices vs)) as [info|]; [|discriminate].
    injection Heq as ->. cbn [sizes prices].
    assert (Hnd : List.NoDup (if is_nil vs then text_mining tree
                              else consolidate_sizes vs)).
    { destruct (is_nil vs); [apply text_mining_distinct|].
      rewrite consolidate_sizes_first_seen. apply first_seen_NoDup. }
    split; [exact Hnd|]. split.
    + intros Hne. destruct vs; [congruence|]. cbn [is_nil].
      apply consolidate_sizes_first_seen.
    + intros before v1 between v2 after E Hsame Hprice Hafter. split.
      * rewrite E.
        replace (before ++ v1 :: between ++ v2 :: after)%list
          with ((before ++ v1 :: between) ++ v2 :: after)%list
          by (rewrite <- app_assoc; reflexivity).
        apply consolidate_prices_last; assumption.
      * apply (proj1 (List.NoDup_count_occ' string_dec _) Hnd).
        assert (Hin : In v2 vs).
        { rewrite E. apply in_or_app. right. right. apply in_or_app. right.
          left. reflexivity. }
        destruct vs as [|v0 vs0]; [destruct Hin|]. cbn [is_nil].
        apply consolidate_sizes_In. split.
        -- rewrite List.Forall_forall in Hsized. exact (Hsized v2 Hin).
        -- exists v2. split; [exact Hin | reflexivity].
Qed.

Lemma consolidation_last_price_first_size_witness :
  exists p,
    scrape_product_details Cases.repeat_world Examples.page_url = Some p
    /\ snd (collect_variants Cases.repeat_world Cases.repeat_response Cases.repeat_page)
       = [MkVariant "30ml" (JStr "$10.00") "option_data";
          MkVariant "30ml" (JStr "$12.00") "option_data"]
    /\ sizes p = ["30ml"]
    /\ prices p !! "30ml" = Some (JStr "$12.00")
    /\ count_occ string_dec (sizes p) "30ml" = 1%nat.
Proof.
  assert (E : snd (collect_variants Cases.repeat_world Cases.repeat_response Cases.repeat_page)
              = [MkVariant "30ml" (JStr "$10.00") "option_data";
                 MkVariant "30ml" (JStr "$12.00") "option_data"])
    by (vm_compute; reflexivity).
  destruct (consolidation_last_price_first_size Cases.repeat_world Examples.page_url
              Cases.repeat_response Cases.repeat_page eq_refl) as [Hbuilt Hall].
  destruct Hbuilt as [p Hp].
  { rewrite E. repeat (constructor; [right; eexists; reflexivity|]). constructor. }
  exists p. split; [exact Hp|]. split; [exact E|].
  destruct (Hall p Hp) as (_ & Hsizes & Hlast).
  split; [rewrite Hsizes by (rewrite E; discriminate); rewrite E; reflexivity|].
  apply (Hlast [] (MkVariant "30ml" (JStr "$10.00") "option_data") []
               (MkVariant "30ml" (JStr "$12.00") "option_data") []).
  - exact E.
  - reflexivity.
  - reflexivity.
  - constructor.
Defined.
(** *** Normalisation of prices *)






End Extractor.
